(** * json-db: a shallow embedding of [lib/db.js] and [lib/api.mjs]

    The development follows the source function by function: the value
    model, the query validator and evaluator, the projection engine, the
    update engine, the id generator, the [JsonDB] methods, the registry of
    open databases and the action layer.

    Modelling conventions.
    - A JavaScript value is a term of [value]; numbers are IEEE doubles
      ([float]).  A string is the sequence of its UTF-16 code units, one
      character of the model per code unit; the model has the strings
      whose code units are below 256, and on them [<] is the order of
      [String.ltb].
    - An object is the list of its own enumerable properties, in the order
      in which [Object.keys] enumerates them: the keys that are array
      indices first, in ascending order, then the others as created.
      [setProp] keeps that order.
    - The objects that callers pass (queries, projections, updates,
      options, documents to insert) and the stores are plain objects: they
      inherit from [Object.prototype].  A read [o[k]] with a computed
      name [k] finds an own property, or else what [Object.prototype]
      holds under [k]: the accessor [__proto__], the built-in methods
      ([constructor], [toString], ...), or a property that the program has
      added.  The latter are the component [proto] of the state.
    - The built-in members of [Object.prototype] are those of a fresh
      runtime.  Where the program would alter one of them, give an object
      another object as prototype, run on a built-in function as if it
      were a document, or need the text that JavaScript prints for a
      number or an object, the model stops: the outcome is [Unmodelled],
      and nothing is claimed about it.
    - Objects and arrays of a query are never the same reference as a value
      held by a document, so [===] between two of them is [false];
      [structuredClone] is then the identity on the values it accepts.
    - A thrown exception is the [Throw] outcome of the [result] type.
    - [logError] and [logInfo] only emit diagnostics and are left out. *)

From Stdlib Require Import List String Ascii Bool Arith NArith ZArith Lia.
From Stdlib Require Import Floats.
From Stdlib Require Import DecimalString.
Import ListNotations.
Local Open Scope string_scope.
Local Open Scope list_scope.

(** ** Outcomes *)

Inductive exn : Type :=
| TypeError
| SyntaxError
| DataCloneError
| UserError.

Inductive result (A : Type) : Type :=
| Ok (a : A)
| Throw (e : exn)
| Unmodelled.

Arguments Ok {A} a.
Arguments Throw {A} e.
Arguments Unmodelled {A}.

Definition bind {A B : Type} (m : result A) (k : A -> result B) : result B :=
  match m with
  | Ok a => k a
  | Throw e => Throw e
  | Unmodelled => Unmodelled
  end.

Notation "x <- m ;; k" := (bind m (fun x => k))
  (at level 61, m at next level, right associativity).

(** ** Values

    [VFun] is a function of the caller, known by a reference that the host
    can call.  [VBuiltin name] is the function that [Object.prototype]
    holds under [name] in a fresh runtime, and [VProto] is the object
    [Object.prototype] itself, which every plain object returns for
    [__proto__]. *)

Unset Elimination Schemes.

Inductive value : Type :=
| VUndef
| VNull
| VBool (b : bool)
| VNum (x : float)
| VStr (s : string)
| VArr (items : list value)
| VObj (props : list (string * value))
| VFun (ref : nat)
| VBuiltin (name : string)
| VProto.

Set Elimination Schemes.

Definition obj : Type := list (string * value).

Inductive jstype : Type :=
| TUndefined | TObject | TBoolean | TNumber | TString | TFunction.

Definition typeof (v : value) : jstype :=
  match v with
  | VUndef => TUndefined
  | VNull => TObject
  | VBool _ => TBoolean
  | VNum _ => TNumber
  | VStr _ => TString
  | VArr _ => TObject
  | VObj _ => TObject
  | VFun _ => TFunction
  | VBuiltin _ => TFunction
  | VProto => TObject
  end.

Definition typeName (t : jstype) : string :=
  match t with
  | TUndefined => "undefined"
  | TObject => "object"
  | TBoolean => "boolean"
  | TNumber => "number"
  | TString => "string"
  | TFunction => "function"
  end.

Definition jstype_eqb (a b : jstype) : bool :=
  match a, b with
  | TUndefined, TUndefined | TObject, TObject | TBoolean, TBoolean
  | TNumber, TNumber | TString, TString | TFunction, TFunction => true
  | _, _ => false
  end.

Definition isArray (v : value) : bool :=
  match v with VArr _ => true | _ => false end.

Definition isNull (v : value) : bool :=
  match v with VNull => true | _ => false end.

Definition isUndefined (v : value) : bool :=
  match v with VUndef => true | _ => false end.

(** [typeof v !== "object" || Array.isArray(v) || v === null] is false
    exactly for the objects that are neither arrays nor functions. *)
Definition notPlainObject (v : value) : bool :=
  negb (jstype_eqb (typeof v) TObject) || isArray v || isNull v.

(** ToBoolean *)
Definition truthy (v : value) : bool :=
  match v with
  | VUndef | VNull => false
  | VBool b => b
  | VNum x => negb (PrimFloat.is_zero x || PrimFloat.is_nan x)
  | VStr s => negb (String.eqb s "")
  | VArr _ | VObj _ | VFun _ | VBuiltin _ | VProto => true
  end.

(** [a === b] *)
Definition strictEq (a b : value) : bool :=
  match a, b with
  | VUndef, VUndef => true
  | VNull, VNull => true
  | VBool x, VBool y => Bool.eqb x y
  | VNum x, VNum y => PrimFloat.eqb x y
  | VStr x, VStr y => String.eqb x y
  | VFun x, VFun y => Nat.eqb x y
  | VBuiltin x, VBuiltin y => String.eqb x y
  | VProto, VProto => true
  | _, _ => false
  end.

(** SameValueZero, the comparison of [Array.prototype.includes] *)
Definition sameValueZero (a b : value) : bool :=
  match a, b with
  | VNum x, VNum y =>
      PrimFloat.eqb x y || (PrimFloat.is_nan x && PrimFloat.is_nan y)
  | _, _ => strictEq a b
  end.

Definition arrayIncludes (l : list value) (v : value) : bool :=
  existsb (fun x => sameValueZero x v) l.

(** [s.includes(sub)] on strings *)
Fixpoint stringIncludes (s sub : string) : bool :=
  String.prefix sub s ||
  match s with
  | EmptyString => false
  | String _ s' => stringIncludes s' sub
  end.

(** ** Own properties *)

Fixpoint lookup {A : Type} (k : string) (o : list (string * A)) : option A :=
  match o with
  | [] => None
  | (k', v) :: r => if String.eqb k k' then Some v else lookup k r
  end.

Definition keys {A : Type} (o : list (string * A)) : list string :=
  map fst o.

(** A key is an array index when it is the canonical decimal numeral of an
    integer from 0 to 2^32 - 2. *)
Definition digitOf (c : ascii) : option N :=
  let n := N_of_ascii c in
  if N.leb 48 n && N.leb n 57 then Some (n - 48)%N else None.

Fixpoint digitsValue (s : string) (acc : N) : option N :=
  match s with
  | EmptyString => Some acc
  | String c r =>
      match digitOf c with
      | Some d => digitsValue r (10 * acc + d)%N
      | None => None
      end
  end.

Definition arrayIndex (k : string) : option N :=
  match k with
  | EmptyString => None
  | String c r =>
      if Ascii.eqb c "0"%char && negb (String.eqb r "") then None
      else
        match digitsValue k 0 with
        | Some n => if N.leb n 4294967294 then Some n else None
        | None => None
        end
  end.

(** [o[k] = v] when [k] is an own property: the value changes, the
    position does not. *)
Fixpoint replaceProp {A : Type} (k : string) (v : A) (o : list (string * A))
  : list (string * A) :=
  match o with
  | [] => []
  | (k', v') :: r =>
      if String.eqb k k' then (k', v) :: r else (k', v') :: replaceProp k v r
  end.

(** A new array index goes before the first key that is a greater index
    or no index. *)
Fixpoint insertIndex {A : Type} (n : N) (k : string) (v : A)
  (o : list (string * A)) : list (string * A) :=
  match o with
  | [] => [(k, v)]
  | (k', v') :: r =>
      match arrayIndex k' with
      | Some m =>
          if N.ltb n m then (k, v) :: o else (k', v') :: insertIndex n k v r
      | None => (k, v) :: o
      end
  end.

(** [o[k] = v] as far as the own properties go: an existing property is
    overwritten, a new one is created. *)
Definition setProp {A : Type} (k : string) (v : A) (o : list (string * A))
  : list (string * A) :=
  match lookup k o with
  | Some _ => replaceProp k v o
  | None =>
      match arrayIndex k with
      | Some n => insertIndex n k v o
      | None => o ++ [(k, v)]
      end
  end.

(** [delete o[k]] *)
Fixpoint deleteProp {A : Type} (k : string) (o : list (string * A))
  : list (string * A) :=
  match o with
  | [] => []
  | (k', v') :: r =>
      if String.eqb k k' then deleteProp k r else (k', v') :: deleteProp k r
  end.

Definition indexName (n : nat) : string :=
  NilEmpty.string_of_uint (Nat.to_uint n).

Fixpoint indexed (n : nat) (l : list value) : list (string * value) :=
  match l with
  | [] => []
  | v :: r => (indexName n, v) :: indexed (S n) r
  end.

Fixpoint chars (s : string) : list value :=
  match s with
  | EmptyString => []
  | String c r => VStr (String c EmptyString) :: chars r
  end.

(** [Object.entries(v)]; it throws on [null] and [undefined].  A function
    has no enumerable property of its own.  The entries of
    [Object.prototype] are the properties added to it, which a value does
    not carry. *)
Definition entries (v : value) : result (list (string * value)) :=
  match v with
  | VUndef | VNull => Throw TypeError
  | VObj o => Ok o
  | VArr l => Ok (indexed 0 l)
  | VStr s => Ok (indexed 0 (chars s))
  | VBool _ | VNum _ | VFun _ | VBuiltin _ => Ok []
  | VProto => Unmodelled
  end.

(** ** Object.prototype

    Its own properties in a fresh runtime are the accessor [__proto__] and
    eleven methods.  [proto] lists the enumerable properties that have been
    added to it since. *)

Definition builtinMembers : list string :=
  [ "constructor"; "__defineGetter__"; "__defineSetter__"; "hasOwnProperty";
    "__lookupGetter__"; "__lookupSetter__"; "isPrototypeOf";
    "propertyIsEnumerable"; "toString"; "valueOf"; "toLocaleString" ].

Definition isBuiltinMember (k : string) : bool :=
  existsb (String.eqb k) builtinMembers.

(** What a plain object inherits under [k]. *)
Definition inherited (proto : obj) (k : string) : value :=
  if k =? "__proto__" then VProto
  else if isBuiltinMember k then VBuiltin k
  else
    match lookup k proto with
    | Some v => v
    | None => VUndef
    end.

(** [o[k]] on a plain object [o] *)
Definition getProp (proto : obj) (o : obj) (k : string) : value :=
  match lookup k o with
  | Some v => v
  | None => inherited proto k
  end.

(** [options?.name], for a name that is neither an index, nor [length],
    nor a member of the prototype of arrays, strings, numbers, booleans or
    functions.  The methods read [skipSave] and [multi]. *)
Definition optProp (proto : obj) (options : value) (name : string) : value :=
  match options with
  | VUndef | VNull => VUndef
  | VObj o => getProp proto o name
  | _ => inherited proto name
  end.

(** ** Documents

    A document of a store is a plain object, unless an update has assigned
    [null] to its [__proto__]: it then inherits nothing.  The kind [Root]
    is [Object.prototype] itself when it is handed to the engine as a
    document, which a query for the id [__proto__] does: its [fields] are
    the properties added to it, and the built-in members are its own. *)

Inductive Kind : Type :=
| Plain
| Bare
| Root.

Record Doc : Type := mkDoc {
  kind : Kind;
  fields : obj
}.

Definition plain (o : obj) : Doc := mkDoc Plain o.

Definition DocMap : Type := list (string * Doc).

(** [doc[k]] for the document as the object [Object.prototype] *)
Definition rootMember (k : string) : value :=
  if k =? "__proto__" then VNull
  else if isBuiltinMember k then VBuiltin k
  else VUndef.

(** [doc[k]] *)
Definition getField (proto : obj) (doc : Doc) (k : string) : value :=
  match lookup k (fields doc) with
  | Some v => v
  | None =>
      match kind doc with
      | Plain => inherited proto k
      | Bare => VUndef
      | Root => rootMember k
      end
  end.

(** The setter of [__proto__], called on a plain object: it ignores a
    primitive value, and gives the object the prototype [null] or the
    object it is given. *)
Definition setPrototype (doc : Doc) (v : value) : result Doc :=
  match v with
  | VNull => Ok (mkDoc Bare (fields doc))
  | VProto => Ok doc
  | VObj _ | VArr _ | VFun _ | VBuiltin _ => Unmodelled
  | VUndef | VBool _ | VNum _ | VStr _ => Ok doc
  end.

(** [doc[k] = v].  An own property is overwritten.  Otherwise a property
    is created, unless the name reaches the setter of [__proto__]. *)
Definition assign (doc : Doc) (k : string) (v : value) : result Doc :=
  match lookup k (fields doc) with
  | Some _ => Ok (mkDoc (kind doc) (setProp k v (fields doc)))
  | None =>
      match kind doc with
      | Plain =>
          if k =? "__proto__" then setPrototype doc v
          else Ok (mkDoc Plain (setProp k v (fields doc)))
      | Bare => Ok (mkDoc Bare (setProp k v (fields doc)))
      | Root =>
          if (k =? "__proto__") || isBuiltinMember k then Unmodelled
          else Ok (mkDoc Root (setProp k v (fields doc)))
      end
  end.

(** [delete doc[k]] *)
Definition deleteField (doc : Doc) (k : string) : result Doc :=
  match lookup k (fields doc), kind doc with
  | None, Root =>
      if (k =? "__proto__") || isBuiltinMember k then Unmodelled else Ok doc
  | _, _ => Ok (mkDoc (kind doc) (deleteProp k (fields doc)))
  end.

(** ** structuredClone

    It throws on a function.  The copy of [Object.prototype] holds the
    properties added to it, which a value does not carry. *)

Fixpoint hasFunction (v : value) : bool :=
  match v with
  | VFun _ | VBuiltin _ => true
  | VArr l => existsb hasFunction l
  | VObj o => existsb (fun kv => hasFunction (snd kv)) o
  | _ => false
  end.

Fixpoint cloneable (v : value) : bool :=
  match v with
  | VFun _ | VBuiltin _ | VProto => false
  | VArr l => forallb cloneable l
  | VObj o => forallb (fun kv => cloneable (snd kv)) o
  | _ => true
  end.

Definition structuredClone (v : value) : result value :=
  if cloneable v then Ok v
  else if hasFunction v then Throw DataCloneError
  else Unmodelled.

(** [structuredClone(doc)]: a plain object with the own properties. *)
Definition cloneDoc (o : obj) : result obj :=
  c <- structuredClone (VObj o) ;;
  Ok o.

(** ** Host functions

    Three things the engine calls are supplied by the JavaScript host and
    not by this repository: calling a [$where] predicate on a document
    (the predicate sees the document and what it inherits),
    [new RegExp(pattern, "i").test(subject)], which throws a
    [SyntaxError] when the pattern is malformed, and [JSON.stringify] of a
    store.  A predicate is assumed not to modify the document it is
    given. *)

Record Host : Type := mkHost {
  callFn : nat -> obj -> Doc -> result value;
  regexpTest : string -> string -> result bool;
  stringify : DocMap -> string
}.

(** ** Query validator *)

Definition validateOperator (opKey : string) (opVal : value) : bool :=
  if opKey =? "$exists" then
    strictEq opVal (VBool true) || strictEq opVal (VBool false)
    || strictEq opVal (VNum 1) || strictEq opVal (VNum 0)
  else if (opKey =? "$lt") || (opKey =? "$lte")
          || (opKey =? "$gt") || (opKey =? "$gte") then
    jstype_eqb (typeof opVal) TNumber || jstype_eqb (typeof opVal) TString
  else if (opKey =? "$in") || (opKey =? "$nin") then
    isArray opVal
  else if (opKey =? "$includes") || (opKey =? "$eq") || (opKey =? "$ne") then
    true
  else if opKey =? "$like" then
    jstype_eqb (typeof opVal) TString
  else if opKey =? "$type" then
    jstype_eqb (typeof opVal) TString
  else
    false.

(** The operand of a field key: [Object.keys(qVal).every(opKey =>
    validateOperator(opKey, qVal[opKey]))], guarded by
    [typeof qVal === "object"]. *)
Definition validateOperand (qVal : value) : result bool :=
  if jstype_eqb (typeof qVal) TObject then
    es <- entries qVal ;;
    Ok (forallb (fun kv => validateOperator (fst kv) (snd kv)) es)
  else Ok true.

(** The loop runs over the own properties of the query, so [query[qName]]
    is the value paired with [qName]. *)
Fixpoint validateQuery (query : value) : result bool :=
  match query with
  | VObj props =>
      (fix loop (ps : list (string * value)) : result bool :=
         match ps with
         | [] => Ok true
         | (qName, qVal) :: rest =>
             if (qName =? "$and") || (qName =? "$or") then
               match qVal with
               | VArr items =>
                   ok <- (fix every (l : list value) : result bool :=
                            match l with
                            | [] => Ok true
                            | qry :: r =>
                                b <- validateQuery qry ;;
                                if b then every r else Ok false
                            end) items ;;
                   if ok then loop rest else Ok false
               | _ => Ok false
               end
             else if qName =? "$not" then
               b <- validateQuery qVal ;;
               if b then loop rest else Ok false
             else if qName =? "$where" then
               if jstype_eqb (typeof qVal) TFunction then loop rest
               else Ok false
             else
               b <- validateOperand qVal ;;
               if b then loop rest else Ok false
         end) props
  | VProto => Unmodelled
  | _ => Ok false
  end.

(** ** Operator library *)

Section Evaluation.

Variable host : Host.
Variable proto : obj.

Definition sameKind (docVal opVal : value) : bool :=
  (jstype_eqb (typeof docVal) TString && jstype_eqb (typeof opVal) TString)
  || (jstype_eqb (typeof docVal) TNumber && jstype_eqb (typeof opVal) TNumber).

(** [a < b] and [a <= b] when both are strings or both are numbers;
    strings compare by code units. *)
Definition lessThan (a b : value) : bool :=
  match a, b with
  | VStr x, VStr y => String.ltb x y
  | VNum x, VNum y => PrimFloat.ltb x y
  | _, _ => false
  end.

Definition lessEq (a b : value) : bool :=
  match a, b with
  | VStr x, VStr y => String.leb x y
  | VNum x, VNum y => PrimFloat.leb x y
  | _, _ => false
  end.

(** [opVal.includes(docVal)], the test of [$in] and [$nin].  An array
    compares its elements with the value.  A string converts the value to
    a string and searches for it; the model has the conversion of strings,
    booleans, [null] and [undefined].  On [null] and [undefined] the read
    of [includes] throws, and on every other operand the call throws
    unless the operand has or inherits a function under [includes]. *)
Definition includedIn (opVal docVal : value) : result bool :=
  match opVal with
  | VArr l => Ok (arrayIncludes l docVal)
  | VStr s =>
      match docVal with
      | VStr d => Ok (stringIncludes s d)
      | VUndef => Ok (stringIncludes s "undefined")
      | VNull => Ok (stringIncludes s "null")
      | VBool true => Ok (stringIncludes s "true")
      | VBool false => Ok (stringIncludes s "false")
      | _ => Unmodelled
      end
  | VUndef | VNull => Throw TypeError
  | VProto => Unmodelled
  | VObj o =>
      if jstype_eqb (typeof (getProp proto o "includes")) TFunction
      then Unmodelled else Throw TypeError
  | VBool _ | VNum _ | VFun _ | VBuiltin _ =>
      if jstype_eqb (typeof (inherited proto "includes")) TFunction
      then Unmodelled else Throw TypeError
  end.

Definition evalOperator (docVal : value) (opKey : string) (opVal : value)
  : result bool :=
  if opKey =? "$exists" then
    Ok (if truthy opVal then negb (isUndefined docVal) else isUndefined docVal)
  else if opKey =? "$lt" then
    Ok (sameKind docVal opVal && lessThan docVal opVal)
  else if opKey =? "$lte" then
    Ok (sameKind docVal opVal && lessEq docVal opVal)
  else if opKey =? "$gt" then
    Ok (sameKind docVal opVal && lessThan opVal docVal)
  else if opKey =? "$gte" then
    Ok (sameKind docVal opVal && lessEq opVal docVal)
  else if opKey =? "$in" then
    includedIn opVal docVal
  else if opKey =? "$includes" then
    match docVal with
    | VStr s =>
        match opVal with
        | VStr sub => Ok (stringIncludes s sub)
        | _ => Ok false
        end
    | VArr l => Ok (arrayIncludes l opVal)
    | _ => Ok false
    end
  else if opKey =? "$nin" then
    b <- includedIn opVal docVal ;;
    Ok (negb b)
  else if opKey =? "$eq" then
    Ok (strictEq docVal opVal)
  else if opKey =? "$ne" then
    Ok (negb (strictEq docVal opVal))
  else if opKey =? "$like" then
    match opVal, docVal with
    | VStr pattern, VStr subject => regexpTest host pattern subject
    | _, _ => Ok false
    end
  else if opKey =? "$type" then
    if strictEq opVal (VStr "array") then Ok (isArray docVal)
    else if strictEq opVal (VStr "null") then Ok (isNull docVal)
    else Ok (strictEq (VStr (typeName (typeof docVal))) opVal)
  else
    Ok false.

Fixpoint evalOperators (docVal : value) (ops : list (string * value))
  : result bool :=
  match ops with
  | [] => Ok true
  | (key, opVal) :: rest =>
      b <- evalOperator docVal key opVal ;;
      if b then evalOperators docVal rest else Ok false
  end.

Definition evalOperatorSet (docVal : value) (opSet : value) : result bool :=
  ops <- entries opSet ;;
  evalOperators docVal ops.

(** ** Query evaluator *)

(** The [default] branch of [evalQuery]'s switch. *)
Definition evalField (doc : Doc) (qName : string) (qVal : value)
  : result bool :=
  if jstype_eqb (typeof qVal) TObject then
    evalOperatorSet (getField proto doc qName) qVal
  else
    Ok (strictEq (getField proto doc qName) qVal).

Fixpoint evalFields (doc : Doc) (ps : list (string * value)) : result bool :=
  match ps with
  | [] => Ok true
  | (qName, qVal) :: rest =>
      b <- evalField doc qName qVal ;;
      if b then evalFields doc rest else Ok false
  end.

(** A query that is an array, a string or another primitive has only
    index keys (or none), so every key takes the [default] branch. *)
Definition evalIndexed (doc : Doc) (query : value) : result bool :=
  ps <- entries query ;;
  evalFields doc ps.

Fixpoint allOf (f : value -> result bool) (l : list value) : result bool :=
  match l with
  | [] => Ok true
  | q :: r => b <- f q ;; if b then allOf f r else Ok false
  end.

Fixpoint anyOf (f : value -> result bool) (l : list value) : result bool :=
  match l with
  | [] => Ok false
  | q :: r => b <- f q ;; if b then Ok true else anyOf f r
  end.

(** [qVal(doc)]: a function of the caller is called by the host; what a
    built-in method answers is not modelled; anything else is not
    callable. *)
Definition callPredicate (qVal : value) (doc : Doc) : result value :=
  match qVal with
  | VFun f => callFn host f proto doc
  | VBuiltin _ => Unmodelled
  | _ => Throw TypeError
  end.

Fixpoint evalQuery (doc : Doc) (query : value) : result bool :=
  match query with
  | VObj props =>
      (fix loop (ps : list (string * value)) : result bool :=
         match ps with
         | [] => Ok true
         | (qName, qVal) :: rest =>
             if qName =? "$and" then
               match qVal with
               | VArr items =>
                   ok <- (fix all (l : list value) : result bool :=
                            match l with
                            | [] => Ok true
                            | qRule :: r =>
                                b <- evalQuery doc qRule ;;
                                if b then all r else Ok false
                            end) items ;;
                   if ok then loop rest else Ok false
               | VStr s =>
                   ok <- allOf (evalIndexed doc) (chars s) ;;
                   if ok then loop rest else Ok false
               | _ => Throw TypeError
               end
             else if qName =? "$or" then
               match qVal with
               | VArr items =>
                   isMatch <- (fix any (l : list value) : result bool :=
                                 match l with
                                 | [] => Ok false
                                 | qRule :: r =>
                                     b <- evalQuery doc qRule ;;
                                     if b then Ok true else any r
                                 end) items ;;
                   if isMatch then loop rest else Ok false
               | VStr s =>
                   isMatch <- anyOf (evalIndexed doc) (chars s) ;;
                   if isMatch then loop rest else Ok false
               | _ => Throw TypeError
               end
             else if qName =? "$not" then
               b <- evalQuery doc qVal ;;
               if b then Ok false else loop rest
             else if qName =? "$where" then
               r <- callPredicate qVal doc ;;
               if truthy r then loop rest else Ok false
             else
               b <- evalField doc qName qVal ;;
               if b then loop rest else Ok false
         end) props
  | VUndef | VNull => Throw TypeError
  | _ => evalIndexed doc query
  end.

(** ** dbQuery and dbQueryOne *)

(** The scan [for (const id of Object.keys(db)) if (evalQuery(db[id],
    query)) ids.push(id)]: [db[id]] is the document paired with [id]. *)
Fixpoint scanQuery (db : DocMap) (query : value) : result (list string) :=
  match db with
  | [] => Ok []
  | (id, doc) :: rest =>
      m <- evalQuery doc query ;;
      ids <- scanQuery rest query ;;
      Ok (if m then id :: ids else ids)
  end.

Fixpoint scanQueryOne (db : DocMap) (query : value) : result string :=
  match db with
  | [] => Ok ""
  | (id, doc) :: rest =>
      m <- evalQuery doc query ;;
      if m then Ok id else scanQueryOne rest query
  end.

(** The test [db[id]] of the fast path and of [insertDocWithId]: a
    document is an object, hence truthy; for a name that is no key of the
    store, the test sees what the store inherits. *)
Definition hasDoc (db : DocMap) (id : string) : bool :=
  match lookup id db with
  | Some _ => true
  | None => truthy (inherited proto id)
  end.

Definition queryProps (query : value) : list (string * value) :=
  match query with
  | VObj props => props
  | _ => []
  end.

(** A query that [validateQuery] accepts is a plain object. *)
Definition dbQuery (db : DocMap) (query : value) : result (list string) :=
  valid <- validateQuery query ;;
  if negb valid then Ok []
  else
    let queryKeys := keys (queryProps query) in
    if Nat.eqb (List.length queryKeys) 0 then Ok (keys db)
    else
      match Nat.eqb (List.length queryKeys) 1,
            getProp proto (queryProps query) "_id" with
      | true, VStr id => Ok (if hasDoc db id then [id] else [])
      | _, _ => scanQuery db query
      end.

Definition dbQueryOne (db : DocMap) (query : value) : result string :=
  valid <- validateQuery query ;;
  if negb valid then Ok ""
  else
    let queryKeys := keys (queryProps query) in
    match Nat.eqb (List.length queryKeys) 1,
          getProp proto (queryProps query) "_id" with
    | true, VStr id => Ok (if hasDoc db id then id else "")
    | _, _ => scanQueryOne db query
    end.

(** ** Projection engine *)

(** [for (const key of projKeys) output[key] = structuredClone(doc[key])] *)
Fixpoint projectInclusive (doc : Doc) (projKeys : list string) (output : Doc)
  : result Doc :=
  match projKeys with
  | [] => Ok output
  | key :: rest =>
      c <- structuredClone (getField proto doc key) ;;
      output' <- assign output key c ;;
      projectInclusive doc rest output'
  end.

(** [for (const key of Object.keys(doc)) if (projection[key] === undefined)
    output[key] = structuredClone(doc[key])] *)
Fixpoint projectExclusive (doc : Doc) (projection : obj)
  (docKeys : list string) (output : Doc) : result Doc :=
  match docKeys with
  | [] => Ok output
  | key :: rest =>
      if isUndefined (getProp proto projection key) then
        c <- structuredClone (getField proto doc key) ;;
        output' <- assign output key c ;;
        projectExclusive doc projection rest output'
      else projectExclusive doc projection rest output
  end.

Definition inclusiveCount (projection : obj) : nat :=
  fold_left (fun sum kv => sum + (if truthy (snd kv) then 1 else 0))
            projection 0.

(** The object [output] as the value that is returned: a plain object,
    unless an assignment to [__proto__] has taken its prototype away. *)
Definition returned (output : Doc) : result value :=
  match kind output with
  | Plain => Ok (VObj (fields output))
  | _ => Unmodelled
  end.

(** The absent result ([return;]) is [VUndef]. *)
Definition dbProjection (doc : Doc) (projection : value) : result value :=
  if notPlainObject projection then Ok VUndef
  else
    match projection with
    | VObj props =>
        let projKeys := keys props in
        if Nat.eqb (List.length projKeys) 0 then
          c <- cloneDoc (fields doc) ;;
          Ok (VObj c)
        else
          let inclusiveKeysCount := inclusiveCount props in
          if (Nat.ltb 0 inclusiveKeysCount)
             && negb (Nat.eqb inclusiveKeysCount (List.length projKeys))
          then Ok VUndef
          else if Nat.ltb 0 inclusiveKeysCount then
            output <- projectInclusive doc projKeys (plain []) ;;
            returned output
          else
            output <- projectExclusive doc props (keys (fields doc))
                        (plain []) ;;
            returned output
    | _ => Unmodelled
    end.

(** ** Update engine *)

(** One iteration of a per-field loop: the document after it and whether it
    executed [numUpdated = 1].  An exception leaves the document as it
    was, since only [structuredClone] throws and it runs before the
    assignment. *)
Definition fieldStep : Type := Doc -> string -> value -> result (Doc * bool).

Definition incField : fieldStep := fun doc field delta =>
  match delta with
  | VNum d =>
      match getField proto doc field with
      | VNum x =>
          doc' <- assign doc field (VNum (x + d)%float) ;;
          Ok (doc', true)
      | VUndef =>
          doc' <- assign doc field (VNum d) ;;
          Ok (doc', true)
      | _ => Ok (doc, false)
      end
  | _ => Ok (doc, false)
  end.

(** [doc[field].push(...)] changes the array that the document holds; an
    array that the document inherits belongs to [Object.prototype]. *)
Definition pushField : fieldStep := fun doc field val =>
  match getField proto doc field with
  | VUndef =>
      c <- structuredClone val ;;
      doc' <- assign doc field (VArr [c]) ;;
      Ok (doc', true)
  | VArr items =>
      c <- structuredClone val ;;
      match lookup field (fields doc) with
      | Some _ =>
          Ok (mkDoc (kind doc) (setProp field (VArr (items ++ [c]))
                                  (fields doc)), true)
      | None => Unmodelled
      end
  | _ => Ok (doc, false)
  end.

Definition renameField : fieldStep := fun doc field newName =>
  if field =? "_id" then Ok (doc, false)
  else
    match newName with
    | VStr name =>
        if negb (isUndefined (getField proto doc name)) then Ok (doc, false)
        else if negb (isUndefined (getField proto doc field)) then
          c <- structuredClone (getField proto doc field) ;;
          doc1 <- assign doc name c ;;
          doc2 <- deleteField doc1 field ;;
          Ok (doc2, true)
        else Ok (doc, false)
    | _ => Ok (doc, false)
    end.

Definition setField : fieldStep := fun doc field val =>
  if field =? "_id" then Ok (doc, false)
  else
    c <- structuredClone val ;;
    doc' <- assign doc field c ;;
    Ok (doc', true).

Definition unsetField : fieldStep := fun doc field flag =>
  if field =? "_id" then Ok (doc, false)
  else if negb (isUndefined (getField proto doc field)) && truthy flag then
    doc' <- deleteField doc field ;;
    Ok (doc', true)
  else Ok (doc, false).

(** The [switch (operator)] of [dbUpdate]; [None] is its [default]. *)
Definition operatorStep (operator : string) : option fieldStep :=
  if operator =? "$inc" then Some incField
  else if operator =? "$push" then Some pushField
  else if operator =? "$rename" then Some renameField
  else if operator =? "$set" then Some setField
  else if operator =? "$unset" then Some unsetField
  else None.

(** [for (const [field, x] of Object.entries(operand)) ...], threading the
    document and the local [numUpdated]. *)
Fixpoint applyFields (step : fieldStep) (doc : Doc) (numUpdated : nat)
  (es : list (string * value)) : Doc * result nat :=
  match es with
  | [] => (doc, Ok numUpdated)
  | (field, x) :: rest =>
      match step doc field x with
      | Ok (doc', changed) =>
          applyFields step doc' (if changed then 1 else numUpdated) rest
      | Throw e => (doc, Throw e)
      | Unmodelled => (doc, Unmodelled)
      end
  end.

(** [for (const operator of operators) ...] *)
Fixpoint applyOperators (doc : Doc) (numUpdated : nat)
  (ops : list (string * value)) : Doc * result nat :=
  match ops with
  | [] => (doc, Ok numUpdated)
  | (operator, operand) :: rest =>
      match operatorStep operator with
      | Some step =>
          match entries operand with
          | Ok es =>
              match applyFields step doc numUpdated es with
              | (doc', Ok n) => applyOperators doc' n rest
              | (doc', r) => (doc', r)
              end
          | Throw e => (doc, Throw e)
          | Unmodelled => (doc, Unmodelled)
          end
      | None => applyOperators doc numUpdated rest
      end
  end.

(** [dbUpdate] mutates [doc] in place: the result pairs the document as it
    is left with the returned flag or the exception that escaped. *)
Definition dbUpdate (doc : Doc) (update : value) : Doc * result nat :=
  if notPlainObject update then (doc, Ok 0)
  else
    match update with
    | VObj operators =>
        if Nat.eqb (List.length (keys operators)) 0 then (doc, Ok 0)
        else applyOperators doc 0 operators
    | _ => (doc, Unmodelled)
    end.

End Evaluation.

(** ** Id generator *)

Definition alphabet : string :=
  "abcdefghijklmnopqrstuvwxyzABCDEFGHIJKLMNOPQRSTUVWXYZ0123456789_".

(** [alphabet[k]] followed by [join("")]: an undefined element joins as the
    empty string. *)
Definition alphabetAt (k : nat) : string :=
  match String.get k alphabet with
  | Some c => String c EmptyString
  | None => EmptyString
  end.

Section IdGenerator.

(** [draw n] is [Math.floor(Math.random() * alphabet.length)] at the
    [n]-th call of [Math.random] since the program started. *)
Variable draw : nat -> nat.

Variable proto : obj.

(** [uid(len)] when [drawn] random numbers were consumed before. *)
Fixpoint uid (len : nat) (drawn : nat) : string :=
  match len with
  | 0 => EmptyString
  | S len' => alphabetAt (draw drawn) ++ uid len' (S drawn)
  end.

(** The test [db[id] === undefined] of [makeId]: it fails for a key of the
    store and for a name under which the store inherits something. *)
Definition isFree (db : DocMap) (id : string) : bool :=
  match lookup id db with
  | Some _ => false
  | None => isUndefined (inherited proto id)
  end.

(** [makeId] retries without bound; [fuel] bounds the number of attempts
    and [None] stands for an unfinished search. *)
Fixpoint makeId (fuel : nat) (db : DocMap) (drawn : nat)
  : option (string * nat) :=
  match fuel with
  | 0 => None
  | S fuel' =>
      let id := uid 16 drawn in
      if isFree db id then Some (id, drawn + 16)
      else makeId fuel' db (drawn + 16)
  end.

(** ** Insertion *)

(** Called by [dbInsert] only, with a plain object whose [_id] reads as a
    string.  Where [db[id]] is falsy, [id] is no key of the store and not
    [__proto__], so the assignment creates the property. *)
Definition insertDocWithId (db : DocMap) (doc : obj)
  : DocMap * result string :=
  match getProp proto doc "_id" with
  | VStr id =>
      if hasDoc proto db id then (db, Ok "")
      else
        match cloneDoc doc with
        | Ok c => (setProp id (plain c) db, Ok id)
        | Throw e => (db, Throw e)
        | Unmodelled => (db, Unmodelled)
        end
  | _ => (db, Unmodelled)
  end.

(** [db[id] = structuredClone(doc); db[id]._id = id] *)
Definition insertDoc (fuel : nat) (db : DocMap) (drawn : nat) (doc : obj)
  : option (DocMap * nat * result string) :=
  match makeId fuel db drawn with
  | None => None
  | Some (id, drawn') =>
      match cloneDoc doc with
      | Ok c =>
          Some (setProp id (plain (setProp "_id" (VStr id) c)) db,
                drawn', Ok id)
      | Throw e => Some (db, drawn', Throw e)
      | Unmodelled => Some (db, drawn', Unmodelled)
      end
  end.

(** [typeof doc._id === "string" && doc._id.length > 0] *)
Definition hasExplicitId (doc : obj) : bool :=
  match getProp proto doc "_id" with
  | VStr id => Nat.ltb 0 (String.length id)
  | _ => false
  end.

Definition dbInsert (fuel : nat) (db : DocMap) (drawn : nat) (doc : value)
  : option (DocMap * nat * result string) :=
  if notPlainObject doc then Some (db, drawn, Ok "")
  else
    match doc with
    | VObj d =>
        if hasExplicitId d then
          let (db', r) := insertDocWithId db d in Some (db', drawn, r)
        else insertDoc fuel db drawn d
    | _ => Some (db, drawn, Unmodelled)
    end.

End IdGenerator.

(** ** The collection: [JsonDB]

    [docMap] is the field of the class.  [objProto] lists the properties
    that have been added to [Object.prototype].  [written] logs the texts
    that [save] hands to the file writer, latest first, and [drawn] counts
    the calls of [Math.random] so far. *)

Record State : Type := mkState {
  docMap : DocMap;
  objProto : obj;
  written : list string;
  drawn : nat
}.

Definition withDocMap (st : State) (db : DocMap) : State :=
  mkState db (objProto st) (written st) (drawn st).

(** [this.docMap[id]] as a document: the one stored under [id]; for the id
    [__proto__], when the store has no such key, the object
    [Object.prototype].  Every other name that is no key gives a built-in
    function or a value held by [Object.prototype]. *)
Definition docAt (db : DocMap) (proto : obj) (id : string) : result Doc :=
  match lookup id db with
  | Some doc => Ok doc
  | None => if id =? "__proto__" then Ok (mkDoc Root proto) else Unmodelled
  end.

Module JsonDB.

Section Methods.

Variable host : Host.
Variable draw : nat -> nat.

Definition save (st : State) : State :=
  mkState (docMap st) (objProto st)
          (stringify host (docMap st) :: written st) (drawn st).

Definition count (st : State) (query : value) : result nat :=
  ids <- dbQuery host (objProto st) (docMap st) query ;;
  Ok (List.length ids).

(** The default parameter [projection = {}]. *)
Definition orEmpty (projection : value) : value :=
  if isUndefined projection then VObj [] else projection.

(** [ids.map((id) => dbProjection(this.docMap[id], projection))] *)
Fixpoint projectAll (db : DocMap) (proto : obj) (projection : value)
  (ids : list string) : result (list value) :=
  match ids with
  | [] => Ok []
  | id :: rest =>
      doc <- docAt db proto id ;;
      d <- dbProjection proto doc projection ;;
      ds <- projectAll db proto projection rest ;;
      Ok (d :: ds)
  end.

Definition find (st : State) (query projection : value)
  : result (list value) :=
  ids <- dbQuery host (objProto st) (docMap st) query ;;
  projectAll (docMap st) (objProto st) (orEmpty projection) ids.

Definition findOne (st : State) (query projection : value) : result value :=
  id <- dbQueryOne host (objProto st) (docMap st) query ;;
  if id =? "" then Ok VUndef
  else
    doc <- docAt (docMap st) (objProto st) id ;;
    dbProjection (objProto st) doc (orEmpty projection).

Definition insert (fuel : nat) (st : State) (doc options : value)
  : option (State * result string) :=
  match dbInsert draw (objProto st) fuel (docMap st) (drawn st) doc with
  | None => None
  | Some (db', drawn', r) =>
      let st' := mkState db' (objProto st) (written st) drawn' in
      match r with
      | Ok id =>
          if negb (id =? "")
             && negb (truthy (optProp (objProto st) options "skipSave"))
          then Some (save st', Ok id)
          else Some (st', Ok id)
      | _ => Some (st', r)
      end
  end.

(** [for (const id of ids) delete this.docMap[id]] *)
Definition deleteAll (db : DocMap) (ids : list string) : DocMap :=
  fold_left (fun acc id => deleteProp id acc) ids db.

Definition remove (st : State) (query options : value)
  : State * result nat :=
  match dbQuery host (objProto st) (docMap st) query with
  | Ok ids =>
      if Nat.eqb (List.length ids) 0 then (st, Ok 0)
      else if Nat.ltb 1 (List.length ids)
              && negb (truthy (optProp (objProto st) options "multi"))
      then (st, Ok 0)
      else
        let st' := withDocMap st (deleteAll (docMap st) ids) in
        let st'' :=
          if negb (truthy (optProp (objProto st) options "skipSave"))
          then save st' else st' in
        (st'', Ok (List.length ids))
  | Throw e => (st, Throw e)
  | Unmodelled => (st, Unmodelled)
  end.

(** [for (const id of ids) numUpdated += dbUpdate(this.docMap[id], update)];
    a document is mutated in place, so it keeps its position.  For the id
    [__proto__] that is no key of the store, the engine runs on
    [Object.prototype] and what it adds there is inherited from then on. *)
Fixpoint updateEach (db : DocMap) (proto : obj) (update : value)
  (ids : list string) (numUpdated : nat) : DocMap * obj * result nat :=
  match ids with
  | [] => (db, proto, Ok numUpdated)
  | id :: rest =>
      match lookup id db with
      | Some doc =>
          let (doc', r) := dbUpdate proto doc update in
          let db' := setProp id doc' db in
          match r with
          | Ok n => updateEach db' proto update rest (numUpdated + n)
          | _ => (db', proto, r)
          end
      | None =>
          if id =? "__proto__" then
            let (doc', r) := dbUpdate proto (mkDoc Root proto) update in
            match r with
            | Ok n =>
                updateEach db (fields doc') update rest (numUpdated + n)
            | _ => (db, fields doc', r)
            end
          else (db, proto, Unmodelled)
      end
  end.

Definition update (st : State) (query upd options : value)
  : State * result nat :=
  match dbQuery host (objProto st) (docMap st) query with
  | Ok ids =>
      if Nat.eqb (List.length ids) 0 then (st, Ok 0)
      else if Nat.ltb 1 (List.length ids)
              && negb (truthy (optProp (objProto st) options "multi"))
      then (st, Ok 0)
      else
        match updateEach (docMap st) (objProto st) upd ids 0 with
        | (db', proto', r) =>
            let st' := mkState db' proto' (written st) (drawn st) in
            match r with
            | Ok numUpdated =>
                if Nat.ltb 0 numUpdated
                   && negb (truthy (optProp proto' options "skipSave"))
                then (save st', Ok numUpdated)
                else (st', Ok numUpdated)
            | _ => (st', r)
            end
        end
  | Throw e => (st, Throw e)
  | Unmodelled => (st, Unmodelled)
  end.

End Methods.

End JsonDB.

(** ** The registry of open databases: [initDb], [getDb], [closeDb]

    [dbDir] and [dbHolder] are the two module variables of [lib/db.js].
    The file system belongs to the host: [files dir base] tells what
    [existsSync], [readFileSync] and [JSON.parse] make of the file
    [join(dir, base)].  A file that can be read and parsed is taken to hold
    a store.  The writer is asynchronous and outside the model, which only
    logs the texts handed to it. *)

Inductive FileState : Type :=
| NoFile
| Unreadable
| Snapshot (db : DocMap).

Record World : Type := mkWorld {
  dbDir : string;
  dbHolder : list (string * DocMap);
  worldProto : obj;
  snapshots : list string;
  draws : nat
}.

(** [dbName.endsWith(".json") ? dbName.slice(0, -5) : dbName]: the walk
    stops at the suffix of length 5, if that suffix is [".json"]. *)
Fixpoint stripJson (dbName : string) : string :=
  if dbName =? ".json" then EmptyString
  else
    match dbName with
    | EmptyString => EmptyString
    | String c rest => String c (stripJson rest)
    end.

(** What [getDb] does: it throws an [Error] with a message, or returns a
    [JsonDB] on the entry of [dbHolder] of that name, or, for a name under
    which [dbHolder] inherits something truthy, a [JsonDB] on that
    member. *)
Inductive Opened : Type :=
| Refused (message : string)
| Store (name : string) (db : DocMap)
| Foreign (name : string).

Module Registry.

Section Files.

Variable files : string -> string -> FileState.

Definition initDb (w : World) (dirPath : string) : World :=
  mkWorld dirPath (dbHolder w) (worldProto w) (snapshots w) (draws w).

Definition getDb (w : World) (dbName : string) : World * Opened :=
  if dbDir w =? "" then (w, Refused "Database directory is not set")
  else
    let name := stripJson dbName in
    match lookup name (dbHolder w) with
    | Some db => (w, Store name db)
    | None =>
        if truthy (inherited (worldProto w) name) then (w, Foreign name)
        else
          match files (dbDir w) (name ++ ".json") with
          | NoFile => (w, Refused "Database not found")
          | Unreadable => (w, Refused "Database read failed")
          | Snapshot db =>
              (mkWorld (dbDir w) (setProp name db (dbHolder w))
                       (worldProto w) (snapshots w) (draws w),
               Store name db)
          end
    end.

(** [if (dbHolder[name]) delete dbHolder[name]]: the deletion removes an
    entry and does nothing for an inherited name. *)
Definition closeDb (w : World) (name : string) : World :=
  match lookup name (dbHolder w) with
  | Some _ =>
      mkWorld (dbDir w) (deleteProp name (dbHolder w)) (worldProto w)
              (snapshots w) (draws w)
  | None => w
  end.

End Files.

End Registry.

(** ** The action layer: [lib/api.mjs]

    A request is described by what its fields read: [reqQuery] is the
    value of [req.query], and so on; [actionName] is a string, as the type
    of a request declares.  A response is [{status, err, data}].  What the
    engine or a predicate throws is an [Error] object, and [messageOf]
    gives its [message]. *)

Record ApiReq : Type := mkReq {
  reqDbName : value;
  reqActionName : string;
  reqQuery : value;
  reqUpdate : value;
  reqProjection : value;
  reqDoc : value;
  reqOptions : value
}.

Inductive ApiData : Type :=
| DataNull
| DataNumber (n : nat)
| DataString (s : string)
| DataValue (v : value)
| DataList (docs : list value).

Record ApiRes : Type := mkRes {
  status : nat;
  err : option string;
  data : ApiData
}.

(** [typeof v !== "object" || v === null] *)
Definition notObjectLike (v : value) : bool :=
  negb (jstype_eqb (typeof v) TObject) || isNull v.

Module Api.

Section Actions.

Variable host : Host.
Variable draw : nat -> nat.
Variable files : string -> string -> FileState.
Variable messageOf : exn -> string.

Definition badRequest (message : string) (d : ApiData) : ApiRes :=
  mkRes 400 (Some message) d.

Definition failure (message : string) (d : ApiData) : ApiRes :=
  mkRes 500 (Some message) d.

Definition success (d : ApiData) : ApiRes := mkRes 200 None d.

(** The state on which the methods of the [JsonDB] returned by [getDb]
    run, and the world after they ran: the store is the entry of
    [dbHolder], mutated in place. *)
Definition stateOf (w : World) (db : DocMap) : State :=
  mkState db (worldProto w) (snapshots w) (draws w).

Definition worldOf (w : World) (name : string) (st : State) : World :=
  mkWorld (dbDir w) (setProp name (docMap st) (dbHolder w))
          (objProto st) (written st) (drawn st).

(** The [try] block of an action: [getDb], then the method; an [Error]
    that either throws is answered with status 500 and its message. *)
Definition answer {A : Type} (w : World) (r : result A)
  (ok : A -> ApiData) (none : ApiData) : World * result ApiRes :=
  match r with
  | Ok a => (w, Ok (success (ok a)))
  | Throw e => (w, Ok (failure (messageOf e) none))
  | Unmodelled => (w, Unmodelled)
  end.

Definition countAction (w : World) (req : ApiReq) : World * result ApiRes :=
  match reqDbName req with
  | VStr dbName =>
      if notObjectLike (reqQuery req) then
        (w, Ok (badRequest "Invalid query provided" (DataNumber 0)))
      else
        match Registry.getDb files w dbName with
        | (w1, Refused message) => (w1, Ok (failure message (DataNumber 0)))
        | (w1, Store name db) =>
            answer w1 (JsonDB.count host (stateOf w1 db) (reqQuery req))
                   DataNumber (DataNumber 0)
        | (w1, Foreign _) => (w1, Unmodelled)
        end
  | _ => (w, Ok (badRequest "Invalid dbName provided" (DataNumber 0)))
  end.

Definition findAction (w : World) (req : ApiReq) : World * result ApiRes :=
  match reqDbName req with
  | VStr dbName =>
      if notObjectLike (reqQuery req) then
        (w, Ok (badRequest "Invalid query provided" (DataList [])))
      else if notObjectLike (reqProjection req) then
        (w, Ok (badRequest "Invalid projection provided" (DataList [])))
      else
        match Registry.getDb files w dbName with
        | (w1, Refused message) => (w1, Ok (failure message (DataList [])))
        | (w1, Store name db) =>
            answer w1 (JsonDB.find host (stateOf w1 db) (reqQuery req)
                         (reqProjection req))
                   DataList (DataList [])
        | (w1, Foreign _) => (w1, Unmodelled)
        end
  | _ => (w, Ok (badRequest "Invalid dbName provided" (DataList [])))
  end.

Definition findOneAction (w : World) (req : ApiReq)
  : World * result ApiRes :=
  match reqDbName req with
  | VStr dbName =>
      if notObjectLike (reqQuery req) then
        (w, Ok (badRequest "Invalid query provided" DataNull))
      else if notObjectLike (reqProjection req) then
        (w, Ok (badRequest "Invalid projection provided" DataNull))
      else
        match Registry.getDb files w dbName with
        | (w1, Refused message) => (w1, Ok (failure message DataNull))
        | (w1, Store name db) =>
            answer w1 (JsonDB.findOne host (stateOf w1 db) (reqQuery req)
                         (reqProjection req))
                   DataValue DataNull
        | (w1, Foreign _) => (w1, Unmodelled)
        end
  | _ => (w, Ok (badRequest "Invalid dbName provided" DataNull))
  end.

(** The test on [options] is written
    [typeof options !== "object" && options === null]. *)
Definition insertAction (fuel : nat) (w : World) (req : ApiReq)
  : option (World * result ApiRes) :=
  match reqDbName req with
  | VStr dbName =>
      if notObjectLike (reqDoc req) then
        Some (w, Ok (badRequest "Invalid doc provided" DataNull))
      else if negb (jstype_eqb (typeof (reqOptions req)) TObject)
              && isNull (reqOptions req) then
        Some (w, Ok (badRequest "Invalid options provided" DataNull))
      else
        match Registry.getDb files w dbName with
        | (w1, Refused message) => Some (w1, Ok (failure message DataNull))
        | (w1, Store name db) =>
            match JsonDB.insert host draw fuel (stateOf w1 db) (reqDoc req)
                    (reqOptions req) with
            | None => None
            | Some (st, r) =>
                Some (answer (worldOf w1 name st) r DataString DataNull)
            end
        | (w1, Foreign _) => Some (w1, Unmodelled)
        end
  | _ => Some (w, Ok (badRequest "Invalid dbName provided" DataNull))
  end.

Definition removeAction (w : World) (req : ApiReq) : World * result ApiRes :=
  match reqDbName req with
  | VStr dbName =>
      if notObjectLike (reqQuery req) then
        (w, Ok (badRequest "Invalid query provided" (DataNumber 0)))
      else if notObjectLike (reqOptions req) then
        (w, Ok (badRequest "Invalid options provided" (DataNumber 0)))
      else
        match Registry.getDb files w dbName with
        | (w1, Refused message) => (w1, Ok (failure message (DataNumber 0)))
        | (w1, Store name db) =>
            let (st, r) := JsonDB.remove host (stateOf w1 db) (reqQuery req)
                             (reqOptions req) in
            answer (worldOf w1 name st) r DataNumber (DataNumber 0)
        | (w1, Foreign _) => (w1, Unmodelled)
        end
  | _ => (w, Ok (badRequest "Invalid dbName provided" (DataNumber 0)))
  end.

(** A malformed [update] is reported with the message of the options. *)
Definition updateAction (w : World) (req : ApiReq) : World * result ApiRes :=
  match reqDbName req with
  | VStr dbName =>
      if notObjectLike (reqQuery req) then
        (w, Ok (badRequest "Invalid query provided" (DataNumber 0)))
      else if notObjectLike (reqUpdate req) then
        (w, Ok (badRequest "Invalid options provided" (DataNumber 0)))
      else if notObjectLike (reqOptions req) then
        (w, Ok (badRequest "Invalid options provided" (DataNumber 0)))
      else
        match Registry.getDb files w dbName with
        | (w1, Refused message) => (w1, Ok (failure message (DataNumber 0)))
        | (w1, Store name db) =>
            let (st, r) := JsonDB.update host (stateOf w1 db) (reqQuery req)
                             (reqUpdate req) (reqOptions req) in
            answer (worldOf w1 name st) r DataNumber (DataNumber 0)
        | (w1, Foreign _) => (w1, Unmodelled)
        end
  | _ => (w, Ok (badRequest "Invalid dbName provided" (DataNumber 0)))
  end.

Definition saveAction (w : World) (req : ApiReq) : World * result ApiRes :=
  match reqDbName req with
  | VStr dbName =>
      match Registry.getDb files w dbName with
      | (w1, Refused message) => (w1, Ok (failure message (DataNumber 0)))
      | (w1, Store name db) =>
          (worldOf w1 name (JsonDB.save host (stateOf w1 db)),
           Ok (success (DataNumber 1)))
      | (w1, Foreign _) => (w1, Unmodelled)
      end
  | _ => (w, Ok (badRequest "Invalid dbName provided" (DataNumber 0)))
  end.

(** [routActionMap[req.actionName]] and the call of what is found there.
    The map has seven entries.  Under any other name it inherits from
    [Object.prototype]: nothing or a falsy value, and the name is refused;
    a built-in method, which is then called with the request; or another
    truthy value, and the call throws.  [None] stands for an [insert]
    whose id search is unfinished. *)
Definition callDbAction (fuel : nat) (w : World) (req : ApiReq)
  : option (World * result ApiRes) :=
  let name := reqActionName req in
  if name =? "count" then Some (countAction w req)
  else if name =? "find" then Some (findAction w req)
  else if name =? "findOne" then Some (findOneAction w req)
  else if name =? "insert" then insertAction fuel w req
  else if name =? "remove" then Some (removeAction w req)
  else if name =? "update" then Some (updateAction w req)
  else if name =? "save" then Some (saveAction w req)
  else
    let member := inherited (worldProto w) name in
    if truthy member then
      if jstype_eqb (typeof member) TFunction then Some (w, Unmodelled)
      else Some (w, Throw TypeError)
    else
      Some (w, Ok (badRequest ("Invalid actionName: " ++ name) DataNull)).

End Actions.

End Api.

(** ** A concrete host and the store of the end-to-end scenario *)

(** ASCII lower-casing and the test for letters and digits. *)
Definition lowerChar (c : ascii) : ascii :=
  let n := nat_of_ascii c in
  if (Nat.leb 65 n) && (Nat.leb n 90) then ascii_of_nat (n + 32) else c.

Fixpoint lower (s : string) : string :=
  match s with
  | EmptyString => EmptyString
  | String c r => String (lowerChar c) (lower r)
  end.

Definition isAlnum (c : ascii) : bool :=
  let n := nat_of_ascii c in
  ((Nat.leb 48 n) && (Nat.leb n 57))
  || ((Nat.leb 65 n) && (Nat.leb n 90))
  || ((Nat.leb 97 n) && (Nat.leb n 122)).

Fixpoint allAlnum (s : string) : bool :=
  match s with
  | EmptyString => true
  | String c r => isAlnum c && allAlnum r
  end.

(** The text of a string in JSON: quoted, with the quote, the backslash
    and the control characters escaped. *)
Definition quoteMark : string := String (ascii_of_nat 34) EmptyString.

Definition backslash : string := String (ascii_of_nat 92) EmptyString.

Definition hexChar (n : nat) : ascii :=
  match String.get n "0123456789abcdef" with
  | Some c => c
  | None => "0"%char
  end.

Definition escapeUnit (c : ascii) : string :=
  let n := nat_of_ascii c in
  if Nat.eqb n 34 then backslash ++ quoteMark
  else if Nat.eqb n 92 then backslash ++ backslash
  else if Nat.eqb n 8 then backslash ++ "b"
  else if Nat.eqb n 9 then backslash ++ "t"
  else if Nat.eqb n 10 then backslash ++ "n"
  else if Nat.eqb n 12 then backslash ++ "f"
  else if Nat.eqb n 13 then backslash ++ "r"
  else if Nat.ltb n 32 then
    backslash ++ "u00"
    ++ String (hexChar (n / 16)) (String (hexChar (n mod 16)) EmptyString)
  else String c EmptyString.

Fixpoint escapeUnits (s : string) : string :=
  match s with
  | EmptyString => EmptyString
  | String c r => escapeUnit c ++ escapeUnits r
  end.

Definition quoteJson (s : string) : string :=
  quoteMark ++ escapeUnits s ++ quoteMark.

(** The integer that a number is, if it is one. *)
Definition integerOf (x : float) : option Z :=
  match Prim2SF x with
  | S754_zero _ => Some 0%Z
  | S754_finite s m e =>
      let sign := if s then (-1)%Z else 1%Z in
      if Z.leb 0 e then Some (sign * Z.pos m * 2 ^ e)%Z
      else
        let d := (2 ^ (- e))%Z in
        if Z.eqb (Z.pos m mod d) 0 then Some (sign * (Z.pos m / d))%Z
        else None
  | _ => None
  end.

Definition decimal (z : Z) : string :=
  ((if Z.ltb z 0 then "-" else "")
   ++ NilEmpty.string_of_uint (N.to_uint (Z.abs_N z)))%string.

(** The text of a number in JSON, for the integers up to 2^53 in absolute
    value, for [NaN] and for the infinities, which print as [null]. *)
Definition numberText (x : float) : string :=
  match integerOf x with
  | Some z => if Z.leb (Z.abs z) 9007199254740992 then decimal z else "null"
  | None => "null"
  end.

Fixpoint joinTexts (texts : list string) : string :=
  match texts with
  | [] => EmptyString
  | [t] => t
  | t :: r => t ++ "," ++ joinTexts r
  end.

(** The text of a value in JSON; [None] for [undefined] and for a
    function, which an object leaves out and an array prints as [null]. *)
Fixpoint jsonText (v : value) : option string :=
  match v with
  | VUndef | VFun _ | VBuiltin _ => None
  | VNull => Some "null"
  | VBool true => Some "true"
  | VBool false => Some "false"
  | VNum x => Some (numberText x)
  | VStr s => Some (quoteJson s)
  | VArr l =>
      Some ("[" ++ joinTexts
                     (map (fun x => match jsonText x with
                                    | Some t => t
                                    | None => "null"
                                    end) l) ++ "]")%string
  | VObj o =>
      Some ("{" ++ joinTexts
                     (flat_map (fun kv => match jsonText (snd kv) with
                                          | Some t =>
                                              [(quoteJson (fst kv) ++ ":"
                                                ++ t)%string]
                                          | None => []
                                          end) o) ++ "}")%string
  | VProto => Some "{}"
  end.

Definition memberText (kv : string * Doc) : string :=
  (quoteJson (fst kv) ++ ":"
   ++ match jsonText (VObj (fields (snd kv))) with
      | Some t => t
      | None => "null"
      end)%string.

Definition storeText (db : DocMap) : string :=
  ("{" ++ joinTexts (map memberText db) ++ "}")%string.

(** A host on which the engine can be run.  Its predicates all answer
    [true].  Its pattern matcher agrees with JavaScript on the patterns
    used below: a pattern made of letters and digits matches when it
    occurs in the subject, compared case-insensitively, and the pattern
    ["("] is refused as malformed.  It refuses every pattern that is not
    made of letters and digits, and is used on no other one.  Its
    [stringify] agrees with [JSON.stringify] on the stores used below,
    whose numbers are integers and whose documents hold data. *)
Definition literalHost : Host :=
  mkHost (fun _ _ _ => Ok (VBool true))
         (fun pattern subject =>
            if allAlnum pattern
            then Ok (stringIncludes (lower subject) (lower pattern))
            else Throw SyntaxError)
         storeText.

Definition testStore : DocMap :=
  [ ("1", plain [("_id", VStr "1"); ("name", VStr "foo"); ("val", VNum 1)]);
    ("2", plain [("_id", VStr "2"); ("name", VStr "bar"); ("val", VNum 2)]);
    ("3", plain [("_id", VStr "3"); ("name", VStr "baz"); ("val", VNum 3)]) ].

(** ** Vocabulary of the properties *)

(** The query [{_id: i}]. *)
Definition idQuery (i : string) : value := VObj [("_id", VStr i)].

Definition isCombinator (qName : string) : bool :=
  (qName =? "$and") || (qName =? "$or") || (qName =? "$not")
  || (qName =? "$where").

(** The store invariant: every document is stored under its own [_id],
    a non-empty string. *)
Definition idInvariant (db : DocMap) : Prop :=
  Forall (fun kv => fst kv <> "" /\
                    lookup "_id" (fields (snd kv)) = Some (VStr (fst kv))) db.


(** A sub-operation of an update as [dbUpdate] comes to it: the operator,
    the document as it stands then, the field and the operand. *)
Record Attempt : Type := mkAttempt {
  attemptOperator : string;
  attemptDoc : Doc;
  attemptField : string;
  attemptOperand : value
}.

(** When a sub-operation succeeds, in the words of the table of update
    operators of the specification: [$inc] needs a numeric delta and a
    field that is absent or numeric; [$push] a field that is absent or an
    array; [$rename] a field other than [_id] that exists and a new name
    that is a string and does not exist; [$set] a field other than [_id];
    [$unset] a field other than [_id] that exists and a truthy flag.  A
    field is absent when it reads [undefined]. *)
Definition succeeds (proto : obj) (a : Attempt) : bool :=
  let operator := attemptOperator a in
  let current := getField proto (attemptDoc a) (attemptField a) in
  let x := attemptOperand a in
  if operator =? "$inc" then
    jstype_eqb (typeof x) TNumber
    && (isUndefined current || jstype_eqb (typeof current) TNumber)
  else if operator =? "$push" then
    isUndefined current || isArray current
  else if operator =? "$rename" then
    negb (attemptField a =? "_id")
    && match x with
       | VStr name => isUndefined (getField proto (attemptDoc a) name)
       | _ => false
       end
    && negb (isUndefined current)
  else if operator =? "$set" then
    negb (attemptField a =? "_id")
  else if operator =? "$unset" then
    negb (attemptField a =? "_id") && negb (isUndefined current) && truthy x
  else false.

(** The sub-operations that [dbUpdate] comes to, in order. *)
Fixpoint fieldAttempts (operator : string) (step : fieldStep) (doc : Doc)
  (es : list (string * value)) : list Attempt :=
  match es with
  | [] => []
  | (field, x) :: rest =>
      mkAttempt operator doc field x ::
      match step doc field x with
      | Ok (doc', _) => fieldAttempts operator step doc' rest
      | _ => []
      end
  end.

(** The update operators of the specification; any other top-level key
    of an update is ignored and contributes no sub-operation. *)
Definition updateOperators : list string :=
  ["$inc"; "$push"; "$rename"; "$set"; "$unset"].

Definition isUpdateOperator (operator : string) : bool :=
  existsb (String.eqb operator) updateOperators.

Fixpoint operatorAttempts (proto : obj) (doc : Doc)
  (ops : list (string * value)) : list Attempt :=
  match ops with
  | [] => []
  | (operator, operand) :: rest =>
      if isUpdateOperator operator then
        match operatorStep proto operator, entries operand with
        | Some step, Ok es =>
            fieldAttempts operator step doc es ++
            match applyFields step doc 0 es with
            | (doc', Ok _) => operatorAttempts proto doc' rest
            | _ => []
            end
        | _, _ => []
        end
      else operatorAttempts proto doc rest
  end.

Definition subOperations (proto : obj) (doc : Doc) (update : value)
  : list Attempt :=
  match update with
  | VObj operators => operatorAttempts proto doc operators
  | _ => []
  end.

(** The document stored under [id] is one on which a sub-operation of the
    update succeeds. *)
Definition changedBy (proto : obj) (db : DocMap) (update : value)
  (id : string) : bool :=
  match lookup id db with
  | Some doc => existsb (succeeds proto) (subOperations proto doc update)
  | None => false
  end.

(** The operations of the collection and the states they lead to, whether
    they return or throw; a run ends where the model does. *)
Inductive Op : Type :=
| OpInsert (fuel : nat) (doc options : value)
| OpRemove (query options : value)
| OpUpdate (query upd options : value).

Definition settled {A : Type} (st : State) (r : result A) : option State :=
  match r with
  | Unmodelled => None
  | _ => Some st
  end.

Definition exec (host : Host) (draw : nat -> nat) (op : Op) (st : State)
  : option State :=
  match op with
  | OpInsert fuel doc options =>
      match JsonDB.insert host draw fuel st doc options with
      | Some (st', r) => settled st' r
      | None => None
      end
  | OpRemove query options =>
      let (st', r) := JsonDB.remove host st query options in settled st' r
  | OpUpdate query upd options =>
      let (st', r) := JsonDB.update host st query upd options in settled st' r
  end.

Inductive reachable (host : Host) (draw : nat -> nat) (st : State)
  : State -> Prop :=
| reach_init : reachable host draw st st
| reach_step op st' st'' :
    reachable host draw st st' ->
    exec host draw op st' = Some st'' ->
    reachable host draw st st''.

(** An update that gives its target the field [_id]: [$set] may not, but
    it may set [x], which [$rename] then moves to [_id] where the target
    has no [_id]. *)
Definition idSmuggle : value :=
  VObj [("$set", VObj [("x", VStr "evil")]);
        ("$rename", VObj [("x", VStr "_id")])].

(** ** The loops of the validator and of the evaluator, named

    [validateQuery] and [evalQuery] run three loops each: over the keys of
    the query and over the elements of a [$and] or [$or] array.  The
    functions below are these loops written as functions of their own;
    [validateQuery_obj] and [evalQuery_obj] show that they are the loops of
    the two functions. *)

Fixpoint everyValid (l : list value) : result bool :=
  match l with
  | [] => Ok true
  | qry :: r => b <- validateQuery qry ;; if b then everyValid r else Ok false
  end.

Fixpoint validateProps (ps : list (string * value)) : result bool :=
  match ps with
  | [] => Ok true
  | (qName, qVal) :: rest =>
      if (qName =? "$and") || (qName =? "$or") then
        match qVal with
        | VArr items =>
            ok <- everyValid items ;;
            if ok then validateProps rest else Ok false
        | _ => Ok false
        end
      else if qName =? "$not" then
        b <- validateQuery qVal ;;
        if b then validateProps rest else Ok false
      else if qName =? "$where" then
        if jstype_eqb (typeof qVal) TFunction then validateProps rest
        else Ok false
      else
        b <- validateOperand qVal ;;
        if b then validateProps rest else Ok false
  end.

Fixpoint evalProps (host : Host) (proto : obj) (doc : Doc)
  (ps : list (string * value)) : result bool :=
  match ps with
  | [] => Ok true
  | (qName, qVal) :: rest =>
      if qName =? "$and" then
        match qVal with
        | VArr items =>
            ok <- allOf (evalQuery host proto doc) items ;;
            if ok then evalProps host proto doc rest else Ok false
        | VStr s =>
            ok <- allOf (evalIndexed host proto doc) (chars s) ;;
            if ok then evalProps host proto doc rest else Ok false
        | _ => Throw TypeError
        end
      else if qName =? "$or" then
        match qVal with
        | VArr items =>
            isMatch <- anyOf (evalQuery host proto doc) items ;;
            if isMatch then evalProps host proto doc rest else Ok false
        | VStr s =>
            isMatch <- anyOf (evalIndexed host proto doc) (chars s) ;;
            if isMatch then evalProps host proto doc rest else Ok false
        | _ => Throw TypeError
        end
      else if qName =? "$not" then
        b <- evalQuery host proto doc qVal ;;
        if b then Ok false else evalProps host proto doc rest
      else if qName =? "$where" then
        r <- callPredicate host proto qVal doc ;;
        if truthy r then evalProps host proto doc rest else Ok false
      else
        b <- evalField host proto doc qName qVal ;;
        if b then evalProps host proto doc rest else Ok false
  end.

(** The values that a query pairs with the key [key], at any depth. *)
Fixpoint operandsOf (key : string) (v : value) : list value :=
  match v with
  | VArr l => flat_map (operandsOf key) l
  | VObj o =>
      flat_map (fun kv =>
                  (if fst kv =? key then [snd kv] else [])
                  ++ operandsOf key (snd kv)) o
  | _ => []
  end.

(** The host answers for a query: each function that the query gives to
    [$where] is a function of the caller that returns on every document,
    and each string that it gives to [$like] is a pattern that the matcher
    accepts. *)
Definition answersFor (host : Host) (proto : obj) (query : value) : Prop :=
  (forall f, In (VFun f) (operandsOf "$where" query) ->
     forall doc, exists v, callFn host f proto doc = Ok v) /\
  (forall name, ~ In (VBuiltin name) (operandsOf "$where" query)) /\
  (forall pattern, In (VStr pattern) (operandsOf "$like" query) ->
     forall subject, exists b, regexpTest host pattern subject = Ok b).

(** A query that evaluates against every document once the validator has
    accepted it; and the same for the elements of an array, which is what
    [$and] and [$or] need. *)
Definition evaluates (host : Host) (proto : obj) (query : value) : Prop :=
  answersFor host proto query ->
  validateQuery query = Ok true ->
  forall doc, exists b, evalQuery host proto doc query = Ok b.

Definition evaluatesDeep (host : Host) (proto : obj) (query : value)
  : Prop :=
  evaluates host proto query /\
  (forall items, query = VArr items -> Forall (evaluates host proto) items).

(** The document matches the query: [evalQuery] returns [true]. *)
Definition matches (host : Host) (proto : obj) (query : value) (doc : Doc)
  : bool :=
  match evalQuery host proto doc query with
  | Ok true => true
  | _ => false
  end.

(** The query [{$not: q}] and the negation of each element of a list. *)
Definition notQuery (q : value) : value := VObj [("$not", q)].

Definition negateAll (items : list value) : list value := map notQuery items.

(** A document that holds data only: [structuredClone] copies it. *)
Definition isData (doc : Doc) : bool := cloneable (VObj (fields doc)).

(** The properties [kvs] assigned to the object [o], one after the
    other. *)
Definition assignAll (kvs : list (string * value)) (o : obj) : obj :=
  fold_left (fun acc kv => setProp (fst kv) (snd kv) acc) kvs o.

(** The fields of a document that an exclusive projection keeps: those
    for which [projection[key]] is [undefined]. *)
Definition keptBy (proto : obj) (projection : obj) (kv : string * value)
  : bool :=
  isUndefined (getProp proto projection (fst kv)).

(** The properties that an inclusive projection assigns: each listed key
    with what the document reads under it. *)
Definition readAll (proto : obj) (doc : Doc) (projKeys : list string)
  : list (string * value) :=
  map (fun key => (key, getField proto doc key)) projKeys.

(** A sub-operation that reports no change leaves the document as it
    was. *)
Definition skipsCleanly (step : fieldStep) : Prop :=
  forall doc field x doc',
    step doc field x = Ok (doc', false) -> doc' = doc.

(** What an action answers: success without an error, a refusal with
    status 400 that has not reached the registry, or a failure. *)
Definition wellFormed (w w' : World) (res : ApiRes) : Prop :=
  (status res = 200 /\ err res = None) \/
  (status res = 400 /\ err res <> None /\ w' = w) \/
  (status res = 500 /\ err res <> None).

(** The keys of [routActionMap]. *)
Definition actionNames : list string :=
  ["count"; "find"; "findOne"; "insert"; "remove"; "update"; "save"].

(** A sub-operation that leaves the own [_id] of a document as it is. *)
Definition keepsId (step : fieldStep) : Prop :=
  forall doc field x doc' changed id,
    lookup "_id" (fields doc) = Some (VStr id) ->
    step doc field x = Ok (doc', changed) ->
    lookup "_id" (fields doc') = Some (VStr id).

(** * Properties *)

(** ** Own-property lemmas *)

Section OwnProperties.

Context {A : Type}.
Implicit Types (o : list (string * A)) (k : string) (v : A).

Lemma lookup_some_in k v o : lookup k o = Some v -> In (k, v) o.
Proof.
  induction o as [|[k' v'] r IH]; simpl; [discriminate|].
  destruct (k =? k') eqn:E; intros H.
  - apply String.eqb_eq in E. inversion H. subst. now left.
  - right. auto.
Qed.

Lemma lookup_none_iff k o : lookup k o = None <-> ~ In k (keys o).
Proof.
  induction o as [|[k' v'] r IH]; simpl; [tauto|].
  destruct (k =? k') eqn:E.
  - apply String.eqb_eq in E. subst. split; [discriminate|]. tauto.
  - apply String.eqb_neq in E. rewrite IH. split.
    + intros H [H'|H']; [congruence | tauto].
    + tauto.
Qed.

Lemma lookup_app_fresh k v o :
  lookup k o = None -> lookup k (o ++ [(k, v)]) = Some v.
Proof.
  induction o as [|[k' v'] r IH]; simpl.
  - now rewrite String.eqb_refl.
  - destruct (k =? k'); [discriminate | auto].
Qed.

Lemma lookup_app_other k k' v o :
  k <> k' -> lookup k' (o ++ [(k, v)]) = lookup k' o.
Proof.
  intros Hne. induction o as [|[k0 v0] r IH]; simpl.
  - destruct (String.eqb_spec k' k); congruence.
  - now rewrite IH.
Qed.

Lemma lookup_replaceProp_same k v o :
  lookup k (replaceProp k v o) = match lookup k o with
                                 | Some _ => Some v
                                 | None => None
                                 end.
Proof.
  induction o as [|[k' v'] r IH]; simpl; auto.
  destruct (k =? k') eqn:E; simpl; rewrite E; auto.
Qed.

Lemma lookup_replaceProp_other k k' v o :
  k <> k' -> lookup k' (replaceProp k v o) = lookup k' o.
Proof.
  intros Hne. induction o as [|[k0 v0] r IH]; simpl; auto.
  destruct (String.eqb_spec k k0) as [->|Hk]; simpl.
  - destruct (String.eqb_spec k' k0); congruence.
  - now rewrite IH.
Qed.

Lemma keys_replaceProp k v o : keys (replaceProp k v o) = keys o.
Proof.
  induction o as [|[k' v'] r IH]; simpl; auto.
  destruct (k =? k'); simpl; congruence.
Qed.

Lemma replaceProp_absent k v o : lookup k o = None -> replaceProp k v o = o.
Proof.
  induction o as [|[k' v'] r IH]; simpl; auto.
  destruct (k =? k'); [discriminate|]. intros H. now rewrite IH.
Qed.


Lemma replaceProp_same k v o : lookup k o = Some v -> replaceProp k v o = o.
Proof.
  induction o as [|[k' v'] r IH]; simpl; [discriminate|].
  destruct (String.eqb_spec k k') as [->|Hne].
  - now intros [= ->].
  - intros H. now rewrite IH.
Qed.

Lemma lookup_insertIndex_same n k v o :
  lookup k o = None -> lookup k (insertIndex n k v o) = Some v.
Proof.
  induction o as [|[k' v'] r IH]; simpl.
  - now rewrite String.eqb_refl.
  - destruct (k =? k') eqn:E; [discriminate|]. intros H.
    destruct (arrayIndex k'); [destruct (N.ltb n n0)|];
      simpl; rewrite ?String.eqb_refl, ?E; auto.
Qed.

Lemma lookup_insertIndex_other n k k' v o :
  k <> k' -> lookup k' (insertIndex n k v o) = lookup k' o.
Proof.
  intros Hne. assert (Hk : (k' =? k) = false) by (apply String.eqb_neq; auto).
  induction o as [|[k0 v0] r IH]; simpl.
  - now rewrite Hk.
  - destruct (arrayIndex k0); [destruct (N.ltb n n0)|];
      simpl; rewrite ?Hk; auto.
    now rewrite IH.
Qed.

Lemma deleteProp_insertIndex n k v o :
  lookup k o = None -> deleteProp k (insertIndex n k v o) = o.
Proof.
  assert (Hdel : forall o', lookup k o' = None -> deleteProp k o' = o').
  { induction o' as [|[k' v'] r IH]; simpl; auto.
    destruct (k =? k'); [discriminate|]. intros H. now rewrite IH. }
  induction o as [|[k' v'] r IH]; simpl.
  - now rewrite String.eqb_refl.
  - destruct (k =? k') eqn:E; [discriminate|]. intros H.
    destruct (arrayIndex k'); [destruct (N.ltb n n0)|];
      simpl; rewrite ?String.eqb_refl, ?E; simpl; rewrite ?E;
      try (now rewrite Hdel); now rewrite IH.
Qed.

Lemma in_keys_insertIndex n k v o k' :
  In k' (keys (insertIndex n k v o)) <-> k' = k \/ In k' (keys o).
Proof.
  induction o as [|[k0 v0] r IH]; simpl.
  - intuition.
  - destruct (arrayIndex k0); [destruct (N.ltb n n0)|]; simpl;
      rewrite ?IH; intuition.
Qed.

Lemma lookup_setProp_same k v o : lookup k (setProp k v o) = Some v.
Proof.
  unfold setProp. destruct (lookup k o) eqn:E.
  - now rewrite lookup_replaceProp_same, E.
  - destruct (arrayIndex k).
    + now apply lookup_insertIndex_same.
    + now apply lookup_app_fresh.
Qed.

Lemma lookup_setProp_other k k' v o :
  k <> k' -> lookup k' (setProp k v o) = lookup k' o.
Proof.
  intros Hne. unfold setProp. destruct (lookup k o).
  - now apply lookup_replaceProp_other.
  - destruct (arrayIndex k).
    + now apply lookup_insertIndex_other.
    + now apply lookup_app_other.
Qed.

Lemma lookup_deleteProp_same k o : lookup k (deleteProp k o) = None.
Proof.
  induction o as [|[k' v'] r IH]; simpl; auto.
  destruct (k =? k') eqn:E; simpl; auto. now rewrite E.
Qed.

Lemma lookup_deleteProp_other k k' o :
  k <> k' -> lookup k' (deleteProp k o) = lookup k' o.
Proof.
  intros Hne. induction o as [|[k0 v0] r IH]; simpl; auto.
  destruct (k =? k0) eqn:E; simpl.
  - apply String.eqb_eq in E. subst k0.
    destruct (k' =? k) eqn:E'; auto.
    apply String.eqb_eq in E'. congruence.
  - now rewrite IH.
Qed.

Lemma deleteProp_absent k o : lookup k o = None -> deleteProp k o = o.
Proof.
  induction o as [|[k' v'] r IH]; simpl; auto.
  destruct (k =? k'); [discriminate|]. intros H. now rewrite IH.
Qed.

Lemma deleteProp_last k v o :
  lookup k o = None -> deleteProp k (o ++ [(k, v)]) = o.
Proof.
  induction o as [|[k' v'] r IH]; simpl.
  - now rewrite String.eqb_refl.
  - destruct (k =? k'); [discriminate|]. intros H. now rewrite IH.
Qed.

(** Creating a property and deleting it again leaves the object as it
    was, wherever the property had been placed. *)
Lemma deleteProp_setProp_fresh k v o :
  lookup k o = None -> deleteProp k (setProp k v o) = o.
Proof.
  intros H. unfold setProp. rewrite H. destruct (arrayIndex k).
  - now apply deleteProp_insertIndex.
  - now apply deleteProp_last.
Qed.


Lemma setProp_same k v o : lookup k o = Some v -> setProp k v o = o.
Proof.
  intros H. unfold setProp. rewrite H. now apply replaceProp_same.
Qed.

Lemma setProp_present k v o x :
  lookup k o = Some x -> setProp k v o = replaceProp k v o.
Proof. intros H. unfold setProp. now rewrite H. Qed.

Lemma setProp_fresh k v o :
  lookup k o = None -> arrayIndex k = None -> setProp k v o = o ++ [(k, v)].
Proof. intros H Hi. unfold setProp. now rewrite H, Hi. Qed.

Lemma keys_setProp_present k v o x :
  lookup k o = Some x -> keys (setProp k v o) = keys o.
Proof.
  intros H. rewrite (setProp_present _ _ _ _ H). apply keys_replaceProp.
Qed.

Lemma in_keys_setProp k v o k' :
  In k' (keys (setProp k v o)) <-> k' = k \/ In k' (keys o).
Proof.
  unfold setProp. destruct (lookup k o) eqn:E.
  - rewrite keys_replaceProp. split; [tauto|].
    intros [->|H]; auto.
    apply lookup_some_in in E. unfold keys. apply in_map_iff.
    now exists (k, a).
  - destruct (arrayIndex k).
    + apply in_keys_insertIndex.
    + unfold keys. rewrite map_app, in_app_iff. simpl. intuition.
Qed.

Lemma Forall_replaceProp (P : string * A -> Prop) k v o :
  Forall P o -> P (k, v) -> Forall P (replaceProp k v o).
Proof.
  intros HF Hp. induction HF as [|[k' v'] r HP HF IH]; simpl; auto.
  destruct (String.eqb_spec k k') as [->|Hne]; constructor; auto.
Qed.

Lemma Forall_insertIndex (P : string * A -> Prop) n k v o :
  Forall P o -> P (k, v) -> Forall P (insertIndex n k v o).
Proof.
  intros HF Hp. induction HF as [|[k' v'] r HP HF IH]; simpl; auto.
  destruct (arrayIndex k'); [destruct (N.ltb n n0)|]; auto.
Qed.

Lemma Forall_setProp (P : string * A -> Prop) k v o :
  Forall P o -> P (k, v) -> Forall P (setProp k v o).
Proof.
  intros HF Hp. unfold setProp. destruct (lookup k o).
  - now apply Forall_replaceProp.
  - destruct (arrayIndex k).
    + now apply Forall_insertIndex.
    + apply Forall_app. auto.
Qed.

Lemma Forall_deleteProp (P : string * A -> Prop) k o :
  Forall P o -> Forall P (deleteProp k o).
Proof.
  induction 1 as [|[k' v'] r HP HF IH]; simpl; auto.
  destruct (k =? k'); auto.
Qed.

Lemma in_deleteProp k o (x : string * A) :
  In x (deleteProp k o) -> In x o.
Proof.
  induction o as [|[k' v'] r IH]; simpl; auto.
  destruct (k =? k'); simpl; intuition.
Qed.

Lemma in_keys_lookup k o : In k (keys o) <-> exists v, lookup k o = Some v.
Proof.
  destruct (lookup k o) eqn:E.
  - split; [eauto|]. intros _. apply lookup_some_in in E.
    unfold keys. apply in_map_iff. now exists (k, a).
  - apply lookup_none_iff in E. split; [tauto|]. intros [v Hv]. discriminate.
Qed.

End OwnProperties.

(** ** Induction on values *)

Lemma value_induction (P : value -> Prop) :
  P VUndef -> P VNull ->
  (forall b, P (VBool b)) ->
  (forall x, P (VNum x)) ->
  (forall s, P (VStr s)) ->
  (forall items, Forall P items -> P (VArr items)) ->
  (forall props, Forall (fun kv => P (snd kv)) props -> P (VObj props)) ->
  (forall f, P (VFun f)) ->
  (forall name, P (VBuiltin name)) ->
  P VProto ->
  forall v, P v.
Proof.
  intros Hu Hn Hb Hx Hs Ha Ho Hf Hm Hp.
  fix IH 1. intros [| |b|x|s|items|props|f|name|].
  - exact Hu.
  - exact Hn.
  - apply Hb.
  - apply Hx.
  - apply Hs.
  - apply Ha. induction items as [|v r IHr]; constructor.
    + apply IH.
    + exact IHr.
  - apply Ho. induction props as [|[k v] r IHr]; constructor.
    + apply IH.
    + exact IHr.
  - apply Hf.
  - apply Hm.
  - exact Hp.
Qed.

Lemma hasFunction_not_cloneable v :
  hasFunction v = true -> cloneable v = false.
Proof.
  induction v as [| | | | |items IH|props IH| | |] using value_induction;
    cbn [hasFunction cloneable]; try discriminate; try reflexivity.
  - induction IH as [|x r Hx _ IHr]; cbn [existsb forallb]; [discriminate|].
    intros H. apply orb_prop in H as [H|H].
    + now rewrite (Hx H).
    + rewrite (IHr H). apply andb_false_r.
  - induction IH as [|x r Hx _ IHr]; cbn [existsb forallb]; [discriminate|].
    intros H. apply orb_prop in H as [H|H].
    + now rewrite (Hx H).
    + rewrite (IHr H). apply andb_false_r.
Qed.

Lemma structuredClone_data v : cloneable v = true -> structuredClone v = Ok v.
Proof. intros H. unfold structuredClone. now rewrite H. Qed.

Lemma structuredClone_function v :
  hasFunction v = true -> structuredClone v = Throw DataCloneError.
Proof.
  intros H. unfold structuredClone.
  now rewrite (hasFunction_not_cloneable v H), H.
Qed.

Lemma structuredClone_ok v c : structuredClone v = Ok c -> c = v /\ cloneable v = true.
Proof.
  unfold structuredClone. destruct (cloneable v); [now intros [= <-]|].
  destruct (hasFunction v); discriminate.
Qed.
Example storeText_example :
  storeText [("1", plain [("_id", VStr "1"); ("val", VNum 1)])]
  = ("{" ++ quoteMark ++ "1" ++ quoteMark ++ ":{"
     ++ quoteMark ++ "_id" ++ quoteMark ++ ":" ++ quoteMark ++ "1" ++ quoteMark
     ++ "," ++ quoteMark ++ "val" ++ quoteMark ++ ":1}}")%string.
Proof. reflexivity. Qed.

Lemma getProp_own proto (o : obj) k v :
  lookup k o = Some v -> getProp proto o k = v.
Proof. intros H. unfold getProp. now rewrite H. Qed.

Lemma getField_own proto doc k v :
  lookup k (fields doc) = Some v -> getField proto doc k = v.
Proof. intros H. unfold getField. now rewrite H. Qed.

Lemma getField_plain proto (o : obj) k :
  getField proto (plain o) k = getProp proto o k.
Proof. reflexivity. Qed.

Lemma doc_eta doc : mkDoc (kind doc) (fields doc) = doc.
Proof. now destruct doc. Qed.

Lemma state_eta st :
  mkState (docMap st) (objProto st) (written st) (drawn st) = st.
Proof. now destruct st. Qed.

(** ** Malformed queries *)

Lemma validateQuery_not_object query :
  notPlainObject query = true -> validateQuery query = Ok false.
Proof. destruct query; simpl; intros H; try reflexivity; discriminate. Qed.

(** A query that is not a plain object is recovered: no id, no exception. *)
Lemma dbQuery_not_object host proto db query :
  notPlainObject query = true ->
  dbQuery host proto db query = Ok [] /\
  dbQueryOne host proto db query = Ok "".
Proof.
  intros H. unfold dbQuery, dbQueryOne.
  rewrite (validateQuery_not_object query H). now split.
Qed.

Lemma evalOperator_like host proto subject pattern :
  evalOperator host proto (VStr subject) "$like" (VStr pattern)
  = regexpTest host pattern subject.
Proof. reflexivity. Qed.

(** With a single key, when [query._id] does not read as a string,
    [dbQuery] validates and then scans. *)
Lemma dbQuery_single_key host proto db field qVal :
  (forall s, getProp proto [(field, qVal)] "_id" <> VStr s) ->
  dbQuery host proto db (VObj [(field, qVal)])
  = (valid <- validateQuery (VObj [(field, qVal)]) ;;
     if valid then scanQuery host proto db (VObj [(field, qVal)]) else Ok []).
Proof.
  intros Hns. unfold dbQuery.
  destruct (validateQuery (VObj [(field, qVal)])) as [[|]|e|];
    try reflexivity.
  cbn [bind negb queryProps keys map List.length Nat.eqb].
  destruct (getProp proto [(field, qVal)] "_id") eqn:E; try reflexivity.
  now elim (Hns s).
Qed.

Lemma validateQuery_field field qVal :
  isCombinator field = false ->
  validateQuery (VObj [(field, qVal)]) = validateOperand qVal.
Proof.
  unfold isCombinator. intros H. apply orb_false_elim in H as [H Hw].
  apply orb_false_elim in H as [H Hn].
  apply orb_false_elim in H as [Ha Ho].
  cbn [validateQuery]. rewrite Ha, Ho, Hn, Hw. cbn [orb].
  destruct (validateOperand qVal) as [[|]| |]; reflexivity.
Qed.

Lemma evalQuery_field host proto doc field qVal :
  isCombinator field = false ->
  evalQuery host proto doc (VObj [(field, qVal)])
  = evalField host proto doc field qVal.
Proof.
  unfold isCombinator. intros H. apply orb_false_elim in H as [H Hw].
  apply orb_false_elim in H as [H Hn].
  apply orb_false_elim in H as [Ha Ho].
  cbn [evalQuery]. rewrite Ha, Ho, Hn, Hw.
  destruct (evalField host proto doc field qVal) as [[|]| |]; reflexivity.
Qed.

(** A [$like] pattern that the host refuses to compile escapes from
    [dbQuery] as soon as the first document holds a string in that
    field. *)
Lemma dbQuery_like_malformed host proto id doc rest field subject pattern :
  isCombinator field = false ->
  (forall s, getProp proto [(field, VObj [("$like", VStr pattern)])] "_id"
             <> VStr s) ->
  getField proto doc field = VStr subject ->
  regexpTest host pattern subject = Throw SyntaxError ->
  dbQuery host proto ((id, doc) :: rest)
    (VObj [(field, VObj [("$like", VStr pattern)])])
  = Throw SyntaxError.
Proof.
  intros H Hid Hget Hre.
  rewrite dbQuery_single_key by assumption.
  rewrite validateQuery_field by assumption.
  cbn [validateOperand typeof jstype_eqb entries bind forallb fst snd].
  change (validateOperator "$like" (VStr pattern)) with true.
  cbn [andb scanQuery]. rewrite evalQuery_field by assumption.
  unfold evalField, evalOperatorSet.
  cbn [typeof jstype_eqb entries bind evalOperators].
  rewrite Hget, evalOperator_like, Hre. reflexivity.
Qed.

(** A non-empty array as field operand is rejected by the validator, since
    its index keys are not operators. *)
Lemma dbQuery_array_operand host proto db field x items :
  isCombinator field = false ->
  (forall s, getProp proto [(field, VArr (x :: items))] "_id" <> VStr s) ->
  dbQuery host proto db (VObj [(field, VArr (x :: items))]) = Ok [].
Proof.
  intros H Hid. rewrite dbQuery_single_key by assumption.
  rewrite validateQuery_field by assumption. reflexivity.
Qed.

(** C1 (the code departs from it): the query [{name: null}] makes
    [dbQuery], [dbQueryOne], [count], [find] and [findOne] throw a
    [TypeError] for every store and every projection, because
    [validateQuery] calls [Object.keys] on the [null] operand.  The query
    operations therefore do raise an exception on a malformed query. *)
Theorem null_operand_query_throws (host : Host) (st : State)
  (projection : value) :
  let query := VObj [("name", VNull)] in
  dbQuery host (objProto st) (docMap st) query = Throw TypeError /\
  dbQueryOne host (objProto st) (docMap st) query = Throw TypeError /\
  JsonDB.count host st query = Throw TypeError /\
  JsonDB.find host st query projection = Throw TypeError /\
  JsonDB.findOne host st query projection = Throw TypeError.
Proof. repeat split; reflexivity. Qed.

(** ** The [$type] operator *)

Lemma type_operator_array host proto docVal :
  evalOperator host proto docVal "$type" (VStr "array") = Ok (isArray docVal).
Proof. reflexivity. Qed.

Lemma type_operator_null host proto docVal :
  evalOperator host proto docVal "$type" (VStr "null") = Ok (isNull docVal).
Proof. reflexivity. Qed.

(** C3 (the code departs from it): [$type] with operand ["object"] is true
    for every array and for [null], because the operand falls through to
    [typeof docVal === opVal]; an array thus matches both ["array"] and
    ["object"], and [null] both ["null"] and ["object"]. *)
Theorem type_object_matches_array_and_null (host : Host) (proto : obj)
  (items : list value) :
  evalOperator host proto (VArr items) "$type" (VStr "object") = Ok true /\
  evalOperator host proto VNull "$type" (VStr "object") = Ok true /\
  evalOperator host proto (VArr items) "$type" (VStr "array") = Ok true /\
  evalOperator host proto VNull "$type" (VStr "null") = Ok true /\
  dbQuery host [] [("1", plain [("_id", VStr "1"); ("vals", VArr items)])]
    (VObj [("vals", VObj [("$type", VStr "object")])]) = Ok ["1"].
Proof. repeat split; reflexivity. Qed.

(** ** [$set] *)






(** ** Queries by [_id] *)

Section IdQuery.

Variable host : Host.
Variable proto : obj.
Variable i : string.

Lemma validateQuery_id : validateQuery (idQuery i) = Ok true.
Proof. reflexivity. Qed.

Lemma evalQuery_id doc :
  evalQuery host proto doc (idQuery i)
  = Ok (strictEq (getField proto doc "_id") (VStr i)).
Proof.
  unfold idQuery. rewrite evalQuery_field by reflexivity. reflexivity.
Qed.

Lemma dbQuery_id db :
  dbQuery host proto db (idQuery i)
  = Ok (if hasDoc proto db i then [i] else []).
Proof. reflexivity. Qed.

Lemma dbQueryOne_id db :
  dbQueryOne host proto db (idQuery i)
  = Ok (if hasDoc proto db i then i else "").
Proof. reflexivity. Qed.

Lemma evalQuery_id_stored id doc :
  lookup "_id" (fields doc) = Some (VStr id) ->
  evalQuery host proto doc (idQuery i) = Ok (id =? i).
Proof.
  intros H. rewrite evalQuery_id, (getField_own _ _ _ _ H). reflexivity.
Qed.

Lemma scanQuery_id db :
  idInvariant db ->
  scanQuery host proto db (idQuery i)
  = Ok (filter (fun id => id =? i) (keys db)).
Proof.
  induction 1 as [|[id doc] rest [_ Hid] _ IH]; [reflexivity|].
  cbn [scanQuery keys map filter fst].
  cbn [snd fst] in Hid. rewrite (evalQuery_id_stored id doc Hid).
  cbn [bind]. rewrite IH. reflexivity.
Qed.

Lemma scanQueryOne_id db :
  idInvariant db ->
  scanQueryOne host proto db (idQuery i)
  = Ok (hd "" (filter (fun id => id =? i) (keys db))).
Proof.
  induction 1 as [|[id doc] rest [_ Hid] _ IH]; [reflexivity|].
  cbn [scanQueryOne keys map filter fst].
  cbn [snd fst] in Hid. rewrite (evalQuery_id_stored id doc Hid).
  cbn [bind]. destruct (id =? i); [reflexivity|exact IH].
Qed.

Lemma filter_key_absent (db : DocMap) :
  lookup i db = None -> filter (fun id => id =? i) (keys db) = [].
Proof.
  induction db as [|[id doc] rest IH]; [reflexivity|].
  cbn [lookup keys map fst filter]. rewrite (String.eqb_sym i id).
  destruct (id =? i); [discriminate|exact IH].
Qed.

Lemma filter_key_present (db : DocMap) doc :
  NoDup (keys db) -> lookup i db = Some doc ->
  filter (fun id => id =? i) (keys db) = [i].
Proof.
  induction db as [|[id d] rest IH]; [discriminate|].
  cbn [lookup keys map fst filter]. rewrite (String.eqb_sym i id).
  intros Hnd. inversion Hnd as [|? ? Hnot Hnd']; subst.
  destruct (String.eqb_spec id i) as [->|Hne].
  - intros _. f_equal. apply filter_key_absent.
    now apply lookup_none_iff.
  - now apply IH.
Qed.

End IdQuery.

(** C2 (the code departs from it): for an id [i] that is no key of the
    store but the name of something that the store inherits from
    [Object.prototype], such as [constructor], the direct lookup taken by
    [dbQuery] and [dbQueryOne] answers [i], since it tests [db[i]], while
    the query [{_id: i}] matches no stored document and the scan of all
    documents returns nothing.  The lookup and the evaluation then
    disagree, and the query selects an id that is no key. *)
Theorem id_query_lookup_sees_inherited_names (host : Host) (proto : obj)
  (db : DocMap) (i : string) :
  idInvariant db ->
  lookup i db = None ->
  truthy (inherited proto i) = true ->
  let query := idQuery i in
  (forall id doc, In (id, doc) db ->
     evalQuery host proto doc query = Ok false) /\
  scanQuery host proto db query = Ok [] /\
  scanQueryOne host proto db query = Ok "" /\
  dbQuery host proto db query = Ok [i] /\
  dbQueryOne host proto db query = Ok i /\
  ~ In i (keys db).
Proof.
  intros Hinv Hnone Hinh query. unfold query.
  assert (Hhas : hasDoc proto db i = true)
    by (unfold hasDoc; now rewrite Hnone).
  repeat split.
  - intros id doc Hin.
    unfold idInvariant in Hinv. rewrite Forall_forall in Hinv.
    destruct (Hinv _ Hin) as [_ Hid]. cbn [fst snd] in Hid.
    rewrite (evalQuery_id_stored host proto i id doc Hid). f_equal.
    apply String.eqb_neq. intros ->.
    apply lookup_none_iff in Hnone. apply Hnone.
    unfold keys. apply in_map_iff. now exists (i, doc).
  - rewrite scanQuery_id by assumption. now rewrite filter_key_absent.
  - rewrite scanQueryOne_id by assumption. now rewrite filter_key_absent.
  - now rewrite dbQuery_id, Hhas.
  - now rewrite dbQueryOne_id, Hhas.
  - now apply lookup_none_iff.
Qed.

Lemma id_query_lookup_sees_inherited_names_witness :
  scanQuery literalHost [] testStore (idQuery "constructor") = Ok [] /\
  dbQuery literalHost [] testStore (idQuery "constructor")
  = Ok ["constructor"].
Proof.
  destruct (id_query_lookup_sees_inherited_names literalHost [] testStore
              "constructor") as (_ & Hscan & _ & Hfast & _).
  - repeat constructor; cbn; discriminate.
  - reflexivity.
  - reflexivity.
  - split; assumption.
Defined.

(** For every other id the lookup and the scan agree: the ids that are
    keys of the store, and the names under which the store inherits
    nothing truthy. *)
Lemma id_query_lookup_agrees_with_scan (host : Host) (proto : obj)
  (db : DocMap) (i : string) :
  NoDup (keys db) ->
  idInvariant db ->
  (lookup i db = None -> truthy (inherited proto i) = false) ->
  dbQuery host proto db (idQuery i) = scanQuery host proto db (idQuery i) /\
  dbQueryOne host proto db (idQuery i)
  = scanQueryOne host proto db (idQuery i) /\
  (hasDoc proto db i = true <-> In i (keys db)).
Proof.
  intros Hnd Hinv Hown.
  rewrite dbQuery_id, dbQueryOne_id, scanQuery_id, scanQueryOne_id
    by assumption.
  unfold hasDoc. destruct (lookup i db) as [doc|] eqn:E.
  - rewrite (filter_key_present i db doc Hnd E). repeat split; auto.
    intros _. apply in_keys_lookup. eauto.
  - rewrite (filter_key_absent i db E), (Hown eq_refl).
    repeat split; try discriminate.
    intros H. apply lookup_none_iff in E. contradiction.
Qed.

(** ** [remove] *)

Lemma lookup_deleteAll_in (db : DocMap) ids id :
  In id ids -> lookup id (JsonDB.deleteAll db ids) = None.
Proof.
  unfold JsonDB.deleteAll. revert db.
  induction ids as [|k r IH]; intros db; [intros []|].
  cbn [fold_left]. intros [->|Hin]; [|now apply IH].
  clear IH. generalize (lookup_deleteProp_same id db).
  generalize (deleteProp id db). induction r as [|k r IH]; intros d Hd.
  - exact Hd.
  - cbn [fold_left]. apply IH. destruct (String.eqb_spec k id) as [->|Hne].
    + apply lookup_deleteProp_same.
    + now rewrite lookup_deleteProp_other.
Qed.

Lemma lookup_deleteAll_out (db : DocMap) ids id :
  ~ In id ids -> lookup id (JsonDB.deleteAll db ids) = lookup id db.
Proof.
  unfold JsonDB.deleteAll. revert db.
  induction ids as [|k r IH]; intros db Hout; [reflexivity|].
  cbn [fold_left]. rewrite IH by (intros H; apply Hout; now right).
  apply lookup_deleteProp_other. intros ->. apply Hout. now left.
Qed.

(** C4: when [dbQuery] yields the match set [ids], [remove] refuses if
    there is more than one match and [options.multi] is not truthy: it
    returns 0 and leaves the whole state as it was.  In every other case it
    returns the number of matches, no matched id is a key of the store
    any more, and every other key keeps its document. *)
Theorem remove_refuses_or_deletes_all (host : Host) (st : State)
  (query options : value) (ids : list string) :
  dbQuery host (objProto st) (docMap st) query = Ok ids ->
  (1 < List.length ids /\
   truthy (optProp (objProto st) options "multi") = false ->
   JsonDB.remove host st query options = (st, Ok 0)) /\
  (~ (1 < List.length ids /\
      truthy (optProp (objProto st) options "multi") = false) ->
   exists st',
     JsonDB.remove host st query options = (st', Ok (List.length ids)) /\
     (forall id, In id ids -> lookup id (docMap st') = None) /\
     (forall id, ~ In id ids ->
        lookup id (docMap st') = lookup id (docMap st))).
Proof.
  intros Hq. unfold JsonDB.remove. rewrite Hq. split.
  - intros [Hlen Hmulti]. rewrite Hmulti.
    destruct (Nat.eqb (List.length ids) 0) eqn:E0; [reflexivity|].
    apply Nat.ltb_lt in Hlen. now rewrite Hlen.
  - intros Hguard.
    destruct (Nat.eqb (List.length ids) 0) eqn:E0.
    + apply Nat.eqb_eq in E0. exists st. rewrite E0.
      destruct ids; [|discriminate]. repeat split; auto. intros id [].
    + assert (Hg : Nat.ltb 1 (List.length ids)
                   && negb (truthy (optProp (objProto st) options "multi"))
                   = false).
      { destruct (Nat.ltb 1 (List.length ids)) eqn:E1; [|reflexivity].
        destruct (truthy (optProp (objProto st) options "multi")) eqn:Em;
          [reflexivity|].
        exfalso. apply Hguard. apply Nat.ltb_lt in E1. now split. }
      rewrite Hg.
      destruct (negb (truthy (optProp (objProto st) options "skipSave")));
        eexists; (split; [reflexivity|]); cbn [docMap withDocMap JsonDB.save];
        split; intros id Hid;
        auto using lookup_deleteAll_in, lookup_deleteAll_out.
Qed.

Lemma remove_refuses_or_deletes_all_witness :
  JsonDB.remove literalHost (mkState testStore [] [] 0)
    (VObj [("val", VObj [("$gte", VNum 2)])]) (VObj [])
  = (mkState testStore [] [] 0, Ok 0).
Proof.
  apply (remove_refuses_or_deletes_all literalHost
           (mkState testStore [] [] 0)
           (VObj [("val", VObj [("$gte", VNum 2)])]) (VObj []) ["2"; "3"]).
  - reflexivity.
  - split; [cbn; lia | reflexivity].
Defined.

(** ** [insert]: rejected inputs *)

Lemma hasExplicitId_true proto d id :
  getProp proto d "_id" = VStr id -> id <> "" -> hasExplicitId proto d = true.
Proof.
  intros Hget Hne. unfold hasExplicitId. rewrite Hget.
  destruct id; [congruence | reflexivity].
Qed.

(** C6: inserting a document whose [_id] is a non-empty string that is
    already a key of the store returns the empty id and leaves the state,
    hence the stored document and the whole mapping, as it was; inserting
    anything that is not a plain object ([null], an array, a scalar, a
    function) does the same. *)
Theorem insert_rejects_duplicate_and_non_object (host : Host)
  (draw : nat -> nat) (fuel : nat) (st : State) (doc options : value) :
  (forall d id existing,
     doc = VObj d -> getProp (objProto st) d "_id" = VStr id -> id <> "" ->
     lookup id (docMap st) = Some existing ->
     JsonDB.insert host draw fuel st doc options = Some (st, Ok "")) /\
  (notPlainObject doc = true ->
   JsonDB.insert host draw fuel st doc options = Some (st, Ok "")).
Proof.
  split.
  - intros d id existing -> Hget Hne Hlook.
    unfold JsonDB.insert, dbInsert.
    cbn [notPlainObject typeof jstype_eqb negb isArray isNull orb].
    rewrite (hasExplicitId_true _ d id Hget Hne).
    unfold insertDocWithId, hasDoc. rewrite Hget, Hlook.
    cbn [String.eqb negb andb]. now rewrite state_eta.
  - intros Hno. unfold JsonDB.insert, dbInsert. rewrite Hno.
    cbn [String.eqb negb andb]. now rewrite state_eta.
Qed.

Lemma insert_rejects_duplicate_and_non_object_witness :
  JsonDB.insert literalHost (fun n => n) 1 (mkState testStore [] [] 0)
    (VObj [("_id", VStr "1"); ("val", VNum 4)]) VUndef
  = Some (mkState testStore [] [] 0, Ok "").
Proof.
  apply (insert_rejects_duplicate_and_non_object literalHost (fun n => n) 1
           (mkState testStore [] [] 0)
           (VObj [("_id", VStr "1"); ("val", VNum 4)]) VUndef)
    with (d := [("_id", VStr "1"); ("val", VNum 4)]) (id := "1")
         (existing := plain [("_id", VStr "1"); ("name", VStr "foo");
                             ("val", VNum 1)]).
  - reflexivity.
  - reflexivity.
  - discriminate.
  - reflexivity.
Defined.

(** ** Inclusive projection *)

Lemma inclusiveCount_all_truthy (projection : obj) :
  (forall k v, In (k, v) projection -> truthy v = true) ->
  inclusiveCount projection = List.length projection.
Proof.
  unfold inclusiveCount. intros H.
  assert (G : forall n,
             fold_left (fun sum kv => sum + (if truthy (snd kv) then 1 else 0))
               projection n = n + List.length projection).
  { induction projection as [|[k v] r IH]; intros n;
      cbn [fold_left List.length].
    - lia.
    - rewrite IH by (intros k' v' Hin; apply (H k' v'); now right).
      cbn [snd]. rewrite (H k v) by now left. lia. }
  apply (G 0).
Qed.

Lemma builtin_not_proto name :
  isBuiltinMember name = true -> (name =? "__proto__") = false.
Proof.
  intros H. destruct (String.eqb_spec name "__proto__") as [->|]; auto.
Qed.

Lemma inherited_builtin proto name :
  isBuiltinMember name = true -> inherited proto name = VBuiltin name.
Proof.
  intros H. unfold inherited. now rewrite (builtin_not_proto name H), H.
Qed.

(** C7 (the code departs from it): an inclusive projection that lists the
    name of a method that every plain object inherits, such as
    [toString], makes [dbProjection] throw a [DataCloneError] for every
    document that has no field of that name: [doc[key]] finds the
    inherited function, which [structuredClone] refuses.  No document is
    returned, with or without the listed field. *)
Theorem inclusive_projection_throws_on_inherited_method (proto : obj)
  (doc : Doc) (name : string) (v : value) :
  kind doc = Plain ->
  lookup name (fields doc) = None ->
  isBuiltinMember name = true ->
  truthy v = true ->
  dbProjection proto doc (VObj [(name, v)]) = Throw DataCloneError.
Proof.
  intros Hkind Hown Hname Hv. unfold dbProjection.
  cbn [notPlainObject typeof jstype_eqb negb isArray isNull orb keys map
       List.length Nat.eqb].
  unfold inclusiveCount. cbn [fold_left snd]. rewrite Hv.
  cbn [Nat.add Nat.ltb Nat.leb Nat.eqb negb andb fst projectInclusive].
  unfold getField. rewrite Hown, Hkind, (inherited_builtin proto name Hname).
  reflexivity.
Qed.

Lemma inclusive_projection_throws_on_inherited_method_witness :
  dbProjection [] (plain [("_id", VStr "1"); ("val", VNum 13)])
    (VObj [("toString", VNum 1)])
  = Throw DataCloneError.
Proof.
  apply (inclusive_projection_throws_on_inherited_method []
           (plain [("_id", VStr "1"); ("val", VNum 13)]) "toString" (VNum 1));
    reflexivity.
Defined.

(** ** Id generator *)

Lemma alphabet_length : String.length alphabet = 63.
Proof. reflexivity. Qed.

Lemma alphabet_nodup : NoDup (list_ascii_of_string alphabet).
Proof.
  apply (NoDup_count_occ' ascii_dec). intros c Hin.
  cbn in Hin.
  repeat (destruct Hin as [<-|Hin]; [reflexivity|]). destruct Hin.
Qed.

Lemma get_in_list k s c :
  String.get k s = Some c -> In c (list_ascii_of_string s).
Proof.
  revert k. induction s as [|a s IH]; intros k; cbn; [discriminate|].
  destruct k as [|k]; intros H.
  - left. congruence.
  - right. eauto.
Qed.

Lemma alphabetAt_in_range k :
  k < String.length alphabet ->
  exists c, String.get k alphabet = Some c /\
            alphabetAt k = String c EmptyString.
Proof.
  rewrite alphabet_length. intros Hk.
  do 63 (destruct k as [|k]; [eexists; split; reflexivity|]). lia.
Qed.

(** C8 (as stated, refuted): no 64 distinct symbols can all be produced
    by [uid]; the alphabet it indexes has 63 symbols, the letters, the
    digits and the underscore. *)
Lemma uid_alphabet_has_no_64_symbols :
  ~ (exists sigma : list ascii,
       NoDup sigma /\ List.length sigma = 64 /\
       forall c, In c sigma ->
         exists k, alphabetAt k = String c EmptyString).
Proof.
  intros (sigma & Hnd & Hlen & Hprod).
  assert (Hincl : incl sigma (list_ascii_of_string alphabet)).
  { intros c Hc. destruct (Hprod c Hc) as [k Hk]. unfold alphabetAt in Hk.
    destruct (String.get k alphabet) as [c'|] eqn:E; [|discriminate].
    inversion Hk. subst c'. now apply (get_in_list k). }
  apply (NoDup_incl_length Hnd) in Hincl. rewrite Hlen in Hincl.
  cbn in Hincl. lia.
Qed.

Lemma isFree_not_key proto (db : DocMap) id :
  isFree proto db id = true -> lookup id db = None.
Proof. unfold isFree. now destruct (lookup id db). Qed.

Section IdGeneratorFacts.

Variable draw : nat -> nat.
Variable proto : obj.
Hypothesis draw_in_range : forall n, draw n < String.length alphabet.

Lemma uid_chars len : forall drawn,
  String.length (uid draw len drawn) = len /\
  forall i, i < len ->
    String.get i (uid draw len drawn)
    = String.get (draw (drawn + i)) alphabet.
Proof.
  induction len as [|len IH]; intros drawn.
  - split; [reflexivity|]. intros i Hi. lia.
  - cbn [uid].
    destruct (alphabetAt_in_range (draw drawn) (draw_in_range drawn))
      as (c & Hget & Hat).
    rewrite Hat. cbn [append String.length].
    destruct (IH (S drawn)) as [Hlen Hchars]. split; [now rewrite Hlen|].
    intros [|i] Hi; cbn [String.get].
    + now rewrite Nat.add_0_r.
    + rewrite Hchars by lia. now rewrite Nat.add_succ_comm.
Qed.

Lemma makeId_attempt fuel db : forall drawn id drawn',
  makeId draw proto fuel db drawn = Some (id, drawn') ->
  exists k, id = uid draw 16 (drawn + 16 * k) /\
            drawn' = drawn + 16 * S k /\
            isFree proto db id = true /\
            forall j, j < k ->
              isFree proto db (uid draw 16 (drawn + 16 * j)) = false.
Proof.
  induction fuel as [|fuel IH]; intros drawn id drawn'; [discriminate|].
  cbn [makeId]. destruct (isFree proto db (uid draw 16 drawn)) eqn:E.
  - intros H.
    assert (Hid : id = uid draw 16 drawn /\ drawn' = drawn + 16)
      by (split; congruence).
    destruct Hid as [-> ->]. exists 0.
    replace (drawn + 16 * 0) with drawn by lia.
    repeat split; auto. intros j Hj. lia.
  - intros H. destruct (IH _ _ _ H) as (k & Hid & Hd & Hfresh & Hbefore).
    exists (S k). repeat split; auto.
    + rewrite Hid. f_equal. lia.
    + lia.
    + intros [|j] Hj.
      * now replace (drawn + 16 * 0) with drawn by lia.
      * replace (drawn + 16 * S j) with (drawn + 16 + 16 * j) by lia.
        apply Hbefore. lia.
Qed.

Lemma makeId_terminates db : forall k fuel drawn,
  isFree proto db (uid draw 16 (drawn + 16 * k)) = true ->
  k < fuel ->
  exists id drawn', makeId draw proto fuel db drawn = Some (id, drawn').
Proof.
  induction k as [|k IH]; intros fuel drawn Hfresh Hk;
    (destruct fuel as [|fuel]; [lia|]); cbn [makeId].
  - replace (drawn + 16 * 0) with drawn in Hfresh by lia.
    rewrite Hfresh. eauto.
  - destruct (isFree proto db (uid draw 16 drawn)); [eauto|].
    apply IH; [|lia].
    replace (drawn + 16 + 16 * k) with (drawn + 16 * S k) by lia.
    exact Hfresh.
Qed.

End IdGeneratorFacts.

(** C8 (amended): when every draw is an index of the alphabet, which has
    63 distinct symbols, every id returned by [makeId] has 16 characters,
    its [i]-th character is the alphabet symbol selected by the [i]-th
    draw of the successful attempt, and it is not a key of the store; and
    [makeId] does return as soon as one attempt produces an id under which
    the store has and inherits nothing. *)
Theorem makeId_returns_fresh_16_chars (draw : nat -> nat) (proto : obj)
  (db : DocMap) (drawn : nat) :
  (forall n, draw n < String.length alphabet) ->
  String.length alphabet = 63 /\
  NoDup (list_ascii_of_string alphabet) /\
  (forall fuel id drawn',
     makeId draw proto fuel db drawn = Some (id, drawn') ->
     String.length id = 16 /\
     (forall i, i < 16 ->
        String.get i id = String.get (draw (drawn' - 16 + i)) alphabet) /\
     isFree proto db id = true /\
     ~ In id (keys db)) /\
  (forall k fuel,
     isFree proto db (uid draw 16 (drawn + 16 * k)) = true ->
     k < fuel ->
     exists id drawn', makeId draw proto fuel db drawn = Some (id, drawn')).
Proof.
  intros Hrange. split; [exact alphabet_length|].
  split; [exact alphabet_nodup|]. split.
  - intros fuel id drawn' H.
    destruct (makeId_attempt draw proto fuel db _ _ _ H)
      as (k & Hid & Hd & Hfresh & _).
    destruct (uid_chars draw Hrange 16 (drawn + 16 * k)) as [Hlen Hchars].
    rewrite <- Hid in Hlen, Hchars. repeat split; auto.
    + intros i Hi. rewrite (Hchars i Hi). do 2 f_equal. lia.
    + apply lookup_none_iff. now apply (isFree_not_key proto).
  - intros k fuel. apply makeId_terminates.
Qed.

Lemma makeId_returns_fresh_16_chars_witness :
  String.length "aaaaaaaaaaaaaaaa" = 16 /\
  (forall i, i < 16 ->
     String.get i "aaaaaaaaaaaaaaaa" = String.get 0 alphabet) /\
  isFree [] testStore "aaaaaaaaaaaaaaaa" = true /\
  ~ In "aaaaaaaaaaaaaaaa" (keys testStore).
Proof.
  assert (Hrange : forall n : nat,
             (fun _ : nat => 0) n < String.length alphabet)
    by (intros n; cbn; lia).
  destruct (makeId_returns_fresh_16_chars (fun _ => 0) [] testStore 0 Hrange)
    as (_ & _ & Hret & _).
  apply (Hret 1 "aaaaaaaaaaaaaaaa" 16). reflexivity.
Defined.

(** ** The flag of [dbUpdate] *)

Ltac ok_inv H := injection H as <- <-.

Lemma bind_ok {A B : Type} (m : result A) (k : A -> result B) (b : B) :
  (x <- m ;; k x) = Ok b -> exists a, m = Ok a /\ k a = Ok b.
Proof. destruct m; cbn [bind]; try discriminate. eauto. Qed.

Section Flags.

Variable proto : obj.

Lemma incField_flag doc field x doc' changed :
  incField proto doc field x = Ok (doc', changed) ->
  changed = succeeds proto (mkAttempt "$inc" doc field x).
Proof.
  unfold incField, succeeds. cbn [attemptOperator attemptDoc attemptField
    attemptOperand String.eqb Ascii.eqb Bool.eqb andb].
  destruct x; try (intros H; ok_inv H; reflexivity).
  destruct (getField proto doc field);
    try (intros H; ok_inv H; reflexivity);
    intros H; apply bind_ok in H as (d & _ & H); ok_inv H; reflexivity.
Qed.

Lemma pushField_flag doc field x doc' changed :
  pushField proto doc field x = Ok (doc', changed) ->
  changed = succeeds proto (mkAttempt "$push" doc field x).
Proof.
  unfold pushField, succeeds. cbn [attemptOperator attemptDoc attemptField
    attemptOperand String.eqb Ascii.eqb Bool.eqb andb].
  destruct (getField proto doc field);
    try (intros H; ok_inv H; reflexivity).
  - intros H. apply bind_ok in H as (c & _ & H).
    apply bind_ok in H as (d & _ & H). ok_inv H. reflexivity.
  - intros H. apply bind_ok in H as (c & _ & H).
    destruct (lookup field (fields doc)); [|discriminate].
    ok_inv H. reflexivity.
Qed.

Lemma renameField_flag doc field x doc' changed :
  renameField proto doc field x = Ok (doc', changed) ->
  changed = succeeds proto (mkAttempt "$rename" doc field x).
Proof.
  unfold renameField, succeeds. cbn [attemptOperator attemptDoc attemptField
    attemptOperand String.eqb Ascii.eqb Bool.eqb andb].
  destruct (field =? "_id"); [intros H; ok_inv H; reflexivity|].
  cbn [negb andb].
  destruct x; try (intros H; ok_inv H; reflexivity).
  destruct (isUndefined (getField proto doc s)); cbn [negb andb];
    [|intros H; ok_inv H; reflexivity].
  destruct (isUndefined (getField proto doc field)); cbn [negb];
    [intros H; ok_inv H; reflexivity|].
  intros H. apply bind_ok in H as (c & _ & H).
  apply bind_ok in H as (d1 & _ & H). apply bind_ok in H as (d2 & _ & H).
  ok_inv H. reflexivity.
Qed.

Lemma setField_flag doc field x doc' changed :
  setField doc field x = Ok (doc', changed) ->
  changed = succeeds proto (mkAttempt "$set" doc field x).
Proof.
  unfold setField, succeeds. cbn [attemptOperator attemptDoc attemptField
    attemptOperand String.eqb Ascii.eqb Bool.eqb andb].
  destruct (field =? "_id"); [intros H; ok_inv H; reflexivity|].
  intros H. apply bind_ok in H as (c & _ & H).
  apply bind_ok in H as (d & _ & H). ok_inv H. reflexivity.
Qed.

Lemma unsetField_flag doc field x doc' changed :
  unsetField proto doc field x = Ok (doc', changed) ->
  changed = succeeds proto (mkAttempt "$unset" doc field x).
Proof.
  unfold unsetField, succeeds. cbn [attemptOperator attemptDoc attemptField
    attemptOperand String.eqb Ascii.eqb Bool.eqb andb].
  destruct (field =? "_id"); [intros H; ok_inv H; reflexivity|].
  cbn [negb andb].
  destruct (negb (isUndefined (getField proto doc field)) && truthy x);
    [|intros H; ok_inv H; reflexivity].
  intros H. apply bind_ok in H as (d & _ & H). ok_inv H. reflexivity.
Qed.

Lemma operatorStep_flag operator step doc field x doc' changed :
  operatorStep proto operator = Some step ->
  step doc field x = Ok (doc', changed) ->
  changed = succeeds proto (mkAttempt operator doc field x).
Proof.
  unfold operatorStep.
  destruct (String.eqb_spec operator "$inc") as [->|_];
    [intros [= <-]; apply incField_flag|].
  destruct (String.eqb_spec operator "$push") as [->|_];
    [intros [= <-]; apply pushField_flag|].
  destruct (String.eqb_spec operator "$rename") as [->|_];
    [intros [= <-]; apply renameField_flag|].
  destruct (String.eqb_spec operator "$set") as [->|_];
    [intros [= <-]; apply setField_flag|].
  destruct (String.eqb_spec operator "$unset") as [->|_];
    [intros [= <-]; apply unsetField_flag|].
  discriminate.
Qed.

Lemma operatorStep_recognised operator :
  isUpdateOperator operator
  = match operatorStep proto operator with
    | Some _ => true
    | None => false
    end.
Proof.
  unfold isUpdateOperator, updateOperators, operatorStep.
  cbn [existsb].
  destruct (operator =? "$inc"); [reflexivity|].
  destruct (operator =? "$push"); [reflexivity|].
  destruct (operator =? "$rename"); [reflexivity|].
  destruct (operator =? "$set"); [reflexivity|].
  destruct (operator =? "$unset"); reflexivity.
Qed.

Lemma applyFields_flag operator step :
  operatorStep proto operator = Some step ->
  forall es doc numUpdated doc' n,
    applyFields step doc numUpdated es = (doc', Ok n) ->
    n = if existsb (succeeds proto) (fieldAttempts operator step doc es)
        then 1 else numUpdated.
Proof.
  intros Hstep.
  induction es as [|[field x] rest IH]; intros doc numUpdated doc' n.
  - cbn. now intros [= _ ->].
  - cbn [applyFields fieldAttempts existsb].
    destruct (step doc field x) as [[doc1 changed]| |] eqn:E;
      [|discriminate|discriminate].
    rewrite <- (operatorStep_flag _ _ _ _ _ _ _ Hstep E).
    intros H. apply IH in H. rewrite H.
    destruct changed; cbn [orb];
      destruct (existsb _ _); reflexivity.
Qed.

Lemma applyFields_zero_start step es doc numUpdated doc' n :
  applyFields step doc numUpdated es = (doc', Ok n) ->
  exists m, applyFields step doc 0 es = (doc', Ok m).
Proof.
  revert doc numUpdated.
  induction es as [|[field x] rest IH]; intros doc numUpdated.
  - cbn. intros [= <- _]. eauto.
  - cbn [applyFields].
    destruct (step doc field x) as [[doc1 changed]| |];
      [|discriminate|discriminate].
    destruct changed; [eauto|]. apply IH.
Qed.

Lemma applyOperators_flag : forall ops doc numUpdated doc' n,
  applyOperators proto doc numUpdated ops = (doc', Ok n) ->
  n = if existsb (succeeds proto) (operatorAttempts proto doc ops)
      then 1 else numUpdated.
Proof.
  induction ops as [|[operator operand] rest IH];
    intros doc numUpdated doc' n.
  - cbn. now intros [= _ ->].
  - cbn [applyOperators operatorAttempts].
    rewrite (operatorStep_recognised operator).
    destruct (operatorStep proto operator) as [step|] eqn:Es; [|apply IH].
    cbn [negb].
    destruct (entries operand) as [es| |]; [|discriminate|discriminate].
    destruct (applyFields step doc numUpdated es) as [doc1 [n1| |]] eqn:Ef;
      [|discriminate|discriminate].
    destruct (applyFields_zero_start _ _ _ _ _ _ Ef) as [m Hm]. rewrite Hm.
    intros H. apply IH in H. rewrite H.
    rewrite (applyFields_flag _ _ Es _ _ _ _ _ Ef).
    rewrite existsb_app.
    destruct (existsb (succeeds proto) (fieldAttempts operator step doc es));
      cbn [orb]; destruct (existsb _ _); reflexivity.
Qed.

Lemma dbUpdate_flag doc update doc' n :
  dbUpdate proto doc update = (doc', Ok n) ->
  n = if existsb (succeeds proto) (subOperations proto doc update)
      then 1 else 0.
Proof.
  unfold dbUpdate, subOperations.
  destruct (notPlainObject update) eqn:Enp.
  - intros [= _ <-]. destruct update; try reflexivity; discriminate.
  - destruct update; try discriminate.
    destruct (Nat.eqb (List.length (keys props)) 0) eqn:E0.
    + intros [= _ <-]. destruct props; [reflexivity|discriminate].
    + apply applyOperators_flag.
Qed.

End Flags.

(** ** The ids that [dbQuery] returns *)

Lemma scanQuery_sub host proto query : forall db ids,
  scanQuery host proto db query = Ok ids ->
  incl ids (keys db) /\ (NoDup (keys db) -> NoDup ids).
Proof.
  induction db as [|[id doc] rest IH]; intros ids.
  - intros [= <-]. split; [intros x []|auto].
  - cbn [scanQuery]. intros H.
    apply bind_ok in H as (m & _ & H). apply bind_ok in H as (ids' & Hs & H).
    injection H as <-. destruct (IH ids' Hs) as [Hincl Hnd].
    cbn [keys map fst]. split.
    + destruct m; [intros x [<-|Hx]; [now left|right; auto]|].
      intros x Hx. right. auto.
    + intros Hkeys. inversion Hkeys as [|? ? Hnot Hnd']; subst.
      destruct m; auto. constructor; auto.
Qed.

Lemma dbQuery_nodup host proto db query ids :
  NoDup (keys db) ->
  dbQuery host proto db query = Ok ids ->
  NoDup ids.
Proof.
  intros Hnd. unfold dbQuery. intros H.
  apply bind_ok in H as (valid & _ & H).
  destruct valid; cbn [negb] in H; [|injection H as <-; constructor].
  destruct (Nat.eqb (List.length (keys (queryProps query))) 0).
  { now injection H as <-. }
  assert (Hscan : scanQuery host proto db query = Ok ids -> NoDup ids).
  { intros Hs. destruct (scanQuery_sub host proto query db ids Hs). auto. }
  destruct (Nat.eqb (List.length (keys (queryProps query))) 1); auto.
  destruct (getProp proto (queryProps query) "_id"); auto.
  injection H as <-. destruct (hasDoc proto db s); repeat constructor.
  intros [].
Qed.

Lemma changedBy_setProp proto db update id doc' id' :
  id <> id' ->
  changedBy proto (setProp id doc' db) update id' = changedBy proto db update id'.
Proof.
  intros Hne. unfold changedBy. now rewrite lookup_setProp_other.
Qed.

Lemma updateEach_counts proto update : forall ids db numUpdated,
  NoDup ids ->
  (forall id, In id ids ->
     exists doc doc' n, lookup id db = Some doc /\
                        dbUpdate proto doc update = (doc', Ok n)) ->
  exists db',
    JsonDB.updateEach db proto update ids numUpdated
    = (db', proto,
       Ok (numUpdated
           + List.length (filter (changedBy proto db update) ids))).
Proof.
  induction ids as [|id rest IH]; intros db numUpdated Hnd Hall.
  - exists db. cbn. do 2 f_equal. lia.
  - inversion Hnd as [|? ? Hnot Hnd']; subst.
    destruct (Hall id (or_introl eq_refl)) as (doc & doc' & n & Hl & Hn).
    cbn [JsonDB.updateEach filter]. unfold changedBy at 1. rewrite Hl, Hn.
    rewrite <- (Nat.add_0_l (List.length _)) .
    destruct (IH (setProp id doc' db) (numUpdated + n) Hnd') as [db' Hrun].
    { intros id' Hin.
      rewrite lookup_setProp_other by (intros ->; contradiction).
      apply Hall. now right. }
    exists db'. rewrite Hrun. do 2 f_equal.
    rewrite (filter_ext_in (changedBy proto (setProp id doc' db) update)
               (changedBy proto db update))
      by (intros id' Hin; apply changedBy_setProp; intros ->; contradiction).
    rewrite (dbUpdate_flag proto doc update doc' n Hn).
    destruct (existsb _ _); cbn [List.length]; lia.
Qed.

(** C5: the flag returned by [dbUpdate] is 0 or 1, and it is 1 exactly
    when at least one of the sub-operations that it comes to succeeds,
    however many others fail.  [update] is under the guard of [remove]:
    with more than one match and no truthy [options.multi] it returns 0
    and leaves the state as it was; otherwise, when [dbUpdate] returns a
    flag for each matched document, it returns the number of matched
    documents on which a sub-operation succeeds. *)
Theorem update_flag_is_boolean_and_counted (host : Host) (st : State)
  (query upd options : value) (ids : list string) :
  NoDup (keys (docMap st)) ->
  dbQuery host (objProto st) (docMap st) query = Ok ids ->
  (forall proto doc update doc' n,
     dbUpdate proto doc update = (doc', Ok n) ->
     (n = 0 \/ n = 1) /\
     (n = 1 <-> exists a, In a (subOperations proto doc update) /\
                          succeeds proto a = true)) /\
  (1 < List.length ids /\
   truthy (optProp (objProto st) options "multi") = false ->
   JsonDB.update host st query upd options = (st, Ok 0)) /\
  (~ (1 < List.length ids /\
      truthy (optProp (objProto st) options "multi") = false) ->
   (forall id, In id ids ->
      exists doc doc' n, lookup id (docMap st) = Some doc /\
                         dbUpdate (objProto st) doc upd = (doc', Ok n)) ->
   snd (JsonDB.update host st query upd options)
   = Ok (List.length
           (filter (changedBy (objProto st) (docMap st) upd) ids))).
Proof.
  intros Hnd Hq. split; [|split].
  - intros proto doc update doc' n Hn.
    apply dbUpdate_flag in Hn. rewrite Hn.
    destruct (existsb (succeeds proto) (subOperations proto doc update))
      eqn:E.
    + split; [now right|]. split; [|reflexivity]. intros _.
      apply existsb_exists in E. exact E.
    + split; [now left|]. split; [discriminate|].
      intros (a & Hin & Ha).
      assert (E' : existsb (succeeds proto) (subOperations proto doc update)
                   = true) by (apply existsb_exists; eauto).
      congruence.
  - intros [Hlen Hmulti]. unfold JsonDB.update. rewrite Hq, Hmulti.
    destruct (Nat.eqb (List.length ids) 0); [reflexivity|].
    apply Nat.ltb_lt in Hlen. now rewrite Hlen.
  - intros Hguard Hall. unfold JsonDB.update. rewrite Hq.
    destruct (Nat.eqb (List.length ids) 0) eqn:E0.
    { apply Nat.eqb_eq in E0. destruct ids; [reflexivity|discriminate]. }
    assert (Hg : Nat.ltb 1 (List.length ids)
                 && negb (truthy (optProp (objProto st) options "multi"))
                 = false).
    { destruct (Nat.ltb 1 (List.length ids)) eqn:E1; [|reflexivity].
      destruct (truthy (optProp (objProto st) options "multi")) eqn:Em;
        [reflexivity|].
      exfalso. apply Hguard. apply Nat.ltb_lt in E1. now split. }
    rewrite Hg.
    pose proof (dbQuery_nodup host _ _ query ids Hnd Hq) as Hndi.
    destruct (updateEach_counts (objProto st) upd ids (docMap st) 0
                Hndi Hall) as [db' Hrun].
    rewrite Hrun. cbn [Nat.add].
    destruct (Nat.ltb 0 _ && negb (truthy (optProp _ options "skipSave")));
      reflexivity.
Qed.

Lemma update_flag_is_boolean_and_counted_witness :
  snd (JsonDB.update literalHost (mkState testStore [] [] 0)
         (VObj [("val", VObj [("$lt", VNum 3)])])
         (VObj [("$inc", VObj [("val", VNum 10)])])
         (VObj [("multi", VBool true)]))
  = Ok 2.
Proof.
  apply (update_flag_is_boolean_and_counted literalHost
           (mkState testStore [] [] 0)
           (VObj [("val", VObj [("$lt", VNum 3)])])
           (VObj [("$inc", VObj [("val", VNum 10)])])
           (VObj [("multi", VBool true)]) ["1"; "2"]).
  - repeat constructor; cbn; intuition discriminate.
  - reflexivity.
  - intros [_ H]. discriminate.
  - intros id [<-|[<-|[]]]; do 3 eexists; split; reflexivity.
Defined.

(** ** The store invariant and [Object.prototype] *)

Lemma idInvariant_app db id doc :
  idInvariant db -> id <> "" ->
  lookup "_id" (fields doc) = Some (VStr id) ->
  idInvariant (db ++ [(id, doc)]).
Proof.
  intros H Hne Hid. apply Forall_app. split; [exact H|].
  constructor; [|constructor]. now split.
Qed.

Lemma idInvariant_lookup db id doc :
  idInvariant db -> lookup id db = Some doc ->
  id <> "" /\ lookup "_id" (fields doc) = Some (VStr id).
Proof.
  intros H Hl. apply lookup_some_in in Hl.
  unfold idInvariant in H. rewrite Forall_forall in H.
  exact (H _ Hl).
Qed.

(** C10 (the code departs from it): in a fresh runtime, from any store
    that satisfies the invariant and has neither the key [__proto__] nor
    the key [evil], two calls lead to a store that breaks it.  The query
    [{_id: "__proto__"}] selects the id [__proto__], under which the store
    inherits [Object.prototype], so [update] runs the engine on
    [Object.prototype]; there the guards of [_id] do not stop
    [{$set: {x: "evil"}, $rename: {x: "_id"}}], and every plain object
    inherits [_id = "evil"] from then on.  [insert] of [{val: 1}] then
    reads that [_id], takes the document for one with an explicit id, and
    stores a copy of its own fields under [evil]: a document without
    [_id]. *)
Theorem prototype_update_breaks_store_invariant (host : Host)
  (draw : nat -> nat) (st : State) :
  idInvariant (docMap st) ->
  objProto st = [] ->
  lookup "__proto__" (docMap st) = None ->
  lookup "evil" (docMap st) = None ->
  exists st1 st2,
    JsonDB.update host st (idQuery "__proto__") idSmuggle VUndef
    = (st1, Ok 1) /\
    docMap st1 = docMap st /\
    objProto st1 = [("_id", VStr "evil")] /\
    JsonDB.insert host draw 0 st1 (VObj [("val", VNum 1)]) VUndef
    = Some (st2, Ok "evil") /\
    lookup "evil" (docMap st2) = Some (plain [("val", VNum 1)]) /\
    reachable host draw st st2 /\
    ~ idInvariant (docMap st2).
Proof.
  intros Hinv Hproto Hnone Hevil.
  assert (Hup : JsonDB.update host st (idQuery "__proto__") idSmuggle VUndef
                = (JsonDB.save host
                     (mkState (docMap st) [("_id", VStr "evil")]
                        (written st) (drawn st)), Ok 1)).
  { unfold JsonDB.update. rewrite dbQuery_id. unfold hasDoc.
    rewrite Hnone, Hproto.
    cbn [inherited String.eqb Ascii.eqb Bool.eqb truthy List.length Nat.eqb
         Nat.ltb Nat.leb andb JsonDB.updateEach].
    rewrite Hnone. reflexivity. }
  assert (Hins : JsonDB.insert host draw 0
                   (JsonDB.save host
                      (mkState (docMap st) [("_id", VStr "evil")]
                         (written st) (drawn st)))
                   (VObj [("val", VNum 1)]) VUndef
                 = Some (JsonDB.save host
                           (mkState
                              (docMap st ++
                                 [("evil", plain [("val", VNum 1)])])
                              [("_id", VStr "evil")]
                              (stringify host (docMap st) :: written st)
                              (drawn st)),
                         Ok "evil")).
  { unfold JsonDB.insert, JsonDB.save, dbInsert.
    cbn [docMap objProto written drawn notPlainObject typeof jstype_eqb negb
         isArray isNull orb].
    change (hasExplicitId [("_id", VStr "evil")] [("val", VNum 1)])
      with true.
    unfold insertDocWithId.
    change (getProp [("_id", VStr "evil")] [("val", VNum 1)] "_id")
      with (VStr "evil").
    unfold hasDoc. rewrite Hevil.
    change (truthy (inherited [("_id", VStr "evil")] "evil")) with false.
    change (cloneDoc [("val", VNum 1)]) with (Ok [("val", VNum 1)] : result obj).
    cbv beta iota.
    rewrite (setProp_fresh "evil" _ _ Hevil eq_refl).
    reflexivity. }
  eexists. eexists.
  split; [exact Hup|]. split; [reflexivity|]. split; [reflexivity|].
  split; [exact Hins|].
  assert (Hl : lookup "evil"
                 (docMap st ++ [("evil", plain [("val", VNum 1)])])
               = Some (plain [("val", VNum 1)]))
    by now apply lookup_app_fresh.
  split; [exact Hl|]. split.
  - eapply reach_step with (op := OpInsert 0 (VObj [("val", VNum 1)]) VUndef).
    + eapply reach_step
        with (op := OpUpdate (idQuery "__proto__") idSmuggle VUndef).
      * apply reach_init.
      * unfold exec. rewrite Hup. reflexivity.
    + unfold exec. rewrite Hins. reflexivity.
  - intros Hbad.
    destruct (idInvariant_lookup _ _ _ Hbad Hl) as [_ Hid]. discriminate.
Qed.

Lemma prototype_update_breaks_store_invariant_witness :
  exists st2,
    reachable literalHost (fun n => n) (mkState testStore [] [] 0) st2 /\
    lookup "evil" (docMap st2) = Some (plain [("val", VNum 1)]) /\
    ~ idInvariant (docMap st2).
Proof.
  destruct (prototype_update_breaks_store_invariant literalHost (fun n => n)
              (mkState testStore [] [] 0))
    as (st1 & st2 & _ & _ & _ & _ & Hl & Hreach & Hbad).
  - repeat constructor; cbn; discriminate.
  - reflexivity.
  - reflexivity.
  - reflexivity.
  - exists st2. repeat split; assumption.
Defined.

(** * Further properties of the engine *)

Lemma validateQuery_obj props :
  validateQuery (VObj props) = validateProps props.
Proof. reflexivity. Qed.

Lemma evalQuery_obj host proto doc props :
  evalQuery host proto doc (VObj props) = evalProps host proto doc props.
Proof.
  cbn [evalQuery].
  induction props as [|[qName qVal] rest IH]; [reflexivity|].
  cbn [evalProps]. rewrite <- IH.
  destruct (qName =? "$and").
  { destruct qVal; try reflexivity.
    assert (E : forall l,
               (fix all (l : list value) : result bool :=
                  match l with
                  | [] => Ok true
                  | qRule :: r =>
                      b <- evalQuery host proto doc qRule ;;
                      if b then all r else Ok false
                  end) l = allOf (evalQuery host proto doc) l).
    { induction l as [|q r IHl]; [reflexivity|].
      cbn [allOf]. now rewrite IHl. }
    now rewrite E. }
  destruct (qName =? "$or"); [|reflexivity].
  destruct qVal; try reflexivity.
  assert (E : forall l,
             (fix any (l : list value) : result bool :=
                match l with
                | [] => Ok false
                | qRule :: r =>
                    b <- evalQuery host proto doc qRule ;;
                    if b then Ok true else any r
                end) l = anyOf (evalQuery host proto doc) l).
  { induction l as [|q r IHl]; [reflexivity|].
    cbn [anyOf]. now rewrite IHl. }
  now rewrite E.
Qed.

(** ** Validated queries evaluate without exception *)

Lemma operandsOf_here key v props :
  In (key, v) props -> In v (operandsOf key (VObj props)).
Proof.
  intros Hin. cbn [operandsOf]. apply in_flat_map. exists (key, v).
  split; [exact Hin|]. cbn [fst snd]. rewrite String.eqb_refl. now left.
Qed.

Lemma operandsOf_prop key k v props :
  In (k, v) props -> incl (operandsOf key v) (operandsOf key (VObj props)).
Proof.
  intros Hin x Hx. cbn [operandsOf]. apply in_flat_map. exists (k, v).
  split; [exact Hin|]. apply in_or_app. now right.
Qed.

Lemma operandsOf_item key v items :
  In v items -> incl (operandsOf key v) (operandsOf key (VArr items)).
Proof.
  intros Hin x Hx. cbn [operandsOf]. apply in_flat_map. exists v. auto.
Qed.

Lemma answersFor_sub host proto q v :
  (forall key, incl (operandsOf key v) (operandsOf key q)) ->
  answersFor host proto q -> answersFor host proto v.
Proof.
  intros Hincl (Hf & Hb & Hp). repeat split.
  - intros f Hin. apply Hf. now apply Hincl.
  - intros name Hin. apply (Hb name). now apply Hincl.
  - intros p Hin. apply Hp. now apply Hincl.
Qed.

Lemma answersFor_prop host proto k v props :
  In (k, v) props ->
  answersFor host proto (VObj props) -> answersFor host proto v.
Proof.
  intros Hin. apply answersFor_sub. intros key.
  now apply (operandsOf_prop key k).
Qed.

Lemma answersFor_item host proto v items :
  In v items ->
  answersFor host proto (VArr items) -> answersFor host proto v.
Proof.
  intros Hin. apply answersFor_sub. intros key. now apply operandsOf_item.
Qed.

Lemma answersFor_rest host proto p rest :
  answersFor host proto (VObj (p :: rest)) ->
  answersFor host proto (VObj rest).
Proof.
  apply answersFor_sub. intros key x Hx. cbn [operandsOf flat_map] in *.
  apply in_or_app. now right.
Qed.

Section ValidatedQueries.

Variable host : Host.
Variable proto : obj.

Lemma evalOperator_validated docVal opKey opVal :
  (forall pattern, opKey = "$like" -> opVal = VStr pattern ->
     forall subject, exists b, regexpTest host pattern subject = Ok b) ->
  validateOperator opKey opVal = true ->
  exists b, evalOperator host proto docVal opKey opVal = Ok b.
Proof.
  intros Hpat. unfold validateOperator, evalOperator.
  destruct (opKey =? "$exists"); [eauto|].
  destruct (opKey =? "$lt"); [eauto|].
  destruct (opKey =? "$lte"); [eauto|].
  destruct (opKey =? "$gt"); [eauto|].
  destruct (opKey =? "$gte"); [eauto|]. cbn [orb].
  destruct (opKey =? "$in").
  { cbn [orb]. destruct opVal; try discriminate. cbn [includedIn]. eauto. }
  destruct (opKey =? "$includes").
  { intros _. destruct docVal; eauto. destruct opVal; eauto. }
  destruct (opKey =? "$nin").
  { cbn [orb]. destruct opVal; try discriminate. cbn [includedIn bind].
    eauto. }
  cbn [orb].
  destruct (opKey =? "$eq"); [eauto|].
  destruct (opKey =? "$ne"); [eauto|]. cbn [orb].
  destruct (String.eqb_spec opKey "$like") as [Hk|_].
  { intros _. destruct opVal; eauto. destruct docVal; eauto. }
  destruct (opKey =? "$type"); [|discriminate].
  intros _. destruct (strictEq opVal (VStr "array")); [eauto|].
  destruct (strictEq opVal (VStr "null")); eauto.
Qed.

Lemma evalOperators_validated docVal ops :
  (forall pattern, In ("$like", VStr pattern) ops ->
     forall subject, exists b, regexpTest host pattern subject = Ok b) ->
  forallb (fun kv => validateOperator (fst kv) (snd kv)) ops = true ->
  exists b, evalOperators host proto docVal ops = Ok b.
Proof.
  induction ops as [|[key opVal] rest IH];
    cbn [forallb fst snd evalOperators]; intros Hpat.
  - eauto.
  - intros H. apply andb_true_iff in H as [Hk Hr].
    destruct (evalOperator_validated docVal key opVal) as [b ->]; auto.
    { intros pattern -> ->. apply Hpat. now left. }
    cbn [bind]. destruct b; eauto.
    apply IH; auto. intros p Hin. apply Hpat. now right.
Qed.

Lemma evalField_validated doc qName qVal :
  answersFor host proto qVal ->
  validateOperand qVal = Ok true ->
  exists b, evalField host proto doc qName qVal = Ok b.
Proof.
  intros (_ & _ & Hpat). unfold validateOperand, evalField, evalOperatorSet.
  destruct (jstype_eqb (typeof qVal) TObject) eqn:Et; [|eauto].
  destruct qVal as [| | | | |items|props| | |]; cbn [entries bind];
    try discriminate.
  - destruct items as [|x r]; [eauto|]. intros Hall. exfalso.
    cbn in Hall. discriminate.
  - intros [= Hall]. apply evalOperators_validated; auto.
    intros pattern Hin. apply Hpat. now apply operandsOf_here.
Qed.

Lemma everyValid_forall items :
  everyValid items = Ok true ->
  Forall (fun q => validateQuery q = Ok true) items.
Proof.
  induction items as [|q r IH]; cbn [everyValid]; [constructor|].
  destruct (validateQuery q) as [[|]| |] eqn:E; cbn [bind];
    try discriminate.
  intros H. constructor; auto.
Qed.

Lemma allOf_evaluated doc items :
  Forall (fun q => exists b, evalQuery host proto doc q = Ok b) items ->
  exists b, allOf (evalQuery host proto doc) items = Ok b.
Proof.
  induction 1 as [|q r [b Hb] _ IH]; cbn [allOf]; [eauto|].
  rewrite Hb. cbn [bind]. destruct b; eauto.
Qed.

Lemma anyOf_evaluated doc items :
  Forall (fun q => exists b, evalQuery host proto doc q = Ok b) items ->
  exists b, anyOf (evalQuery host proto doc) items = Ok b.
Proof.
  induction 1 as [|q r [b Hb] _ IH]; cbn [anyOf]; [eauto|].
  rewrite Hb. cbn [bind]. destruct b; eauto.
Qed.

Lemma items_evaluated doc items :
  answersFor host proto (VArr items) ->
  Forall (evaluates host proto) items ->
  everyValid items = Ok true ->
  Forall (fun q => exists b, evalQuery host proto doc q = Ok b) items.
Proof.
  intros Hans Hev Hvalid. apply everyValid_forall in Hvalid.
  apply Forall_forall. intros q Hin.
  rewrite Forall_forall in Hev, Hvalid.
  apply Hev; auto. now apply (answersFor_item host proto q items).
Qed.

Lemma evalProps_validated doc props :
  answersFor host proto (VObj props) ->
  Forall (fun kv => evaluatesDeep host proto (snd kv)) props ->
  validateProps props = Ok true ->
  exists b, evalProps host proto doc props = Ok b.
Proof.
  intros Hans Hall.
  induction Hall as [|[qName qVal] rest [Hq Hitems] _ IH];
    cbn [validateProps evalProps snd] in *; [eauto|].
  assert (HqVal : answersFor host proto qVal)
    by (apply (answersFor_prop host proto qName qVal ((qName, qVal) :: rest));
        [now left|exact Hans]).
  specialize (IH (answersFor_rest host proto _ _ Hans)).
  destruct (qName =? "$and") eqn:Eand.
  { cbn [orb]. destruct qVal; try discriminate.
    destruct (everyValid items) as [[|]| |] eqn:Ev; cbn [bind];
      try discriminate.
    intros Hv.
    destruct (allOf_evaluated doc items) as [b ->];
      [apply items_evaluated; auto|].
    cbn [bind]. destruct b; eauto. }
  destruct (qName =? "$or") eqn:Eor.
  { cbn [orb]. destruct qVal; try discriminate.
    destruct (everyValid items) as [[|]| |] eqn:Ev; cbn [bind];
      try discriminate.
    intros Hv.
    destruct (anyOf_evaluated doc items) as [b ->];
      [apply items_evaluated; auto|].
    cbn [bind]. destruct b; eauto. }
  cbn [orb].
  destruct (qName =? "$not").
  { destruct (validateQuery qVal) as [[|]| |] eqn:Ev; cbn [bind];
      try discriminate.
    intros Hv. destruct (Hq HqVal Ev doc) as [b ->]. cbn [bind].
    destruct b; eauto. }
  destruct (String.eqb_spec qName "$where") as [->|_].
  { destruct Hans as (Hf & Hb & _).
    assert (Hin : In qVal (operandsOf "$where"
                             (VObj (("$where", qVal) :: rest))))
      by (apply operandsOf_here; now left).
    destruct qVal as [| | | | | | |fn|name|]; cbn [typeof jstype_eqb];
      try discriminate.
    - intros Hv. cbn [callPredicate].
      destruct (Hf fn Hin doc) as [v ->]. cbn [bind].
      destruct (truthy v); eauto.
    - exfalso. exact (Hb name Hin). }
  destruct (validateOperand qVal) as [[|]| |] eqn:Ev; cbn [bind];
    try discriminate.
  intros Hv. destruct (evalField_validated doc qName qVal HqVal Ev) as [b ->].
  cbn [bind]. destruct b; eauto.
Qed.

Lemma evaluatesDeep_all query : evaluatesDeep host proto query.
Proof.
  induction query using value_induction;
    try (split; [intros _ Hv; cbn [validateQuery] in Hv; discriminate
                |intros items0; discriminate]).
  - split.
    + intros _ Hv. cbn [validateQuery] in Hv. discriminate.
    + intros items0 [= <-]. eapply Forall_impl; [|eassumption].
      intros q [Hq _]. exact Hq.
  - split; [|intros items0; discriminate].
    intros Hans Hv doc. rewrite evalQuery_obj.
    rewrite validateQuery_obj in Hv.
    apply evalProps_validated; auto.
Qed.

Lemma evalQuery_validated query :
  answersFor host proto query ->
  validateQuery query = Ok true ->
  forall doc, exists b, evalQuery host proto doc query = Ok b.
Proof. apply evaluatesDeep_all. Qed.

Lemma scanQuery_validated query db :
  answersFor host proto query ->
  validateQuery query = Ok true ->
  exists ids, scanQuery host proto db query = Ok ids.
Proof.
  intros Hans Hv. induction db as [|[id doc] rest [ids IH]];
    cbn [scanQuery]; [eauto|].
  destruct (evalQuery_validated query Hans Hv doc) as [b ->]. cbn [bind].
  rewrite IH. cbn [bind]. eauto.
Qed.

Lemma scanQueryOne_validated query db :
  answersFor host proto query ->
  validateQuery query = Ok true ->
  exists found, scanQueryOne host proto db query = Ok found.
Proof.
  intros Hans Hv. induction db as [|[id doc] rest [found IH]];
    cbn [scanQueryOne]; [eauto|].
  destruct (evalQuery_validated query Hans Hv doc) as [b ->]. cbn [bind].
  destruct b; eauto.
Qed.

End ValidatedQueries.

(** X1: a query that [validateQuery] accepts never throws while it is
    evaluated, provided the host answers for what the query itself holds:
    the operands of its [$where] keys are functions of the caller that
    return, and the strings it gives to [$like] are patterns that the
    matcher accepts.  Then [evalQuery]
    returns on every document and [dbQuery] and [dbQueryOne] return on
    every store.  A query that the validator rejects yields no id. *)
Theorem validated_query_is_evaluated_safely (host : Host) (proto : obj)
  (query : value) :
  (validateQuery query = Ok true ->
   answersFor host proto query ->
   (forall doc, exists b, evalQuery host proto doc query = Ok b) /\
   (forall db, exists ids, dbQuery host proto db query = Ok ids) /\
   (forall db, exists id, dbQueryOne host proto db query = Ok id)) /\
  (validateQuery query = Ok false ->
   forall db, dbQuery host proto db query = Ok []
              /\ dbQueryOne host proto db query = Ok "").
Proof.
  split.
  - intros Hv Hans. split; [|split].
    + now apply evalQuery_validated.
    + intros db. unfold dbQuery. rewrite Hv. cbn [bind negb].
      destruct (Nat.eqb _ 0); [eauto|].
      destruct (Nat.eqb _ 1);
        [|now apply scanQuery_validated].
      destruct (getProp proto (queryProps query) "_id"); eauto;
        now apply scanQuery_validated.
    + intros db. unfold dbQueryOne. rewrite Hv. cbn [bind negb].
      destruct (Nat.eqb _ 1);
        [|now apply scanQueryOne_validated].
      destruct (getProp proto (queryProps query) "_id"); eauto;
        now apply scanQueryOne_validated.
  - intros Hv db. unfold dbQuery, dbQueryOne. rewrite Hv. now split.
Qed.

Lemma validated_query_is_evaluated_safely_witness :
  let query :=
    VObj [("name", VObj [("$like", VStr "al")]);
          ("$where", VFun 0);
          ("$or", VArr [VObj [("val", VObj [("$in", VArr [VNum 1; VNum 2])])];
                        VObj [("$not", VObj [("val", VNum 3)])]])] in
  (forall doc, exists b, evalQuery literalHost [] doc query = Ok b) /\
  (forall db, exists ids, dbQuery literalHost [] db query = Ok ids) /\
  (forall db, exists id, dbQueryOne literalHost [] db query = Ok id).
Proof.
  intros query.
  apply (proj1 (validated_query_is_evaluated_safely literalHost [] query)).
  - reflexivity.
  - repeat split.
    + intros f _ doc. now exists (VBool true).
    + intros name Hin. cbn in Hin.
      repeat (destruct Hin as [Hin|Hin]; [discriminate|]). exact Hin.
    + intros pattern Hin subject. cbn in Hin.
      repeat (destruct Hin as [Hin|Hin];
              [try discriminate; injection Hin as <-; eexists; reflexivity|]).
      destruct Hin.
Defined.

(** ** What [dbQuery] returns *)

Lemma scanQuery_filter host proto query : forall db ids,
  scanQuery host proto db query = Ok ids ->
  ids = keys (filter (fun kv => matches host proto query (snd kv)) db).
Proof.
  induction db as [|[id doc] rest IH]; intros ids; cbn [scanQuery].
  - now intros [= <-].
  - intros H. apply bind_ok in H as (m & Hm & H).
    apply bind_ok in H as (ids' & Hids & H). injection H as <-.
    cbn [filter snd]. unfold matches at 1. rewrite Hm.
    rewrite (IH ids' Hids). now destruct m.
Qed.

Lemma validated_is_object query :
  validateQuery query = Ok true -> query = VObj (queryProps query).
Proof. destruct query; try discriminate. reflexivity. Qed.

Lemma single_id_query proto (props : list (string * value)) id :
  lookup "_id" proto = None ->
  Nat.eqb (List.length (keys props)) 1 = true ->
  getProp proto props "_id" = VStr id ->
  props = [("_id", VStr id)].
Proof.
  intros Hproto.
  destruct props as [|[k v] [|? ?]]; try discriminate. intros _.
  unfold getProp. cbn [lookup].
  destruct (String.eqb_spec "_id" k) as [<-|]; [now intros ->|].
  unfold inherited. cbn [String.eqb Ascii.eqb Bool.eqb isBuiltinMember
                          builtinMembers existsb orb andb].
  cbn. rewrite Hproto. discriminate.
Qed.

(** X2: in a store with distinct keys whose documents carry their key as
    [_id], the ids that [dbQuery] returns for a query accepted by the
    validator are exactly the keys of the documents that [evalQuery]
    matches, in the order of the store.  Two things are asked of the
    names that the store and the query inherit: no [_id] was added to
    [Object.prototype], and a query that names one id names a key of the
    store or a name under which the store inherits nothing truthy. *)
Theorem dbQuery_returns_the_matching_keys (host : Host) (proto : obj)
  (db : DocMap) (query : value) (ids : list string) :
  NoDup (keys db) ->
  idInvariant db ->
  lookup "_id" proto = None ->
  (forall id, query = idQuery id -> lookup id db = None ->
              truthy (inherited proto id) = false) ->
  validateQuery query = Ok true ->
  dbQuery host proto db query = Ok ids ->
  ids = keys (filter (fun kv => matches host proto query (snd kv)) db).
Proof.
  intros Hnd Hinv Hproto Hown Hv. unfold dbQuery. rewrite Hv.
  cbn [bind negb].
  pose proof (validated_is_object query Hv) as Hobj.
  destruct (queryProps query) as [|p ps] eqn:Ep.
  - cbn [keys map List.length Nat.eqb]. intros [= <-]. rewrite Hobj.
    clear. unfold keys. induction db as [|[id doc] rest IH]; [reflexivity|].
    cbn [filter snd]. change (matches host proto (VObj []) doc) with true.
    cbn [map fst]. now rewrite <- IH.
  - cbn [keys map List.length Nat.eqb]. fold (keys ps).
    destruct (Nat.eqb (List.length (keys ps)) 0) eqn:E1;
      [|apply scanQuery_filter].
    destruct (getProp proto (p :: ps) "_id") eqn:Eg;
      try apply scanQuery_filter.
    assert (Hq : query = idQuery s).
    { rewrite Hobj. unfold idQuery. f_equal.
      apply (single_id_query proto); [exact Hproto| |exact Eg].
      cbn [keys map List.length Nat.eqb]. exact E1. }
    destruct (id_query_lookup_agrees_with_scan host proto db s Hnd Hinv
                (Hown s Hq)) as (Hsame & _ & _).
    rewrite <- (dbQuery_id host proto s db), Hsame, Hq.
    apply scanQuery_filter.
Qed.

Lemma dbQuery_returns_the_matching_keys_witness :
  ["2"; "3"]
  = keys (filter
            (fun kv =>
               matches literalHost []
                 (VObj [("val", VObj [("$gte", VNum 2)])]) (snd kv))
            testStore).
Proof.
  apply (dbQuery_returns_the_matching_keys literalHost [] testStore
           (VObj [("val", VObj [("$gte", VNum 2)])]) ["2"; "3"]).
  - repeat constructor; cbn; intuition discriminate.
  - repeat constructor; cbn; discriminate.
  - reflexivity.
  - intros id H. discriminate.
  - reflexivity.
  - reflexivity.
Defined.

Lemma scanQueryOne_head host proto query : forall db ids,
  scanQuery host proto db query = Ok ids ->
  scanQueryOne host proto db query = Ok (hd "" ids).
Proof.
  induction db as [|[id doc] rest IH]; intros ids;
    cbn [scanQuery scanQueryOne].
  - now intros [= <-].
  - intros H. apply bind_ok in H as (m & Hm & H).
    apply bind_ok in H as (ids' & Hids & H). injection H as <-.
    rewrite Hm. cbn [bind]. destruct m; [reflexivity|]. now apply IH.
Qed.

Lemma dbQueryOne_head_of host proto db query ids :
  dbQuery host proto db query = Ok ids ->
  dbQueryOne host proto db query = Ok (hd "" ids).
Proof.
  unfold dbQuery, dbQueryOne.
  destruct (validateQuery query) as [[|]| |] eqn:Hv; cbn [bind negb];
    [|now intros [= <-]|discriminate|discriminate].
  pose proof (validated_is_object query Hv) as Hobj.
  destruct (queryProps query) as [|p ps] eqn:Ep.
  - cbn [keys map List.length Nat.eqb]. intros [= <-]. rewrite Hobj.
    clear. destruct db as [|[id doc] rest]; reflexivity.
  - cbn [keys map List.length Nat.eqb].
    destruct (Nat.eqb (List.length (map fst ps)) 0);
      [|apply scanQueryOne_head].
    destruct (getProp proto (p :: ps) "_id"); try apply scanQueryOne_head.
    intros [= <-]. now destruct (hasDoc proto db s).
Qed.

(** X3: whenever [dbQuery] returns, [dbQueryOne] returns its first id, or
    the empty string when it returns no id. *)
Theorem dbQueryOne_is_the_first_of_dbQuery (host : Host) (proto : obj)
  (db : DocMap) (query : value) (ids : list string) :
  dbQuery host proto db query = Ok ids ->
  dbQueryOne host proto db query = Ok (hd "" ids).
Proof. apply dbQueryOne_head_of. Qed.

Lemma dbQueryOne_is_the_first_of_dbQuery_witness :
  dbQueryOne literalHost [] testStore
    (VObj [("val", VObj [("$gte", VNum 2)])])
  = Ok (hd "" ["2"; "3"]).
Proof.
  apply (dbQueryOne_is_the_first_of_dbQuery literalHost [] testStore
           (VObj [("val", VObj [("$gte", VNum 2)])]) ["2"; "3"]).
  reflexivity.
Defined.

(** ** [count], [find] and [findOne] together *)

Lemma lookup_in_keys_nodup {A : Type} (o : list (string * A)) k v :
  NoDup (keys o) -> In (k, v) o -> lookup k o = Some v.
Proof.
  induction o as [|[k' v'] r IH]; cbn [keys map fst lookup In]; [tauto|].
  intros Hnd [H|H]; inversion Hnd as [|? ? Hnot Hnd']; subst.
  - injection H as -> ->. now rewrite String.eqb_refl.
  - destruct (String.eqb_spec k k') as [->|]; [|auto].
    exfalso. apply Hnot. apply in_map_iff. now exists (k', v).
Qed.

Lemma projectAll_shape db proto projection : forall ids ds,
  JsonDB.projectAll db proto projection ids = Ok ds ->
  List.length ds = List.length ids /\
  match ids with
  | [] => ds = []
  | id :: _ =>
      exists doc, docAt db proto id = Ok doc /\
                  dbProjection proto doc projection = Ok (hd VUndef ds)
  end.
Proof.
  induction ids as [|id rest IH]; intros ds; cbn [JsonDB.projectAll].
  - intros [= <-]. now split.
  - intros H. apply bind_ok in H as (doc & Hdoc & H).
    apply bind_ok in H as (d & Hd & H).
    apply bind_ok in H as (ds' & Hds & H). injection H as <-.
    destruct (IH ds' Hds) as [Hlen _]. cbn [List.length hd].
    split; [now rewrite Hlen | eauto].
Qed.

(** X4: in a store whose documents are stored under their non-empty
    [_id], whenever [find] returns a list of documents, [count] returns the
    length of that list and [findOne] returns its first element, or
    [undefined] when the list is empty. *)
Theorem count_and_findOne_agree_with_find (host : Host) (st : State)
  (query projection : value) (docs : list value) :
  idInvariant (docMap st) ->
  JsonDB.find host st query projection = Ok docs ->
  JsonDB.count host st query = Ok (List.length docs) /\
  JsonDB.findOne host st query projection = Ok (hd VUndef docs).
Proof.
  intros Hinv. unfold JsonDB.find, JsonDB.count, JsonDB.findOne.
  intros H. apply bind_ok in H as (ids & Hq & Hp).
  rewrite Hq, (dbQueryOne_head_of host _ (docMap st) query ids Hq).
  cbn [bind].
  destruct (projectAll_shape _ _ _ _ _ Hp) as [Hlen Hhd].
  split; [now rewrite Hlen|].
  destruct ids as [|id rest]; cbn [hd].
  - now subst docs.
  - destruct Hhd as (doc & Hl & Hd). rewrite Hl. cbn [bind].
    destruct (String.eqb_spec id "") as [->|_]; [|exact Hd].
    exfalso. unfold docAt in Hl.
    destruct (lookup "" (docMap st)) as [d|] eqn:E; [|discriminate].
    now destruct (idInvariant_lookup _ _ _ Hinv E).
Qed.

Lemma count_and_findOne_agree_with_find_witness :
  JsonDB.count literalHost (mkState testStore [] [] 0)
    (VObj [("val", VObj [("$gte", VNum 2)])])
  = Ok (List.length [VObj [("name", VStr "bar")];
                     VObj [("name", VStr "baz")]]) /\
  JsonDB.findOne literalHost (mkState testStore [] [] 0)
    (VObj [("val", VObj [("$gte", VNum 2)])]) (VObj [("name", VNum 1)])
  = Ok (hd VUndef [VObj [("name", VStr "bar")];
                   VObj [("name", VStr "baz")]]).
Proof.
  apply (count_and_findOne_agree_with_find literalHost
           (mkState testStore [] [] 0)
           (VObj [("val", VObj [("$gte", VNum 2)])])
           (VObj [("name", VNum 1)])).
  - repeat constructor; cbn; discriminate.
  - reflexivity.
Defined.

Lemma projectAll_everything proto (db : DocMap) :
  Forall (fun kv => isData (snd kv) = true) db ->
  forall whole, incl db whole -> NoDup (keys whole) ->
  JsonDB.projectAll whole proto (VObj []) (keys db)
  = Ok (map (fun kv => VObj (fields (snd kv))) db).
Proof.
  intros Hdata whole. induction Hdata as [|[id doc] rest Hd _ IH];
    intros Hincl Hnd; [reflexivity|].
  change (keys ((id, doc) :: rest)) with (id :: keys rest).
  cbn [map JsonDB.projectAll snd]. cbn [snd] in Hd.
  unfold docAt.
  rewrite (lookup_in_keys_nodup whole id doc Hnd
             (Hincl _ (or_introl eq_refl))).
  cbn [bind].
  change (dbProjection proto doc (VObj []))
    with (c <- cloneDoc (fields doc) ;; Ok (VObj c)).
  unfold cloneDoc, structuredClone. unfold isData in Hd.
  rewrite Hd. cbn [bind].
  rewrite IH; [reflexivity| |exact Hnd].
  intros x Hx. apply Hincl. now right.
Qed.

(** X5: in a store with distinct keys whose documents hold data only, the
    empty query with the empty (or omitted) projection makes [find] return
    every stored document, in the order of the store, and [count] return
    the size of the store. *)
Theorem find_everything (host : Host) (st : State) (projection : value) :
  NoDup (keys (docMap st)) ->
  Forall (fun kv => isData (snd kv) = true) (docMap st) ->
  projection = VUndef \/ projection = VObj [] ->
  JsonDB.find host st (VObj []) projection
  = Ok (map (fun kv => VObj (fields (snd kv))) (docMap st)) /\
  JsonDB.count host st (VObj []) = Ok (List.length (docMap st)).
Proof.
  intros Hnd Hdata Hp. split.
  - unfold JsonDB.find.
    change (dbQuery host (objProto st) (docMap st) (VObj []))
      with (Ok (keys (docMap st))).
    cbn [bind].
    assert (Hempty : JsonDB.orEmpty projection = VObj [])
      by (destruct Hp as [-> | ->]; reflexivity).
    rewrite Hempty. apply projectAll_everything; auto. apply incl_refl.
  - unfold JsonDB.count.
    change (dbQuery host (objProto st) (docMap st) (VObj []))
      with (Ok (keys (docMap st))).
    cbn [bind]. unfold keys. now rewrite length_map.
Qed.

Lemma find_everything_witness :
  JsonDB.find literalHost (mkState testStore [] [] 0) (VObj []) VUndef
  = Ok (map (fun kv => VObj (fields (snd kv))) testStore) /\
  JsonDB.count literalHost (mkState testStore [] [] 0) (VObj [])
  = Ok (List.length testStore).
Proof.
  apply (find_everything literalHost (mkState testStore [] [] 0) VUndef).
  - repeat constructor; cbn; intuition discriminate.
  - repeat constructor.
  - now left.
Defined.
(** ** The logical combinators *)

Lemma evalQuery_not host proto doc q :
  evalQuery host proto doc (notQuery q)
  = (b <- evalQuery host proto doc q ;; Ok (negb b)).
Proof.
  unfold notQuery. rewrite evalQuery_obj. cbn [evalProps String.eqb].
  change ("$not" =? "$and") with false. change ("$not" =? "$or") with false.
  change ("$not" =? "$not") with true. cbn iota.
  destruct (evalQuery host proto doc q) as [[|]| |]; reflexivity.
Qed.

Lemma evalQuery_and host proto doc items :
  evalQuery host proto doc (VObj [("$and", VArr items)])
  = allOf (evalQuery host proto doc) items.
Proof.
  rewrite evalQuery_obj. cbn [evalProps].
  change ("$and" =? "$and") with true. cbn iota.
  destruct (allOf (evalQuery host proto doc) items) as [[|]| |]; reflexivity.
Qed.

Lemma evalQuery_or host proto doc items :
  evalQuery host proto doc (VObj [("$or", VArr items)])
  = anyOf (evalQuery host proto doc) items.
Proof.
  rewrite evalQuery_obj. cbn [evalProps].
  change ("$or" =? "$and") with false. change ("$or" =? "$or") with true.
  cbn iota.
  destruct (anyOf (evalQuery host proto doc) items) as [[|]| |]; reflexivity.
Qed.

Lemma allOf_negated host proto doc items :
  allOf (evalQuery host proto doc) (negateAll items)
  = (b <- anyOf (evalQuery host proto doc) items ;; Ok (negb b)).
Proof.
  induction items as [|q r IH]; [reflexivity|].
  cbn [negateAll map allOf anyOf]. fold (negateAll r).
  rewrite evalQuery_not.
  destruct (evalQuery host proto doc q) as [[|]| |]; cbn [bind negb];
    [reflexivity| exact IH |reflexivity|reflexivity].
Qed.

Lemma anyOf_negated host proto doc items :
  anyOf (evalQuery host proto doc) (negateAll items)
  = (b <- allOf (evalQuery host proto doc) items ;; Ok (negb b)).
Proof.
  induction items as [|q r IH]; [reflexivity|].
  cbn [negateAll map allOf anyOf]. fold (negateAll r).
  rewrite evalQuery_not.
  destruct (evalQuery host proto doc q) as [[|]| |]; cbn [bind negb];
    [exact IH | reflexivity | reflexivity | reflexivity].
Qed.

(** X6: the combinators obey the laws of negation, exceptions included:
    [{$not: {$not: q}}] evaluates as [q];
    [{$not: {$or: [q1, ...]}}] evaluates as [{$and: [{$not: q1}, ...]}];
    [{$not: {$and: [q1, ...]}}] evaluates as [{$or: [{$not: q1}, ...]}];
    an empty [$and] matches every document and an empty [$or] none. *)
Theorem combinators_obey_negation_laws (host : Host) (proto : obj) (doc : Doc)
  (q : value) (items : list value) :
  evalQuery host proto doc (notQuery (notQuery q)) = evalQuery host proto doc q /\
  evalQuery host proto doc (notQuery (VObj [("$or", VArr items)]))
  = evalQuery host proto doc (VObj [("$and", VArr (negateAll items))]) /\
  evalQuery host proto doc (notQuery (VObj [("$and", VArr items)]))
  = evalQuery host proto doc (VObj [("$or", VArr (negateAll items))]) /\
  evalQuery host proto doc (VObj [("$and", VArr [])]) = Ok true /\
  evalQuery host proto doc (VObj [("$or", VArr [])]) = Ok false.
Proof.
  repeat split.
  - rewrite !evalQuery_not.
    destruct (evalQuery host proto doc q) as [[|]| |]; reflexivity.
  - now rewrite evalQuery_not, evalQuery_or, evalQuery_and, allOf_negated.
  - now rewrite evalQuery_not, evalQuery_or, evalQuery_and, anyOf_negated.
Qed.

(** ** Operators *)

Lemma sameKind_sym a b : sameKind a b = sameKind b a.
Proof. destruct a, b; reflexivity. Qed.

(** X30: the operators come in pairs.  [$ne] answers the opposite of
    [$eq], [$nin] the opposite of [$in] on every array, [$exists] with a
    falsy operand the opposite of [$exists] with a truthy one; [$gt] and
    [$gte] are [$lt] and [$lte] with document value and operand
    exchanged; and none of the four comparisons matches a field that the
    document lacks. *)
Theorem operators_negate_and_mirror (host : Host) (proto : obj)
  (docVal opVal : value)
  (items : list value) (yes no : value) :
  evalOperator host proto docVal "$ne" opVal
  = (b <- evalOperator host proto docVal "$eq" opVal ;; Ok (negb b)) /\
  evalOperator host proto docVal "$nin" (VArr items)
  = (b <- evalOperator host proto docVal "$in" (VArr items) ;; Ok (negb b)) /\
  (truthy yes = true -> truthy no = false ->
   evalOperator host proto docVal "$exists" no
   = (b <- evalOperator host proto docVal "$exists" yes ;; Ok (negb b))) /\
  evalOperator host proto docVal "$gt" opVal = evalOperator host proto opVal "$lt" docVal /\
  evalOperator host proto docVal "$gte" opVal
  = evalOperator host proto opVal "$lte" docVal /\
  Forall (fun op => evalOperator host proto VUndef op opVal = Ok false)
         ["$lt"; "$lte"; "$gt"; "$gte"].
Proof.
  unfold evalOperator.
  cbn [String.eqb Ascii.eqb Bool.eqb andb bind].
  repeat split.
  - intros Hyes Hno. rewrite Hyes, Hno. now rewrite negb_involutive.
  - now rewrite sameKind_sym.
  - now rewrite sameKind_sym.
  - repeat constructor.
Qed.

Lemma operators_negate_and_mirror_witness :
  evalOperator literalHost [] (VNum 1) "$exists" (VNum 0)
  = (b <- evalOperator literalHost [] (VNum 1) "$exists" (VBool true) ;;
     Ok (negb b)).
Proof.
  apply (operators_negate_and_mirror literalHost [] (VNum 1) VNull []
           (VBool true) (VNum 0)); reflexivity.
Defined.

(** ** Projections *)

Lemma inclusiveCount_filter (projection : obj) :
  inclusiveCount projection
  = List.length (filter (fun kv => truthy (snd kv)) projection).
Proof.
  unfold inclusiveCount.
  assert (G : forall n,
             fold_left (fun sum kv => sum + (if truthy (snd kv) then 1 else 0))
               projection n
             = n + List.length (filter (fun kv => truthy (snd kv)) projection)).
  { induction projection as [|[k v] r IH]; intros n;
      cbn [fold_left filter snd]; [cbn; lia|].
    rewrite IH. destruct (truthy v); cbn [List.length]; lia. }
  apply (G 0).
Qed.

Lemma assign_plain (o : obj) k v :
  k <> "__proto__" -> assign (plain o) k v = Ok (plain (setProp k v o)).
Proof.
  intros Hne. unfold assign, plain. cbn [fields kind].
  apply String.eqb_neq in Hne. rewrite Hne.
  now destruct (lookup k o).
Qed.

Lemma lookup_assignAll kvs : forall o k,
  NoDup (keys kvs) ->
  lookup k (assignAll kvs o)
  = match lookup k kvs with
    | Some v => Some v
    | None => lookup k o
    end.
Proof.
  unfold assignAll.
  induction kvs as [|[k' v'] r IH]; intros o k Hnd; [reflexivity|].
  cbn [fold_left fst snd lookup keys map] in *.
  inversion Hnd as [|? ? Hnot Hnd']; subst.
  rewrite (IH _ _ Hnd').
  destruct (String.eqb_spec k k') as [->|Hne].
  - apply lookup_none_iff in Hnot. rewrite Hnot.
    apply lookup_setProp_same.
  - destruct (lookup k r); [reflexivity|].
    apply lookup_setProp_other. congruence.
Qed.

Lemma assignAll_fresh kvs : forall o,
  (forall k, In k (keys kvs) -> arrayIndex k = None) ->
  NoDup (keys o ++ keys kvs) ->
  assignAll kvs o = o ++ kvs.
Proof.
  unfold assignAll.
  induction kvs as [|[k v] r IH]; intros o Hidx Hnd;
    cbn [fold_left fst snd]; [now rewrite app_nil_r|].
  change (keys ((k, v) :: r)) with (k :: keys r) in *.
  assert (Hfresh : lookup k o = None).
  { apply lookup_none_iff. intros Hin. apply NoDup_remove_2 in Hnd.
    apply Hnd, in_or_app. now left. }
  rewrite (setProp_fresh k v o Hfresh (Hidx k (or_introl eq_refl))).
  rewrite IH.
  - now rewrite <- app_assoc.
  - intros k' Hin. apply Hidx. now right.
  - unfold keys in *. rewrite map_app. cbn [map fst].
    rewrite <- app_assoc. exact Hnd.
Qed.

Lemma lookup_filter_keys {A : Type} (sel : string -> bool)
  (l : list (string * A)) k :
  lookup k (filter (fun kv => sel (fst kv)) l)
  = if sel k then lookup k l else None.
Proof.
  induction l as [|[k' v'] r IH]; cbn [filter lookup fst].
  - now destruct (sel k).
  - destruct (sel k') eqn:Ek'; cbn [lookup].
    + destruct (String.eqb_spec k k') as [->|Hne]; [now rewrite Ek'|exact IH].
    + rewrite IH. destruct (String.eqb_spec k k') as [->|Hne];
        [now rewrite Ek'|reflexivity].
Qed.

Lemma NoDup_keys_filter {A : Type} (f : string * A -> bool)
  (l : list (string * A)) :
  NoDup (keys l) -> NoDup (keys (filter f l)).
Proof.
  induction l as [|[k v] r IH]; cbn [keys map fst filter]; [auto|].
  intros Hnd. inversion Hnd as [|? ? Hnot Hnd']; subst.
  destruct (f (k, v)); [|now apply IH].
  cbn [map fst]. constructor; [|now apply IH].
  intros Hin. apply Hnot. unfold keys in *.
  apply in_map_iff in Hin as ([k' v'] & Hk & Hin). cbn [fst] in Hk. subst k'.
  apply filter_In in Hin as [Hin _].
  apply in_map_iff. now exists (k, v').
Qed.

Lemma isData_field doc k v :
  isData doc = true -> In (k, v) (fields doc) -> cloneable v = true.
Proof.
  unfold isData. cbn [cloneable]. rewrite forallb_forall.
  intros H Hin. exact (H (k, v) Hin).
Qed.

Lemma projectExclusive_assigned proto (whole : Doc) (projection : obj) :
  NoDup (keys (fields whole)) ->
  isData whole = true ->
  lookup "__proto__" (fields whole) = None ->
  forall part output,
    incl part (fields whole) ->
    projectExclusive proto whole projection (keys part) (plain output)
    = Ok (plain (assignAll (filter (keptBy proto projection) part) output)).
Proof.
  intros Hnd Hdata Hproto.
  induction part as [|[k v] rest IH]; intros output Hincl; [reflexivity|].
  change (keys ((k, v) :: rest)) with (k :: keys rest).
  cbn [projectExclusive filter]. unfold keptBy at 1. cbn [fst].
  assert (Hin : In (k, v) (fields whole)) by (apply Hincl; now left).
  assert (Hrest : incl rest (fields whole))
    by (intros x Hx; apply Hincl; now right).
  destruct (isUndefined (getProp proto projection k)); [|now apply IH].
  rewrite (getField_own proto whole k v
             (lookup_in_keys_nodup _ k v Hnd Hin)).
  rewrite (structuredClone_data v (isData_field whole k v Hdata Hin)).
  cbn [bind]. rewrite assign_plain.
  - cbn [bind]. rewrite IH by assumption. reflexivity.
  - intros ->. apply lookup_none_iff in Hproto. apply Hproto.
    apply in_map_iff. now exists ("__proto__", v).
Qed.

(** X7: for a document with distinct field names that holds data only and
    has no field named [__proto__], and a non-empty projection none of
    whose values is truthy, [dbProjection] returns an object that holds
    exactly the fields of the document for which [projection[key]] is
    [undefined], read through the prototype of the projection, each with
    its value; so [_id] is kept unless it is listed.  When no field name
    is an array index, the fields come in the order of the document. *)
Theorem exclusive_projection_drops_listed_fields (proto : obj) (doc : Doc)
  (projection : obj) :
  projection <> [] ->
  (forall k v, In (k, v) projection -> truthy v = false) ->
  NoDup (keys (fields doc)) ->
  isData doc = true ->
  lookup "__proto__" (fields doc) = None ->
  exists out,
    dbProjection proto doc (VObj projection) = Ok (VObj out) /\
    (forall k, lookup k out
               = if isUndefined (getProp proto projection k)
                 then lookup k (fields doc) else None) /\
    ((forall k, In k (keys (fields doc)) -> arrayIndex k = None) ->
     out = filter (keptBy proto projection) (fields doc)).
Proof.
  intros Hne Hfalsy Hnd Hdata Hproto.
  exists (assignAll (filter (keptBy proto projection) (fields doc)) []).
  split; [|split].
  - unfold dbProjection.
    cbn [notPlainObject typeof jstype_eqb negb isArray isNull orb].
    assert (Hc : inclusiveCount projection = 0).
    { rewrite inclusiveCount_filter.
      replace (filter (fun kv => truthy (snd kv)) projection) with
        (@nil (string * value)); [reflexivity|].
      symmetry. clear Hne. induction projection as [|[k v] r IH];
        [reflexivity|].
      cbn [filter snd]. rewrite (Hfalsy k v (or_introl eq_refl)).
      apply IH. intros k' v' Hin. apply (Hfalsy k' v'). now right. }
    rewrite Hc. destruct projection as [|p r]; [congruence|].
    cbn [keys map List.length Nat.eqb Nat.ltb Nat.leb andb].
    fold (keys (fields doc)).
    rewrite (projectExclusive_assigned proto doc (p :: r) Hnd Hdata Hproto
               (fields doc) []) by apply incl_refl.
    reflexivity.
  - intros k. rewrite lookup_assignAll by now apply NoDup_keys_filter.
    unfold keptBy. rewrite (lookup_filter_keys
                              (fun key => isUndefined
                                            (getProp proto projection key))).
    destruct (isUndefined (getProp proto projection k)); [|reflexivity].
    now destruct (lookup k (fields doc)).
  - intros Hidx. rewrite assignAll_fresh; [reflexivity| |].
    + intros k Hin. apply Hidx. unfold keys in *.
      apply in_map_iff in Hin as (kv & <- & Hin).
      apply filter_In in Hin as [Hin _]. now apply in_map.
    + cbn [keys map app]. now apply NoDup_keys_filter.
Qed.

Lemma exclusive_projection_drops_listed_fields_witness :
  exists out,
    dbProjection []
      (plain [("_id", VStr "1"); ("val", VNum 13); ("name", VStr "Alice")])
      (VObj [("name", VNum 0)])
    = Ok (VObj out) /\
    out = [("_id", VStr "1"); ("val", VNum 13)].
Proof.
  destruct (exclusive_projection_drops_listed_fields []
              (plain [("_id", VStr "1"); ("val", VNum 13);
                      ("name", VStr "Alice")])
              [("name", VNum 0)]) as (out & Hout & _ & Hfilter).
  - discriminate.
  - intros k v [H|[]]. injection H as <- <-. reflexivity.
  - repeat constructor; cbn; intuition discriminate.
  - reflexivity.
  - reflexivity.
  - exists out. split; [exact Hout|]. rewrite Hfilter; [reflexivity|].
    cbn. intros k [<-|[<-|[<-|[]]]]; reflexivity.
Defined.



Lemma projectInclusive_assigned proto (doc : Doc) : forall projKeys output,
  ~ In "__proto__" projKeys ->
  (forall key, In key projKeys -> cloneable (getField proto doc key) = true) ->
  projectInclusive proto doc projKeys (plain output)
  = Ok (plain (assignAll (readAll proto doc projKeys) output)).
Proof.
  induction projKeys as [|key rest IH]; intros output Hproto Hdata;
    [reflexivity|].
  cbn [projectInclusive readAll map].
  rewrite (structuredClone_data _ (Hdata key (or_introl eq_refl))).
  cbn [bind]. rewrite assign_plain.
  - cbn [bind]. rewrite IH; [reflexivity| |].
    + intros Hin. apply Hproto. now right.
    + intros k Hin. apply Hdata. now right.
  - intros ->. apply Hproto. now left.
Qed.

Lemma lookup_readAll proto doc projKeys k :
  lookup k (readAll proto doc projKeys)
  = if existsb (String.eqb k) projKeys
    then Some (getField proto doc k) else None.
Proof.
  induction projKeys as [|key rest IH]; cbn [readAll map lookup existsb];
    [reflexivity|].
  destruct (String.eqb_spec k key) as [->|Hne]; [reflexivity|exact IH].
Qed.

Lemma keys_readAll proto doc projKeys :
  keys (readAll proto doc projKeys) = projKeys.
Proof.
  unfold keys, readAll. rewrite map_map. cbn [fst]. apply map_id.
Qed.

(** X20: an inclusive projection that can be served.  For a non-empty
    projection whose values are all truthy, whose keys are distinct and do
    not include [__proto__], and a document that reads data under every
    listed key, [dbProjection] returns an object with exactly the listed
    keys, each holding what the document reads under it, own or
    inherited; a field that reads [undefined] is present with the value
    [undefined], and [_id] is absent unless it is listed.  When no listed
    key is an array index, the keys come in the order of the
    projection. *)
Theorem inclusive_projection_reads_listed_fields (proto : obj) (doc : Doc)
  (projection : obj) :
  projection <> [] ->
  (forall k v, In (k, v) projection -> truthy v = true) ->
  NoDup (keys projection) ->
  ~ In "__proto__" (keys projection) ->
  (forall k, In k (keys projection) ->
             cloneable (getField proto doc k) = true) ->
  exists out,
    dbProjection proto doc (VObj projection) = Ok (VObj out) /\
    (forall k, lookup k out
               = if existsb (String.eqb k) (keys projection)
                 then Some (getField proto doc k) else None) /\
    ((forall k, In k (keys projection) -> arrayIndex k = None) ->
     out = readAll proto doc (keys projection)).
Proof.
  intros Hne Htruthy Hnd Hproto Hdata.
  exists (assignAll (readAll proto doc (keys projection)) []).
  split; [|split].
  - unfold dbProjection.
    cbn [notPlainObject typeof jstype_eqb negb isArray isNull orb].
    rewrite (inclusiveCount_all_truthy projection Htruthy).
    unfold keys at 1 2. rewrite length_map.
    destruct projection as [|p r]; [congruence|].
    cbn [List.length Nat.eqb Nat.ltb Nat.leb andb negb].
    rewrite Nat.eqb_refl. cbn [negb andb].
    rewrite (projectInclusive_assigned proto doc _ [] Hproto Hdata).
    reflexivity.
  - intros k. rewrite lookup_assignAll by now rewrite keys_readAll.
    rewrite lookup_readAll.
    now destruct (existsb (String.eqb k) (keys projection)).
  - intros Hidx. rewrite assignAll_fresh; [reflexivity| |].
    + now rewrite keys_readAll.
    + cbn [keys map app]. fold (keys (readAll proto doc (keys projection))).
      now rewrite keys_readAll.
Qed.

Lemma inclusive_projection_reads_listed_fields_witness :
  exists out,
    dbProjection []
      (plain [("_id", VStr "1"); ("val", VNum 13); ("name", VStr "Alice")])
      (VObj [("name", VNum 1); ("age", VNum 1)])
    = Ok (VObj out) /\
    out = [("name", VStr "Alice"); ("age", VUndef)].
Proof.
  destruct (inclusive_projection_reads_listed_fields []
              (plain [("_id", VStr "1"); ("val", VNum 13);
                      ("name", VStr "Alice")])
              [("name", VNum 1); ("age", VNum 1)])
    as (out & Hout & _ & Horder).
  - discriminate.
  - intros k v [H|[H|[]]]; injection H as <- <-; reflexivity.
  - repeat constructor; cbn; intuition discriminate.
  - cbn. intuition discriminate.
  - cbn. intros k [<-|[<-|[]]]; reflexivity.
  - exists out. split; [exact Hout|]. rewrite Horder; [reflexivity|].
    cbn. intros k [<-|[<-|[]]]; reflexivity.
Defined.

(** ** A flag of 0 means that nothing changed *)

Lemma operatorStep_skipsCleanly proto operator step :
  operatorStep proto operator = Some step -> skipsCleanly step.
Proof.
  unfold operatorStep.
  destruct (operator =? "$inc").
  { intros [= <-] doc field x doc'. unfold incField.
    destruct x; try (now intros [= <-]).
    destruct (getField proto doc field); try (now intros [= <-]);
      intros H; apply bind_ok in H as (d & _ & H); discriminate. }
  destruct (operator =? "$push").
  { intros [= <-] doc field x doc'. unfold pushField.
    destruct (getField proto doc field); try (now intros [= <-]).
    - intros H. apply bind_ok in H as (c & _ & H).
      apply bind_ok in H as (d & _ & H). discriminate.
    - intros H. apply bind_ok in H as (c & _ & H).
      destruct (lookup field (fields doc)); discriminate. }
  destruct (operator =? "$rename").
  { intros [= <-] doc field x doc'. unfold renameField.
    destruct (field =? "_id"); [now intros [= <-]|].
    destruct x; try (now intros [= <-]).
    destruct (negb (isUndefined (getField proto doc s)));
      [now intros [= <-]|].
    destruct (negb (isUndefined (getField proto doc field)));
      [|now intros [= <-]].
    intros H. apply bind_ok in H as (c & _ & H).
    apply bind_ok in H as (d1 & _ & H). apply bind_ok in H as (d2 & _ & H).
    discriminate. }
  destruct (operator =? "$set").
  { intros [= <-] doc field x doc'. unfold setField.
    destruct (field =? "_id"); [now intros [= <-]|].
    intros H. apply bind_ok in H as (c & _ & H).
    apply bind_ok in H as (d & _ & H). discriminate. }
  destruct (operator =? "$unset"); [|discriminate].
  intros [= <-] doc field x doc'. unfold unsetField.
  destruct (field =? "_id"); [now intros [= <-]|].
  destruct (negb (isUndefined (getField proto doc field)) && truthy x);
    [|now intros [= <-]].
  intros H. apply bind_ok in H as (d & _ & H). discriminate.
Qed.

Lemma applyFields_zero step :
  skipsCleanly step ->
  forall es doc n doc',
    applyFields step doc n es = (doc', Ok 0) -> doc' = doc /\ n = 0.
Proof.
  intros Hstep. induction es as [|[field x] rest IH]; intros doc n doc';
    cbn [applyFields].
  - intros [= <- <-]. now split.
  - destruct (step doc field x) as [[d1 changed]| |] eqn:E;
      [|discriminate|discriminate].
    intros H. destruct (IH _ _ _ H) as [-> Hn].
    destruct changed; [discriminate|].
    split; [exact (Hstep _ _ _ _ E) | exact Hn].
Qed.

Lemma applyOperators_zero proto : forall ops doc n doc',
  applyOperators proto doc n ops = (doc', Ok 0) -> doc' = doc /\ n = 0.
Proof.
  induction ops as [|[operator operand] rest IH]; intros doc n doc';
    cbn [applyOperators].
  - intros [= <- <-]. now split.
  - destruct (operatorStep proto operator) as [step|] eqn:Es; [|apply IH].
    destruct (entries operand) as [es| |]; [|discriminate|discriminate].
    destruct (applyFields step doc n es) as [d1 [m| |]] eqn:Ef;
      [|discriminate|discriminate].
    intros H. destruct (IH _ _ _ H) as [-> ->].
    exact (applyFields_zero step (operatorStep_skipsCleanly _ _ _ Es)
             _ _ _ _ Ef).
Qed.

Lemma dbUpdate_zero proto doc update doc' :
  dbUpdate proto doc update = (doc', Ok 0) -> doc' = doc.
Proof.
  unfold dbUpdate. destruct (notPlainObject update); [now intros [= <-]|].
  destruct update; try discriminate.
  destruct (Nat.eqb (List.length (keys props)) 0);
    [now intros [= <-]|].
  intros H. now destruct (applyOperators_zero _ _ _ _ _ H).
Qed.

(** X9: when [dbUpdate] returns the flag 0, the document is exactly as it
    was before the call: a sub-operation that is skipped (wrong type,
    protected [_id], missing field, existing target name, unknown
    operator) leaves no trace. *)
Theorem flag_zero_means_unchanged (proto : obj) (doc : Doc)
  (update : value) :
  snd (dbUpdate proto doc update) = Ok 0 ->
  fst (dbUpdate proto doc update) = doc.
Proof.
  destruct (dbUpdate proto doc update) as [doc' r] eqn:E. cbn [fst snd].
  intros ->. exact (dbUpdate_zero proto doc update doc' E).
Qed.

Lemma flag_zero_means_unchanged_witness :
  fst (dbUpdate [] (plain [("_id", VStr "1"); ("name", VStr "john")])
         (VObj [("$inc", VObj [("name", VNum 1)]);
                ("$rename", VObj [("_id", VStr "id")]);
                ("$enlarge", VObj [("name", VNum 2)])]))
  = plain [("_id", VStr "1"); ("name", VStr "john")].
Proof.
  apply (flag_zero_means_unchanged []
           (plain [("_id", VStr "1"); ("name", VStr "john")])
           (VObj [("$inc", VObj [("name", VNum 1)]);
                  ("$rename", VObj [("_id", VStr "id")]);
                  ("$enlarge", VObj [("name", VNum 2)])])).
  reflexivity.
Defined.

(** ** [remove] and [update] that report 0 *)

Lemma updateEach_zero update : forall ids db proto n db' proto',
  JsonDB.updateEach db proto update ids n = (db', proto', Ok 0) ->
  db' = db /\ proto' = proto /\ n = 0.
Proof.
  induction ids as [|id rest IH]; intros db proto n db' proto';
    cbn [JsonDB.updateEach].
  - intros [= <- <- <-]. now repeat split.
  - destruct (lookup id db) as [doc|] eqn:El.
    + destruct (dbUpdate proto doc update) as [doc' [m| |]] eqn:Eu;
        [|discriminate|discriminate].
      intros H. destruct (IH _ _ _ _ _ H) as (-> & -> & Hn).
      assert (n = 0 /\ m = 0) as [-> ->] by lia.
      apply dbUpdate_zero in Eu. subst doc'.
      repeat split. now apply setProp_same.
    + destruct (id =? "__proto__"); [|discriminate].
      destruct (dbUpdate proto (mkDoc Root proto) update)
        as [doc' [m| |]] eqn:Eu; [|discriminate|discriminate].
      intros H. destruct (IH _ _ _ _ _ H) as (-> & -> & Hn).
      assert (n = 0 /\ m = 0) as [-> ->] by lia.
      apply dbUpdate_zero in Eu. subst doc'. now repeat split.
Qed.

(** X10: a call of [remove] or [update] that returns 0 has changed
    nothing: the store, what [Object.prototype] holds, the texts handed to
    the file writer and the rest of the state are as before. *)
Theorem zero_result_means_untouched_state (host : Host) (st st' : State)
  (query upd options : value) :
  (JsonDB.remove host st query options = (st', Ok 0) -> st' = st) /\
  (JsonDB.update host st query upd options = (st', Ok 0) -> st' = st).
Proof.
  split.
  - unfold JsonDB.remove.
    destruct (dbQuery host (objProto st) (docMap st) query) as [ids| |];
      [|discriminate|discriminate].
    destruct (Nat.eqb (List.length ids) 0) eqn:E0; [now intros [= <-]|].
    destruct (Nat.ltb 1 (List.length ids)
              && negb (truthy (optProp (objProto st) options "multi")));
      [now intros [= <-]|].
    intros [= _ Hlen]. rewrite Hlen in E0. discriminate.
  - unfold JsonDB.update.
    destruct (dbQuery host (objProto st) (docMap st) query) as [ids| |];
      [|discriminate|discriminate].
    destruct (Nat.eqb (List.length ids) 0); [now intros [= <-]|].
    destruct (Nat.ltb 1 (List.length ids)
              && negb (truthy (optProp (objProto st) options "multi")));
      [now intros [= <-]|].
    destruct (JsonDB.updateEach (docMap st) (objProto st) upd ids 0)
      as [[db' proto'] [n| |]] eqn:Eu; [|discriminate|discriminate].
    destruct (Nat.ltb 0 n && negb (truthy (optProp proto' options "skipSave")))
      eqn:Es.
    + intros [= _ ->]. discriminate.
    + intros [= <- ->]. apply updateEach_zero in Eu as (-> & -> & _).
      apply state_eta.
Qed.

Lemma zero_result_means_untouched_state_witness :
  mkState testStore [] [] 0 = mkState testStore [] [] 0.
Proof.
  apply (proj1 (zero_result_means_untouched_state literalHost
                  (mkState testStore [] [] 0) (mkState testStore [] [] 0)
                  (VObj [("val", VObj [("$gte", VNum 2)])])
                  VUndef (VObj []))).
  reflexivity.
Defined.

(** ** What [update] leaves alone *)

Lemma updateEach_frame update : forall ids db proto n,
  keys (fst (fst (JsonDB.updateEach db proto update ids n))) = keys db /\
  forall id, ~ In id ids ->
    lookup id (fst (fst (JsonDB.updateEach db proto update ids n)))
    = lookup id db.
Proof.
  induction ids as [|id rest IH]; intros db proto n; cbn [JsonDB.updateEach].
  - now split.
  - destruct (lookup id db) as [doc|] eqn:El.
    + destruct (dbUpdate proto doc update) as [doc' [m| |]].
      * destruct (IH (setProp id doc' db) proto (n + m)) as [Hk Hl]. split.
        -- rewrite Hk. exact (keys_setProp_present id doc' db doc El).
        -- intros id' Hout. rewrite Hl by (intros H; apply Hout; now right).
           apply lookup_setProp_other. intros ->. apply Hout. now left.
      * cbn [fst]. split.
        -- exact (keys_setProp_present id doc' db doc El).
        -- intros id' Hout. apply lookup_setProp_other.
           intros ->. apply Hout. now left.
      * cbn [fst]. split.
        -- exact (keys_setProp_present id doc' db doc El).
        -- intros id' Hout. apply lookup_setProp_other.
           intros ->. apply Hout. now left.
    + destruct (id =? "__proto__"); [|now split].
      destruct (dbUpdate proto (mkDoc Root proto) update)
        as [doc' [m| |]]; [|now split|now split].
      destruct (IH db (fields doc') (n + m)) as [Hk Hl]. split; [exact Hk|].
      intros id' Hout. apply Hl. intros H. apply Hout. now right.
Qed.

(** X11: [update] never adds or removes a document and touches only the
    documents of the match set: whatever the update does, and whether the
    call returns or throws, the keys of the store and their order are
    kept, and every document whose id [dbQuery] did not return is left as
    it was. *)
Theorem update_keeps_keys_and_other_documents (host : Host) (st : State)
  (query upd options : value) (ids : list string) :
  dbQuery host (objProto st) (docMap st) query = Ok ids ->
  keys (docMap (fst (JsonDB.update host st query upd options)))
  = keys (docMap st) /\
  forall id, ~ In id ids ->
    lookup id (docMap (fst (JsonDB.update host st query upd options)))
    = lookup id (docMap st).
Proof.
  intros Hq. unfold JsonDB.update. rewrite Hq.
  destruct (Nat.eqb (List.length ids) 0); [now split|].
  destruct (Nat.ltb 1 (List.length ids)
            && negb (truthy (optProp (objProto st) options "multi")));
    [now split|].
  pose proof (updateEach_frame upd ids (docMap st) (objProto st) 0)
    as [Hk Hl].
  destruct (JsonDB.updateEach (docMap st) (objProto st) upd ids 0)
    as [[db' proto'] [n| |]]; cbn [fst] in Hk, Hl.
  - destruct (Nat.ltb 0 n
              && negb (truthy (optProp proto' options "skipSave")));
      now split.
  - now split.
  - now split.
Qed.

Lemma update_keeps_keys_and_other_documents_witness :
  keys (docMap (fst (JsonDB.update literalHost (mkState testStore [] [] 0)
                       (VObj [("val", VObj [("$lt", VNum 3)])])
                       (VObj [("$unset", VObj [("name", VNum 1)])])
                       (VObj [("multi", VBool true)]))))
  = keys testStore.
Proof.
  apply (update_keeps_keys_and_other_documents literalHost
           (mkState testStore [] [] 0)
           (VObj [("val", VObj [("$lt", VNum 3)])])
           (VObj [("$unset", VObj [("name", VNum 1)])])
           (VObj [("multi", VBool true)]) ["1"; "2"]).
  reflexivity.
Defined.

(** ** The update operators, one at a time *)

Lemma getField_setProp_same proto kd k v o :
  getField proto (mkDoc kd (setProp k v o)) k = v.
Proof.
  unfold getField. cbn [fields]. now rewrite lookup_setProp_same.
Qed.

Lemma getField_setProp_other proto kd k g v o :
  g <> k ->
  getField proto (mkDoc kd (setProp k v o)) g = getField proto (mkDoc kd o) g.
Proof.
  intros Hne. unfold getField. cbn [fields kind].
  rewrite lookup_setProp_other by congruence. reflexivity.
Qed.

Lemma getField_deleteProp_same proto kd k o :
  getField proto (mkDoc kd (deleteProp k o)) k
  = getField proto (mkDoc kd []) k.
Proof.
  unfold getField. cbn [fields kind lookup].
  now rewrite lookup_deleteProp_same.
Qed.

Lemma getField_deleteProp_other proto kd k g o :
  g <> k ->
  getField proto (mkDoc kd (deleteProp k o)) g = getField proto (mkDoc kd o) g.
Proof.
  intros Hne. unfold getField. cbn [fields kind].
  rewrite lookup_deleteProp_other by congruence. reflexivity.
Qed.

(** An assignment under a name other than [__proto__] to a document of a
    store overwrites or creates an own property. *)
Lemma assign_store doc k v :
  kind doc <> Root -> k <> "__proto__" ->
  assign doc k v = Ok (mkDoc (kind doc) (setProp k v (fields doc))).
Proof.
  intros Hk Hp. apply String.eqb_neq in Hp. unfold assign.
  destruct (lookup k (fields doc)); [reflexivity|].
  destruct (kind doc); [now rewrite Hp|reflexivity|congruence].
Qed.

(** So does an assignment under a name under which the document reads
    data other than [null]. *)
Lemma assign_over_data proto doc k v :
  cloneable (getField proto doc k) = true ->
  isNull (getField proto doc k) = false ->
  assign doc k v = Ok (mkDoc (kind doc) (setProp k v (fields doc))).
Proof.
  unfold getField, assign.
  destruct (lookup k (fields doc)); [reflexivity|].
  destruct (kind doc); [| reflexivity |].
  - unfold inherited. destruct (k =? "__proto__"); [discriminate|reflexivity].
  - unfold rootMember. destruct (k =? "__proto__"); [discriminate|].
    cbn [orb]. destruct (isBuiltinMember k); [discriminate|reflexivity].
Qed.

Lemma deleteField_store doc k :
  kind doc <> Root ->
  deleteField doc k = Ok (mkDoc (kind doc) (deleteProp k (fields doc))).
Proof.
  intros Hk. unfold deleteField.
  destruct (lookup k (fields doc)); [reflexivity|].
  destruct (kind doc); congruence.
Qed.

Lemma dbUpdate_one_operator proto operator step doc operand :
  operatorStep proto operator = Some step ->
  dbUpdate proto doc (VObj [(operator, VObj operand)])
  = applyFields step doc 0 operand.
Proof.
  intros Hs. unfold dbUpdate.
  cbn [notPlainObject typeof jstype_eqb negb isArray isNull orb
       keys map List.length Nat.eqb applyOperators entries].
  rewrite Hs.
  destruct (applyFields step doc 0 operand) as [doc' [n| |]]; reflexivity.
Qed.

Lemma dbUpdate_single proto operator step doc field x :
  operatorStep proto operator = Some step ->
  dbUpdate proto doc (VObj [(operator, VObj [(field, x)])])
  = match step doc field x with
    | Ok (doc', changed) => (doc', Ok (if changed then 1 else 0))
    | Throw e => (doc, Throw e)
    | Unmodelled => (doc, Unmodelled)
    end.
Proof.
  intros Hs. rewrite (dbUpdate_one_operator proto operator step) by exact Hs.
  cbn [applyFields].
  destruct (step doc field x) as [[doc' changed]| |]; reflexivity.
Qed.

Lemma applyFields_set proto : forall operand doc n,
  kind doc <> Root ->
  NoDup (keys operand) ->
  cloneable (VObj operand) = true ->
  ~ In "__proto__" (keys operand) ->
  exists doc' n',
    applyFields setField doc n operand = (doc', Ok n') /\
    kind doc' = kind doc /\
    (forall f v, In (f, v) operand -> f <> "_id" ->
                 getField proto doc' f = v) /\
    (forall g, ~ In g (keys operand) \/ g = "_id" ->
       getField proto doc' g = getField proto doc g).
Proof.
  induction operand as [|[f v] rest IH]; intros doc n Hkind Hnd Hdata Hproto.
  - exists doc, n. repeat split; auto. intros f v [].
  - change (keys ((f, v) :: rest)) with (f :: keys rest) in *.
    inversion Hnd as [|? ? Hnot Hnd']; subst.
    cbn [cloneable forallb snd] in Hdata.
    apply andb_true_iff in Hdata as [Hv Hrest].
    assert (Hproto' : ~ In "__proto__" (keys rest))
      by (intros H; apply Hproto; now right).
    cbn [applyFields]. unfold setField at 1.
    destruct (String.eqb_spec f "_id") as [->|Hf].
    + destruct (IH doc n Hkind Hnd' Hrest Hproto')
        as (doc' & n' & Hrun & Hk & Hin & Hout).
      exists doc', n'. split; [exact Hrun|]. split; [exact Hk|]. split.
      * intros f' v' [[= <- <-]|H] Hne; [congruence | eauto].
      * intros g [Hg| ->]; apply Hout; [|now right].
        left. intros H. apply Hg. now right.
    + rewrite (structuredClone_data v Hv). cbn [bind].
      rewrite assign_store;
        [|exact Hkind|intros ->; apply Hproto; now left].
      cbn [bind].
      destruct (IH (mkDoc (kind doc) (setProp f v (fields doc))) 1
                  Hkind Hnd' Hrest Hproto')
        as (doc' & n' & Hrun & Hk & Hin & Hout).
      exists doc', n'. split; [exact Hrun|]. split; [exact Hk|]. split.
      * intros f' v' [[= <- <-]|H] Hne; [|eauto].
        rewrite Hout by now left. apply getField_setProp_same.
      * intros g Hg. rewrite Hout.
        -- rewrite getField_setProp_other; [now rewrite doc_eta|].
           intros ->.
           destruct Hg as [Hg|Hg]; [apply Hg; now left | congruence].
        -- destruct Hg as [Hg|Hg]; [left|now right].
           intros H. apply Hg. now right.
Qed.

(** X12: [{$set: operand}] on a document of a store, with distinct field
    names none of which is [__proto__], and data values, returns a flag;
    afterwards every listed field other than [_id] reads back the value
    given for it, while [_id] and every field that is not listed read as
    before, own or inherited. *)
Theorem set_fields_read_back (proto : obj) (doc : Doc) (operand : obj) :
  kind doc <> Root ->
  NoDup (keys operand) ->
  cloneable (VObj operand) = true ->
  ~ In "__proto__" (keys operand) ->
  exists doc' n,
    dbUpdate proto doc (VObj [("$set", VObj operand)]) = (doc', Ok n) /\
    kind doc' = kind doc /\
    (forall f v, In (f, v) operand -> f <> "_id" ->
                 getField proto doc' f = v) /\
    (forall g, ~ In g (keys operand) \/ g = "_id" ->
       getField proto doc' g = getField proto doc g).
Proof.
  intros Hkind Hnd Hdata Hproto.
  destruct (applyFields_set proto operand doc 0 Hkind Hnd Hdata Hproto)
    as (doc' & n' & Hrun & Hk & Hin & Hout).
  exists doc', n'. split; [|now repeat split].
  now rewrite (dbUpdate_one_operator proto "$set" setField) by reflexivity.
Qed.

Lemma set_fields_read_back_witness :
  exists doc' n,
    dbUpdate [] (plain [("_id", VStr "1"); ("val", VNum 1)])
      (VObj [("$set", VObj [("val", VNum 2); ("_id", VStr "9");
                            ("tag", VStr "x")])])
    = (doc', Ok n) /\
    getField [] doc' "val" = VNum 2 /\
    getField [] doc' "tag" = VStr "x" /\
    getField [] doc' "_id" = VStr "1".
Proof.
  destruct (set_fields_read_back []
              (plain [("_id", VStr "1"); ("val", VNum 1)])
              [("val", VNum 2); ("_id", VStr "9"); ("tag", VStr "x")])
    as (doc' & n & Hrun & _ & Hin & Hout).
  - discriminate.
  - repeat constructor; cbn; intuition discriminate.
  - reflexivity.
  - cbn. intuition discriminate.
  - exists doc', n. split; [exact Hrun|]. repeat split.
    + apply Hin; [now left|discriminate].
    + apply Hin; [right; right; now left|discriminate].
    + rewrite Hout by now right. reflexivity.
Defined.

(** X13: on a document of a store, setting a field that the document
    does not have, to a data value other than [undefined], and then
    unsetting it with a truthy flag gives the document back exactly as it
    was, fields and order; both calls return the flag 1.  The field is
    neither [_id] nor [__proto__], whose assignment sets the prototype. *)
Theorem set_then_unset_restores (proto : obj) (doc : Doc) (f : string)
  (v flag : value) :
  kind doc <> Root ->
  f <> "_id" ->
  f <> "__proto__" ->
  ~ In f (keys (fields doc)) ->
  cloneable v = true ->
  isUndefined v = false ->
  truthy flag = true ->
  exists doc1,
    dbUpdate proto doc (VObj [("$set", VObj [(f, v)])]) = (doc1, Ok 1) /\
    dbUpdate proto doc1 (VObj [("$unset", VObj [(f, flag)])]) = (doc, Ok 1).
Proof.
  intros Hkind Hf Hp Hfresh Hv Hdef Hflag. apply String.eqb_neq in Hf.
  apply lookup_none_iff in Hfresh.
  exists (mkDoc (kind doc) (setProp f v (fields doc))). split.
  - rewrite (dbUpdate_single proto "$set" setField) by reflexivity.
    unfold setField. rewrite Hf, (structuredClone_data v Hv). cbn [bind].
    now rewrite assign_store.
  - rewrite (dbUpdate_single proto "$unset" (unsetField proto))
      by reflexivity.
    unfold unsetField. rewrite Hf, Hflag, getField_setProp_same, Hdef.
    cbn [negb andb]. rewrite deleteField_store by exact Hkind.
    cbn [bind kind fields].
    now rewrite deleteProp_setProp_fresh, doc_eta.
Qed.

Lemma set_then_unset_restores_witness :
  exists doc1,
    dbUpdate [] (plain [("_id", VStr "1")])
      (VObj [("$set", VObj [("val", VNum 2)])])
    = (doc1, Ok 1) /\
    dbUpdate [] doc1 (VObj [("$unset", VObj [("val", VBool true)])])
    = (plain [("_id", VStr "1")], Ok 1).
Proof.
  apply (set_then_unset_restores [] (plain [("_id", VStr "1")]) "val"
           (VNum 2) (VBool true)).
  - discriminate.
  - discriminate.
  - discriminate.
  - cbn; intuition discriminate.
  - reflexivity.
  - reflexivity.
  - reflexivity.
Defined.

(** X14: [{$rename: {f: name}}] moves a field or refuses.  On a document
    of a store, when [f] is not [_id], the document reads data other than
    [undefined] under [f] and [undefined] under [name], the call returns
    1; [name] then reads the value that [f] read, [f] reads what the
    document inherits under it, and every other field reads as before.
    When [f] is [_id], or the document reads something under [name], or
    nothing under [f], or the new name is not a string, the call returns 0
    and the document is as it was. *)
Theorem rename_moves_or_refuses (proto : obj) (doc : Doc) (f name : string)
  (x : value) :
  (kind doc <> Root ->
   f <> "_id" ->
   isUndefined (getField proto doc name) = true ->
   isUndefined (getField proto doc f) = false ->
   cloneable (getField proto doc f) = true ->
   exists doc',
     dbUpdate proto doc (VObj [("$rename", VObj [(f, VStr name)])])
     = (doc', Ok 1) /\
     getField proto doc' name = getField proto doc f /\
     getField proto doc' f = getField proto (mkDoc (kind doc) []) f /\
     (forall g, g <> f -> g <> name ->
                getField proto doc' g = getField proto doc g)) /\
  (f = "_id" \/ isUndefined (getField proto doc name) = false
   \/ isUndefined (getField proto doc f) = true ->
   dbUpdate proto doc (VObj [("$rename", VObj [(f, VStr name)])])
   = (doc, Ok 0)) /\
  ((forall s, x <> VStr s) ->
   dbUpdate proto doc (VObj [("$rename", VObj [(f, x)])]) = (doc, Ok 0)).
Proof.
  rewrite !(dbUpdate_single proto "$rename" (renameField proto))
    by reflexivity.
  unfold renameField. repeat split.
  - intros Hkind Hf Hname Hdef Hdata. apply String.eqb_neq in Hf as Hfb.
    rewrite Hfb, Hname, Hdef, (structuredClone_data _ Hdata).
    cbn [negb bind].
    assert (Hne : name <> f).
    { intros ->. rewrite Hname in Hdef. discriminate. }
    rewrite (assign_over_data proto doc name).
    + cbn [bind]. rewrite deleteField_store by exact Hkind.
      cbn [bind kind fields].
      eexists. split; [reflexivity|]. repeat split.
      * rewrite getField_deleteProp_other by congruence.
        apply getField_setProp_same.
      * rewrite getField_deleteProp_same. reflexivity.
      * intros g Hg1 Hg2. rewrite getField_deleteProp_other by congruence.
        rewrite getField_setProp_other by congruence.
        now rewrite doc_eta.
    + now destruct (getField proto doc name).
    + now destruct (getField proto doc name).
  - intros [->|[Hname|Hundef]]; [reflexivity| |].
    + destruct (f =? "_id"); [reflexivity|]. now rewrite Hname.
    + destruct (f =? "_id"); [reflexivity|].
      destruct (negb (isUndefined (getField proto doc name)));
        [reflexivity|].
      now rewrite Hundef.
  - intros Hx. destruct (f =? "_id"); [reflexivity|].
    destruct x; try reflexivity. now elim (Hx s).
Qed.

Lemma rename_moves_or_refuses_witness :
  exists doc',
    dbUpdate [] (plain [("_id", VStr "1"); ("val", VNum 1)])
      (VObj [("$rename", VObj [("val", VStr "count")])]) = (doc', Ok 1) /\
    getField [] doc' "count" = VNum 1 /\
    getField [] doc' "val" = VUndef.
Proof.
  destruct (proj1 (rename_moves_or_refuses []
                     (plain [("_id", VStr "1"); ("val", VNum 1)])
                     "val" "count" VNull))
    as (doc' & Hrun & Hname & Hf & _).
  - discriminate.
  - discriminate.
  - reflexivity.
  - reflexivity.
  - reflexivity.
  - exists doc'. split; [exact Hrun|]. split; [exact Hname|exact Hf].
Defined.

(** X15: [{$inc: {f: delta}}] with a numeric [delta] creates the field with
    the value [delta] when the document reads [undefined] under [f], and
    stores the sum when it reads a number, own or inherited; in both
    cases it returns 1 and the other fields read as before.  On a field
    that reads a value of any other type, or with a [delta] that is not a
    number, it returns 0 and the document is as it was. *)
Theorem inc_creates_adds_or_refuses (proto : obj) (doc : Doc) (f : string)
  (d : float) (delta : value) :
  (getField proto doc f = VUndef ->
   dbUpdate proto doc (VObj [("$inc", VObj [(f, VNum d)])])
   = (mkDoc (kind doc) (setProp f (VNum d) (fields doc)), Ok 1)) /\
  (forall x, getField proto doc f = VNum x ->
   dbUpdate proto doc (VObj [("$inc", VObj [(f, VNum d)])])
   = (mkDoc (kind doc) (setProp f (VNum (x + d)%float) (fields doc)),
      Ok 1)) /\
  (jstype_eqb (typeof (getField proto doc f)) TNumber = false ->
   jstype_eqb (typeof (getField proto doc f)) TUndefined = false ->
   dbUpdate proto doc (VObj [("$inc", VObj [(f, VNum d)])]) = (doc, Ok 0)) /\
  (jstype_eqb (typeof delta) TNumber = false ->
   dbUpdate proto doc (VObj [("$inc", VObj [(f, delta)])]) = (doc, Ok 0)) /\
  (forall v g, g <> f ->
     getField proto (mkDoc (kind doc) (setProp f v (fields doc))) g
     = getField proto doc g).
Proof.
  rewrite !(dbUpdate_single proto "$inc" (incField proto)) by reflexivity.
  unfold incField. repeat split.
  - intros H. rewrite H, (assign_over_data proto doc f);
      [reflexivity|now rewrite H|now rewrite H].
  - intros x H. rewrite H, (assign_over_data proto doc f);
      [reflexivity|now rewrite H|now rewrite H].
  - destruct (getField proto doc f); cbn; intros; congruence.
  - destruct delta; cbn; intros; congruence.
  - intros v g Hg. rewrite getField_setProp_other by exact Hg.
    now rewrite doc_eta.
Qed.

Lemma inc_creates_adds_or_refuses_witness :
  dbUpdate [] (plain [("_id", VStr "1")])
    (VObj [("$inc", VObj [("x", VNum 5)])])
  = (mkDoc Plain (setProp "x" (VNum 5) [("_id", VStr "1")]), Ok 1).
Proof.
  apply (inc_creates_adds_or_refuses [] (plain [("_id", VStr "1")]) "x"
           5%float VNull).
  reflexivity.
Defined.

(** X16: [{$push: {f: v}}] with a data value creates the array [[v]] when
    the document reads [undefined] under [f], and appends [v] to the array
    that it holds under [f], returning 1; on a field that reads anything
    else it returns 0 and the document is as it was; and a value that
    holds a function makes the call throw a [DataCloneError] with the
    document as it was. *)
Theorem push_creates_appends_or_refuses (proto : obj) (doc : Doc)
  (f : string) (v : value) :
  (cloneable v = true -> getField proto doc f = VUndef ->
   dbUpdate proto doc (VObj [("$push", VObj [(f, v)])])
   = (mkDoc (kind doc) (setProp f (VArr [v]) (fields doc)), Ok 1)) /\
  (forall items, cloneable v = true ->
   lookup f (fields doc) = Some (VArr items) ->
   dbUpdate proto doc (VObj [("$push", VObj [(f, v)])])
   = (mkDoc (kind doc) (setProp f (VArr (items ++ [v])) (fields doc)),
      Ok 1)) /\
  (isUndefined (getField proto doc f) = false ->
   isArray (getField proto doc f) = false ->
   dbUpdate proto doc (VObj [("$push", VObj [(f, v)])]) = (doc, Ok 0)) /\
  (hasFunction v = true ->
   isUndefined (getField proto doc f) = true
   \/ isArray (getField proto doc f) = true ->
   dbUpdate proto doc (VObj [("$push", VObj [(f, v)])])
   = (doc, Throw DataCloneError)).
Proof.
  rewrite !(dbUpdate_single proto "$push" (pushField proto)) by reflexivity.
  unfold pushField. repeat split.
  - intros Hv H. rewrite H, (structuredClone_data v Hv). cbn [bind].
    rewrite (assign_over_data proto doc f);
      [reflexivity|now rewrite H|now rewrite H].
  - intros items Hv H. rewrite (getField_own proto doc f _ H).
    rewrite (structuredClone_data v Hv). cbn [bind]. now rewrite H.
  - destruct (getField proto doc f); cbn; intros; congruence.
  - intros Hv [H|H]; rewrite (structuredClone_function v Hv);
      destruct (getField proto doc f); cbn in *; congruence.
Qed.

Lemma push_creates_appends_or_refuses_witness :
  dbUpdate [] (plain [("_id", VStr "1"); ("vals", VArr [VNum 1])])
    (VObj [("$push", VObj [("vals", VNum 5)])])
  = (mkDoc Plain (setProp "vals" (VArr ([VNum 1] ++ [VNum 5]))
                    [("_id", VStr "1"); ("vals", VArr [VNum 1])]), Ok 1).
Proof.
  apply (push_creates_appends_or_refuses []
           (plain [("_id", VStr "1"); ("vals", VArr [VNum 1])])
           "vals" (VNum 5)).
  - reflexivity.
  - reflexivity.
Defined.

(** ** Insertion and retrieval *)

Lemma findOne_by_id host st id doc :
  id <> "" ->
  lookup id (docMap st) = Some doc ->
  isData doc = true ->
  JsonDB.findOne host st (idQuery id) VUndef = Ok (VObj (fields doc)).
Proof.
  intros Hne Hl Hdata. unfold JsonDB.findOne.
  rewrite dbQueryOne_id. unfold hasDoc. rewrite Hl. cbn [bind].
  apply String.eqb_neq in Hne. rewrite Hne. unfold docAt. rewrite Hl.
  cbn [bind].
  change (dbProjection (objProto st) doc (JsonDB.orEmpty VUndef))
    with (c <- cloneDoc (fields doc) ;; Ok (VObj c)).
  unfold cloneDoc, structuredClone. unfold isData in Hdata.
  now rewrite Hdata.
Qed.

Lemma insert_with_id_stored (host : Host) (draw : nat -> nat)
  (fuel : nat) (st : State) (d : obj) (id : string) (options : value) :
  getProp (objProto st) d "_id" = VStr id ->
  id <> "" ->
  hasDoc (objProto st) (docMap st) id = false ->
  cloneable (VObj d) = true ->
  exists st',
    JsonDB.insert host draw fuel st (VObj d) options = Some (st', Ok id) /\
    docMap st' = setProp id (plain d) (docMap st) /\
    objProto st' = objProto st.
Proof.
  intros Hget Hne Hfresh Hdata.
  unfold JsonDB.insert, dbInsert.
  cbn [notPlainObject typeof jstype_eqb negb isArray isNull orb].
  rewrite (hasExplicitId_true _ d id Hget Hne).
  unfold insertDocWithId, cloneDoc, structuredClone.
  rewrite Hget, Hfresh, Hdata. cbn [bind].
  apply String.eqb_neq in Hne. rewrite Hne. cbn [negb andb].
  destruct (negb (truthy (optProp (objProto st) options "skipSave")));
    eexists; repeat split; reflexivity.
Qed.

(** X17: inserting a plain object that holds data only and reads a
    non-empty string under [_id], when the store has no document under
    that id and inherits nothing truthy under it, returns the id and
    stores the object under it: at the end of the store when the id is no
    array index, and at the place of that index otherwise.  Every other
    key keeps its document, [findOne] by that id then returns the
    document, and inserting it a second time returns the empty id and
    changes nothing. *)
Theorem insert_with_id_then_find (host : Host) (draw : nat -> nat)
  (fuel : nat) (st : State) (d : obj) (id : string) (options : value) :
  getProp (objProto st) d "_id" = VStr id ->
  id <> "" ->
  hasDoc (objProto st) (docMap st) id = false ->
  cloneable (VObj d) = true ->
  exists st',
    JsonDB.insert host draw fuel st (VObj d) options = Some (st', Ok id) /\
    docMap st' = setProp id (plain d) (docMap st) /\
    (arrayIndex id = None -> docMap st' = docMap st ++ [(id, plain d)]) /\
    (forall k, k <> id -> lookup k (docMap st') = lookup k (docMap st)) /\
    JsonDB.findOne host st' (idQuery id) VUndef = Ok (VObj d) /\
    JsonDB.insert host draw fuel st' (VObj d) options = Some (st', Ok "").
Proof.
  intros Hget Hne Hfresh Hdata.
  assert (Hnone : lookup id (docMap st) = None).
  { unfold hasDoc in Hfresh. now destruct (lookup id (docMap st)). }
  destruct (insert_with_id_stored host draw fuel st d id options
              Hget Hne Hfresh Hdata) as (st' & Hrun & Hmap & Hproto).
  assert (Hl : lookup id (docMap st') = Some (plain d))
    by (rewrite Hmap; apply lookup_setProp_same).
  exists st'. split; [exact Hrun|]. split; [exact Hmap|]. split.
  - intros Hidx. rewrite Hmap. now apply setProp_fresh.
  - split.
    + intros k Hk. rewrite Hmap. apply lookup_setProp_other. congruence.
    + split; [now apply (findOne_by_id host st' id (plain d))|].
      unfold JsonDB.insert, dbInsert.
      cbn [notPlainObject typeof jstype_eqb negb isArray isNull orb].
      rewrite Hproto, (hasExplicitId_true _ d id Hget Hne).
      unfold insertDocWithId, hasDoc. rewrite Hget, Hl.
      cbn [String.eqb negb andb]. rewrite <- Hproto. now rewrite state_eta.
Qed.

Lemma insert_with_id_then_find_witness :
  exists st',
    JsonDB.insert literalHost (fun n => n) 1 (mkState testStore [] [] 0)
      (VObj [("_id", VStr "abc"); ("val", VNum 4)]) VUndef
    = Some (st', Ok "abc") /\
    docMap st'
    = testStore ++ [("abc", plain [("_id", VStr "abc"); ("val", VNum 4)])] /\
    JsonDB.findOne literalHost st' (idQuery "abc") VUndef
    = Ok (VObj [("_id", VStr "abc"); ("val", VNum 4)]) /\
    JsonDB.insert literalHost (fun n => n) 1 st'
      (VObj [("_id", VStr "abc"); ("val", VNum 4)]) VUndef
    = Some (st', Ok "").
Proof.
  destruct (insert_with_id_then_find literalHost (fun n => n) 1
              (mkState testStore [] [] 0)
              [("_id", VStr "abc"); ("val", VNum 4)] "abc" VUndef)
    as (st' & Hrun & _ & Happ & _ & Hfind & Hagain).
  - reflexivity.
  - discriminate.
  - reflexivity.
  - reflexivity.
  - exists st'. repeat split; auto.
Defined.

Lemma digitsValue_lower : forall (s : string) (acc n : N),
  digitsValue s acc = Some n ->
  (acc * 10 ^ N.of_nat (String.length s) <= n)%N.
Proof.
  induction s as [|c r IH]; intros acc n; cbn [digitsValue String.length].
  - intros [= <-]. cbn. lia.
  - destruct (digitOf c) as [d|]; [|discriminate].
    intros H. apply IH in H.
    rewrite Nat2N.inj_succ, N.pow_succ_r'. nia.
Qed.

Lemma digitOf_zero c : digitOf c = Some 0%N -> c = "0"%char.
Proof.
  unfold digitOf.
  destruct (N.leb 48 (N_of_ascii c) && N.leb (N_of_ascii c) 57) eqn:E;
    [|discriminate].
  apply andb_true_iff in E as [H1 H2].
  apply N.leb_le in H1. apply N.leb_le in H2.
  intros [= H].
  assert (Hc : N_of_ascii c = 48%N) by lia.
  rewrite <- (ascii_N_embedding c), Hc. reflexivity.
Qed.

(** A key of more than ten characters is no array index. *)
Lemma arrayIndex_long k : 10 < String.length k -> arrayIndex k = None.
Proof.
  destruct k as [|c r]; [reflexivity|]. cbn [String.length]. intros Hlen.
  unfold arrayIndex.
  destruct (Ascii.eqb c "0" && negb (r =? "")) eqn:E0; [reflexivity|].
  destruct (digitsValue (String c r) 0) as [n|] eqn:Ed; [|reflexivity].
  cbn [digitsValue] in Ed.
  destruct (digitOf c) as [d|] eqn:Ec; [|discriminate].
  apply digitsValue_lower in Ed.
  assert (Hd : (1 <= d)%N).
  { destruct (N.eq_dec d 0) as [->|]; [|lia].
    apply digitOf_zero in Ec. subst c. cbn [Ascii.eqb] in E0.
    destruct r; [cbn in Hlen; lia|discriminate]. }
  assert (Hpow : (10 ^ 10 <= 10 ^ N.of_nat (String.length r))%N)
    by (apply N.pow_le_mono_r; lia).
  destruct (N.leb_spec n 4294967294); [|reflexivity].
  change (10 ^ 10)%N with 10000000000%N in Hpow. nia.
Qed.

Lemma cloneable_setProp (o : obj) k v :
  cloneable (VObj o) = true -> cloneable v = true ->
  cloneable (VObj (setProp k v o)) = true.
Proof.
  cbn [cloneable]. rewrite !forallb_forall. intros Ho Hv.
  apply Forall_forall.
  apply (Forall_setProp (fun kv => cloneable (snd kv) = true));
    [now apply Forall_forall|exact Hv].
Qed.

(** X18: inserting a plain object that holds data only and reads no
    usable [_id], when every draw is an index of the alphabet and one of
    the first [fuel] attempts yields an id under which the store has and
    inherits nothing, returns a 16-character id that was not a key,
    appends under it the document with its [_id] set to that id and its
    other fields as given, and [findOne] by that id returns the stored
    document. *)
Theorem insert_generates_id_then_find (host : Host) (draw : nat -> nat)
  (fuel k : nat) (st : State) (d : obj) (options : value) :
  (forall n, draw n < String.length alphabet) ->
  hasExplicitId (objProto st) d = false ->
  cloneable (VObj d) = true ->
  isFree (objProto st) (docMap st) (uid draw 16 (drawn st + 16 * k)) = true ->
  k < fuel ->
  exists st' id,
    JsonDB.insert host draw fuel st (VObj d) options = Some (st', Ok id) /\
    String.length id = 16 /\
    ~ In id (keys (docMap st)) /\
    docMap st'
    = docMap st ++ [(id, plain (setProp "_id" (VStr id) d))] /\
    lookup "_id" (setProp "_id" (VStr id) d) = Some (VStr id) /\
    (forall g, g <> "_id" ->
       lookup g (setProp "_id" (VStr id) d) = lookup g d) /\
    JsonDB.findOne host st' (idQuery id) VUndef
    = Ok (VObj (setProp "_id" (VStr id) d)).
Proof.
  intros Hrange Hno Hdata Hfree Hk.
  destruct (makeId_terminates draw (objProto st) (docMap st) k fuel
              (drawn st) Hfree Hk) as (id & drawn' & Hmake).
  destruct (makeId_attempt draw (objProto st) fuel (docMap st) _ _ _ Hmake)
    as (j & Hid & _ & Hunused & _).
  destruct (uid_chars draw Hrange 16 (drawn st + 16 * j)) as [Hlen _].
  rewrite <- Hid in Hlen.
  assert (Hne : id <> "") by (intros ->; discriminate).
  assert (Hnone : lookup id (docMap st) = None)
    by (now apply (isFree_not_key (objProto st))).
  assert (Hins : exists st',
             JsonDB.insert host draw fuel st (VObj d) options
             = Some (st', Ok id) /\
             docMap st'
             = setProp id (plain (setProp "_id" (VStr id) d)) (docMap st)).
  { unfold JsonDB.insert, dbInsert.
    cbn [notPlainObject typeof jstype_eqb negb isArray isNull orb].
    rewrite Hno. unfold insertDoc, cloneDoc, structuredClone.
    rewrite Hmake, Hdata. cbn [bind].
    apply String.eqb_neq in Hne. rewrite Hne. cbn [negb andb].
    destruct (negb (truthy (optProp (objProto st) options "skipSave")));
      eexists; split; reflexivity. }
  destruct Hins as (st' & Hrun & Hmap).
  exists st', id. split; [exact Hrun|]. split; [exact Hlen|].
  split; [now apply lookup_none_iff|].
  split.
  { rewrite Hmap. apply setProp_fresh; [exact Hnone|].
    apply arrayIndex_long. rewrite Hlen. lia. }
  split; [apply lookup_setProp_same|]. split.
  - intros g Hg. apply lookup_setProp_other. congruence.
  - apply (findOne_by_id host st' id
             (plain (setProp "_id" (VStr id) d))); auto.
    + rewrite Hmap. apply lookup_setProp_same.
    + unfold isData, plain. cbn [fields].
      now apply cloneable_setProp.
Qed.

Lemma insert_generates_id_then_find_witness :
  exists st' id,
    JsonDB.insert literalHost (fun _ => 0) 1 (mkState testStore [] [] 0)
      (VObj [("val", VNum 4)]) VUndef = Some (st', Ok id) /\
    String.length id = 16 /\
    docMap st'
    = testStore ++ [(id, plain (setProp "_id" (VStr id) [("val", VNum 4)]))] /\
    JsonDB.findOne literalHost st' (idQuery id) VUndef
    = Ok (VObj (setProp "_id" (VStr id) [("val", VNum 4)])).
Proof.
  destruct (insert_generates_id_then_find literalHost (fun _ => 0) 1 0
              (mkState testStore [] [] 0) [("val", VNum 4)] VUndef)
    as (st' & id & Hrun & Hlen & _ & Hmap & _ & _ & Hfind).
  - intros n. cbn. lia.
  - reflexivity.
  - reflexivity.
  - reflexivity.
  - lia.
  - exists st', id. repeat split; auto.
Defined.

(** ** After [remove] the query matches nothing *)

Lemma in_deleteProp_other {A : Type} (o : list (string * A)) k0 k v :
  In (k, v) (deleteProp k0 o) -> In (k, v) o /\ k <> k0.
Proof.
  induction o as [|[k' v'] r IH]; cbn [deleteProp In]; [tauto|].
  destruct (String.eqb_spec k0 k') as [->|Hne].
  - intros H. destruct (IH H). auto.
  - intros [[= -> ->]|H]; [split; [now left | congruence]|].
    destruct (IH H). auto.
Qed.

Lemma in_deleteAll (db : DocMap) ids k d :
  In (k, d) (JsonDB.deleteAll db ids) -> In (k, d) db /\ ~ In k ids.
Proof.
  unfold JsonDB.deleteAll. revert db.
  induction ids as [|id rest IH]; intros db; cbn [fold_left]; [tauto|].
  intros H. destruct (IH _ H) as [Hin Hout].
  destruct (in_deleteProp_other db id k d Hin) as [Hdb Hne].
  split; [exact Hdb|]. intros [->|Hr]; [congruence | tauto].
Qed.

Lemma scanQuery_evaluations host proto query : forall db ids,
  scanQuery host proto db query = Ok ids ->
  forall k d, In (k, d) db ->
    exists m, evalQuery host proto d query = Ok m /\ (m = true -> In k ids).
Proof.
  induction db as [|[id doc] rest IH]; intros ids; cbn [scanQuery];
    [intros _ k d []|].
  intros H. apply bind_ok in H as (m & Hm & H).
  apply bind_ok in H as (ids' & Hids & H). injection H as <-.
  intros k d [[= -> ->]|Hin].
  - exists m. split; [exact Hm|]. intros ->. now left.
  - destruct (IH ids' Hids k d Hin) as (m' & Hm' & Himp).
    exists m'. split; [exact Hm'|]. intros Ht.
    destruct m; [right|]; auto.
Qed.

Lemma scanQuery_nothing host proto query (db : DocMap) :
  (forall k d, In (k, d) db -> evalQuery host proto d query = Ok false) ->
  scanQuery host proto db query = Ok [].
Proof.
  induction db as [|[id doc] rest IH]; intros H; cbn [scanQuery];
    [reflexivity|].
  rewrite (H id doc (or_introl eq_refl)). cbn [bind].
  rewrite IH; [reflexivity|]. intros k d Hin. apply (H k d). now right.
Qed.

Lemma remove_deletes host st query options ids :
  dbQuery host (objProto st) (docMap st) query = Ok ids ->
  ids <> [] ->
  ~ (1 < List.length ids
     /\ truthy (optProp (objProto st) options "multi") = false) ->
  docMap (fst (JsonDB.remove host st query options))
  = JsonDB.deleteAll (docMap st) ids.
Proof.
  intros Hq Hne Hguard. unfold JsonDB.remove. rewrite Hq.
  destruct ids as [|i r]; [congruence|]. cbn [List.length Nat.eqb].
  assert (Hg : Nat.ltb 1 (S (List.length r))
               && negb (truthy (optProp (objProto st) options "multi"))
               = false).
  { destruct (Nat.ltb 1 (S (List.length r))) eqn:E1; [|reflexivity].
    destruct (truthy (optProp (objProto st) options "multi")) eqn:Em;
      [reflexivity|].
    exfalso. apply Hguard. apply Nat.ltb_lt in E1. now split. }
  rewrite Hg.
  now destruct (negb (truthy (optProp (objProto st) options "skipSave"))).
Qed.

(** X19: [remove] removes all that the query matches: when [dbQuery]
    returns the match set, the store inherits nothing truthy under the
    matched ids, and the call is not refused for want of [multi], running
    the same query on the store left by [remove] returns no id. *)
Theorem after_remove_nothing_matches (host : Host) (st : State)
  (query options : value) (ids : list string) :
  dbQuery host (objProto st) (docMap st) query = Ok ids ->
  (forall id, In id ids -> truthy (inherited (objProto st) id) = false) ->
  ~ (1 < List.length ids
     /\ truthy (optProp (objProto st) options "multi") = false) ->
  dbQuery host (objProto st)
    (docMap (fst (JsonDB.remove host st query options))) query
  = Ok [].
Proof.
  intros Hq Hown Hguard.
  destruct ids as [|i r] eqn:Eids.
  { unfold JsonDB.remove. rewrite Hq. exact Hq. }
  rewrite <- Eids in *.
  assert (Hne : ids <> []) by (rewrite Eids; discriminate).
  rewrite (remove_deletes host st query options ids Hq Hne Hguard).
  revert Hq. unfold dbQuery.
  destruct (validateQuery query) as [[|]| |]; cbn [bind negb];
    [| intros [= <-]; congruence | discriminate | discriminate].
  destruct (Nat.eqb (List.length (keys (queryProps query))) 0).
  { intros [= <-]. f_equal.
    destruct (JsonDB.deleteAll (docMap st) (keys (docMap st)))
      as [|[k d] rest] eqn:E; [reflexivity|].
    assert (Hin : In (k, d) (JsonDB.deleteAll (docMap st) (keys (docMap st))))
      by (rewrite E; now left).
    apply in_deleteAll in Hin as [Hdb Hout]. exfalso. apply Hout.
    unfold keys. apply in_map_iff. now exists (k, d). }
  assert (Hscan : scanQuery host (objProto st) (docMap st) query = Ok ids ->
                  scanQuery host (objProto st)
                    (JsonDB.deleteAll (docMap st) ids) query
                  = Ok []).
  { intros Hs. apply scanQuery_nothing. intros k d Hin.
    apply in_deleteAll in Hin as [Hdb Hout].
    destruct (scanQuery_evaluations host _ query _ _ Hs k d Hdb)
      as (m & Hm & Himp).
    destruct m; [tauto | exact Hm]. }
  destruct (Nat.eqb (List.length (keys (queryProps query))) 1);
    [|exact Hscan].
  destruct (getProp (objProto st) (queryProps query) "_id");
    try exact Hscan.
  destruct (hasDoc (objProto st) (docMap st) s) eqn:Eh; intros [= <-];
    [|congruence].
  unfold hasDoc. rewrite lookup_deleteAll_in by now left.
  now rewrite (Hown s (or_introl eq_refl)).
Qed.

Lemma after_remove_nothing_matches_witness :
  dbQuery literalHost []
    (docMap (fst (JsonDB.remove literalHost (mkState testStore [] [] 0)
                    (VObj [("val", VObj [("$gte", VNum 2)])])
                    (VObj [("multi", VBool true)]))))
    (VObj [("val", VObj [("$gte", VNum 2)])])
  = Ok [].
Proof.
  apply (after_remove_nothing_matches literalHost
           (mkState testStore [] [] 0)
           (VObj [("val", VObj [("$gte", VNum 2)])])
           (VObj [("multi", VBool true)]) ["2"; "3"]).
  - reflexivity.
  - intros id [<-|[<-|[]]]; reflexivity.
  - intros [_ H]. discriminate.
Defined.

(** ** The first free candidate *)

(** X21: [makeId] returns the candidate of the first attempt under which
    the store has and inherits nothing: when the first [k] candidates are
    not free and the next one is, it returns that one after
    [16 * (k + 1)] draws, provided [fuel] allows [k + 1] attempts; and it
    is still searching after [fuel] attempts exactly when none of them
    produced a free id. *)
Theorem makeId_returns_first_unused (draw : nat -> nat) (proto : obj)
  (db : DocMap) (fuel k start : nat) :
  ((forall j, j < k ->
      isFree proto db (uid draw 16 (start + 16 * j)) = false) ->
   isFree proto db (uid draw 16 (start + 16 * k)) = true ->
   k < fuel ->
   makeId draw proto fuel db start
   = Some (uid draw 16 (start + 16 * k), start + 16 * S k)) /\
  (makeId draw proto fuel db start = None <->
   forall j, j < fuel ->
     isFree proto db (uid draw 16 (start + 16 * j)) = false).
Proof.
  split.
  - revert fuel start.
    induction k as [|k IH]; intros fuel start Hused Hfree Hk;
      (destruct fuel as [|fuel]; [lia|]); cbn [makeId].
    + replace (start + 16 * 0) with start in * by lia.
      rewrite Hfree. now replace (start + 16 * 1) with (start + 16) by lia.
    + pose proof (Hused 0 ltac:(lia)) as H0.
      replace (start + 16 * 0) with start in H0 by lia. rewrite H0.
      rewrite (IH fuel (start + 16)).
      * replace (start + 16 + 16 * k) with (start + 16 * S k) by lia.
        now replace (start + 16 + 16 * S k) with (start + 16 * S (S k))
          by lia.
      * intros j Hj. specialize (Hused (S j) ltac:(lia)).
        replace (start + 16 + 16 * j) with (start + 16 * S j) by lia.
        exact Hused.
      * replace (start + 16 + 16 * k) with (start + 16 * S k) by lia.
        exact Hfree.
      * lia.
  - revert start. induction fuel as [|fuel IH]; intros start; cbn [makeId].
    + split; [intros _ j Hj; lia | reflexivity].
    + destruct (isFree proto db (uid draw 16 start)) eqn:E.
      * split; [discriminate|]. intros H. specialize (H 0 ltac:(lia)).
        replace (start + 16 * 0) with start in H by lia. congruence.
      * rewrite IH. split.
        -- intros H [|j] Hj.
           ++ replace (start + 16 * 0) with start by lia. exact E.
           ++ specialize (H j ltac:(lia)).
              replace (start + 16 * S j) with (start + 16 + 16 * j) by lia.
              exact H.
        -- intros H j Hj. specialize (H (S j) ltac:(lia)).
           replace (start + 16 + 16 * j) with (start + 16 * S j) by lia.
           exact H.
Qed.

Lemma makeId_returns_first_unused_witness :
  makeId (fun n => n / 16) []
    2 [("aaaaaaaaaaaaaaaa", plain [("_id", VStr "aaaaaaaaaaaaaaaa")])] 0
  = Some (uid (fun n => n / 16) 16 (0 + 16 * 1), 0 + 16 * 2).
Proof.
  apply (makeId_returns_first_unused (fun n => n / 16) []
           [("aaaaaaaaaaaaaaaa", plain [("_id", VStr "aaaaaaaaaaaaaaaa")])]
           2 1 0).
  - intros [|j] Hj; [reflexivity | lia].
  - reflexivity.
  - lia.
Defined.

(** ** The registry of open databases *)

Lemma length_append s1 s2 :
  String.length (s1 ++ s2)%string = String.length s1 + String.length s2.
Proof.
  induction s1 as [|c r IH]; cbn [append String.length Nat.add]; auto.
Qed.

Lemma stripJson_suffix p : stripJson (p ++ ".json")%string = p.
Proof.
  induction p as [|c r IH]; [reflexivity|].
  cbn [append]. unfold stripJson; fold stripJson.
  destruct (String.eqb_spec (String c (r ++ ".json")%string) ".json") as [E|_].
  - apply (f_equal String.length) in E. cbn [String.length] in E.
    rewrite length_append in E. cbn [String.length] in E. lia.
  - now rewrite IH.
Qed.

Lemma stripJson_other s :
  (forall p, s <> (p ++ ".json")%string) -> stripJson s = s.
Proof.
  induction s as [|c r IH]; intros H; [reflexivity|].
  unfold stripJson; fold stripJson.
  destruct (String.eqb_spec (String c r) ".json") as [E|_].
  - now elim (H EmptyString).
  - rewrite IH; [reflexivity|]. intros p ->. now elim (H (String c p)).
Qed.

Lemma getDb_result files w dbName w' r :
  Registry.getDb files w dbName = (w', r) ->
  dbDir w' = dbDir w /\ snapshots w' = snapshots w /\ draws w' = draws w /\
  worldProto w' = worldProto w /\
  match r with
  | Refused message => w' = w
  | Foreign name =>
      w' = w /\ name = stripJson dbName /\
      lookup name (dbHolder w) = None
  | Store name db =>
      name = stripJson dbName /\ dbDir w <> "" /\
      lookup name (dbHolder w') = Some db /\
      (forall n, n <> name ->
         lookup n (dbHolder w') = lookup n (dbHolder w)) /\
      (forall db0, lookup name (dbHolder w) = Some db0 -> w' = w /\ db0 = db)
  end.
Proof.
  unfold Registry.getDb.
  destruct (String.eqb_spec (dbDir w) "") as [E|Hdir].
  { intros [= <- <-]. auto. }
  destruct (lookup (stripJson dbName) (dbHolder w)) as [db|] eqn:El.
  { intros [= <- <-]. repeat split; auto; congruence. }
  destruct (truthy (inherited (worldProto w) (stripJson dbName))).
  { intros [= <- <-]. repeat split; auto. }
  destruct (files (dbDir w) (stripJson dbName ++ ".json")%string) as [| |db];
    intros [= <- <-]; auto.
  cbn [dbDir snapshots draws dbHolder worldProto].
  repeat split; auto.
  - apply lookup_setProp_same.
  - intros n Hn. apply lookup_setProp_other. congruence.
  - congruence.
  - congruence.
Qed.

(** X22: once [getDb] has returned a database of the registry, every
    later [getDb] of the same name, with or without the [.json] suffix,
    returns the same store and leaves the registry as it is, whatever the
    files hold by then.  The first call changes nothing but the registry,
    where it adds or finds that one entry. *)
Theorem getDb_serves_the_registered_store
  (files files' : string -> string -> FileState) (w w' : World)
  (dbName name : string) (db : DocMap) :
  Registry.getDb files w dbName = (w', Store name db) ->
  Registry.getDb files' w' dbName = (w', Store name db) /\
  Registry.getDb files' w' (name ++ ".json")%string = (w', Store name db) /\
  dbDir w' = dbDir w /\ snapshots w' = snapshots w /\ draws w' = draws w /\
  (forall n, n <> name -> lookup n (dbHolder w') = lookup n (dbHolder w)).
Proof.
  intros H.
  destruct (getDb_result files w dbName w' _ H)
    as (Hdir & Hsnap & Hdraws & _ & Hname & Hset & Hl & Hother & _).
  assert (Hdir' : (dbDir w' =? "") = false)
    by (rewrite Hdir; now apply String.eqb_neq).
  repeat split; auto.
  - unfold Registry.getDb. rewrite Hdir', <- Hname, Hl. reflexivity.
  - unfold Registry.getDb. rewrite Hdir', stripJson_suffix, Hl. reflexivity.
Qed.

Lemma getDb_serves_the_registered_store_witness :
  Registry.getDb (fun _ _ => NoFile)
    (mkWorld "data" [("foo", testStore)] [] [] 0) "foo.json"
  = (mkWorld "data" [("foo", testStore)] [] [] 0, Store "foo" testStore).
Proof.
  apply (getDb_serves_the_registered_store
           (fun _ _ => Snapshot testStore) (fun _ _ => NoFile)
           (mkWorld "data" [] [] [] 0)
           (mkWorld "data" [("foo", testStore)] [] [] 0)
           "foo.json" "foo" testStore).
  reflexivity.
Defined.

(** X23: what [getDb] does when it serves no store.  It throws
    "Database directory is not set" whenever [dbDir] is empty, even for a
    database that is registered.  Otherwise, for a name that is not
    registered: when the registry inherits something truthy under the
    name, such as a built-in method under [constructor], no file is read
    and no error is thrown, and the [JsonDB] that is returned is built on
    that member; when it inherits nothing truthy, the call throws
    "Database not found" if there is no file and "Database read failed" if
    the file cannot be read or parsed.  In each case the registry is as
    before. *)
Theorem getDb_without_store_changes_nothing
  (files : string -> string -> FileState) (w : World) (dbName : string) :
  (dbDir w = "" ->
   Registry.getDb files w dbName
   = (w, Refused "Database directory is not set")) /\
  (dbDir w <> "" ->
   lookup (stripJson dbName) (dbHolder w) = None ->
   truthy (inherited (worldProto w) (stripJson dbName)) = true ->
   Registry.getDb files w dbName = (w, Foreign (stripJson dbName))) /\
  (dbDir w <> "" ->
   lookup (stripJson dbName) (dbHolder w) = None ->
   truthy (inherited (worldProto w) (stripJson dbName)) = false ->
   files (dbDir w) (stripJson dbName ++ ".json")%string = NoFile ->
   Registry.getDb files w dbName = (w, Refused "Database not found")) /\
  (dbDir w <> "" ->
   lookup (stripJson dbName) (dbHolder w) = None ->
   truthy (inherited (worldProto w) (stripJson dbName)) = false ->
   files (dbDir w) (stripJson dbName ++ ".json")%string = Unreadable ->
   Registry.getDb files w dbName = (w, Refused "Database read failed")) /\
  (forall w' message,
     Registry.getDb files w dbName = (w', Refused message) -> w' = w) /\
  (forall w' name,
     Registry.getDb files w dbName = (w', Foreign name) -> w' = w).
Proof.
  unfold Registry.getDb. repeat split.
  - now intros ->.
  - intros Hdir Hl Hi. apply String.eqb_neq in Hdir.
    now rewrite Hdir, Hl, Hi.
  - intros Hdir Hl Hi Hf. apply String.eqb_neq in Hdir.
    now rewrite Hdir, Hl, Hi, Hf.
  - intros Hdir Hl Hi Hf. apply String.eqb_neq in Hdir.
    now rewrite Hdir, Hl, Hi, Hf.
  - intros w' message H.
    exact (proj2 (proj2 (proj2 (proj2
             (getDb_result files w dbName w' _ H))))).
  - intros w' name H.
    exact (proj1 (proj2 (proj2 (proj2 (proj2
             (getDb_result files w dbName w' _ H)))))).
Qed.

Lemma getDb_without_store_changes_nothing_witness :
  Registry.getDb (fun _ _ => NoFile)
    (mkWorld "data" [("foo", testStore)] [] [] 0) "constructor.json"
  = (mkWorld "data" [("foo", testStore)] [] [] 0, Foreign "constructor").
Proof.
  apply (proj1 (proj2 (getDb_without_store_changes_nothing (fun _ _ => NoFile)
                         (mkWorld "data" [("foo", testStore)] [] [] 0)
                         "constructor.json"))).
  - discriminate.
  - reflexivity.
  - reflexivity.
Defined.

(** X24: [closeDb] takes the name literally.  Closing [name], under which
    the registry inherits nothing truthy, makes the next [getDb] of
    [name] read the file again and return what the file holds, not the
    store that was in memory; closing [name.json] closes nothing that
    [getDb] serves under [name], although [getDb] accepts both
    spellings. *)
Theorem closeDb_takes_the_name_literally
  (files : string -> string -> FileState) (w : World) (name : string)
  (inMemory onDisk : DocMap) :
  dbDir w <> "" ->
  stripJson name = name ->
  lookup name (dbHolder w) = Some inMemory ->
  truthy (inherited (worldProto w) name) = false ->
  files (dbDir w) (name ++ ".json")%string = Snapshot onDisk ->
  lookup name (dbHolder (Registry.closeDb w name)) = None /\
  snd (Registry.getDb files (Registry.closeDb w name) name)
  = Store name onDisk /\
  lookup name (dbHolder (Registry.closeDb w (name ++ ".json")%string))
  = Some inMemory /\
  Registry.getDb files (Registry.closeDb w (name ++ ".json")%string)
    (name ++ ".json")%string
  = (Registry.closeDb w (name ++ ".json")%string, Store name inMemory).
Proof.
  intros Hdir Hstrip Hl Hinh Hfile. apply String.eqb_neq in Hdir.
  assert (Hclosed : lookup name (dbHolder (Registry.closeDb w name)) = None).
  { unfold Registry.closeDb. rewrite Hl. cbn [dbHolder].
    apply lookup_deleteProp_same. }
  assert (Hne : (name ++ ".json")%string <> name).
  { intros E. apply (f_equal String.length) in E.
    rewrite length_append in E. cbn [String.length] in E. lia. }
  assert (Hkept : lookup name (dbHolder (Registry.closeDb w (name ++ ".json")%string))
                  = Some inMemory).
  { unfold Registry.closeDb.
    destruct (lookup (name ++ ".json")%string (dbHolder w)); [|exact Hl].
    cbn [dbHolder]. now rewrite lookup_deleteProp_other. }
  assert (Hdir1 : forall n, dbDir (Registry.closeDb w n) = dbDir w).
  { intros n. unfold Registry.closeDb.
    now destruct (lookup n (dbHolder w)). }
  assert (Hproto1 : forall n,
             worldProto (Registry.closeDb w n) = worldProto w).
  { intros n. unfold Registry.closeDb.
    now destruct (lookup n (dbHolder w)). }
  repeat split; auto.
  - unfold Registry.getDb.
    rewrite Hdir1, Hdir, Hstrip, Hclosed, Hproto1, Hinh, Hfile.
    reflexivity.
  - unfold Registry.getDb.
    rewrite Hdir1, Hdir, stripJson_suffix, Hkept. reflexivity.
Qed.

Lemma closeDb_takes_the_name_literally_witness :
  lookup "foo"
    (dbHolder (Registry.closeDb
                 (mkWorld "data" [("foo", testStore)] [] [] 0) "foo"))
  = None /\
  snd (Registry.getDb (fun _ _ => Snapshot [])
         (Registry.closeDb (mkWorld "data" [("foo", testStore)] [] [] 0)
            "foo")
         "foo")
  = Store "foo" [] /\
  lookup "foo"
    (dbHolder (Registry.closeDb
                 (mkWorld "data" [("foo", testStore)] [] [] 0)
                 ("foo" ++ ".json")%string))
  = Some testStore /\
  Registry.getDb (fun _ _ => Snapshot [])
    (Registry.closeDb (mkWorld "data" [("foo", testStore)] [] [] 0)
       ("foo" ++ ".json")%string)
    ("foo" ++ ".json")%string
  = (Registry.closeDb (mkWorld "data" [("foo", testStore)] [] [] 0)
       ("foo" ++ ".json")%string,
     Store "foo" testStore).
Proof.
  apply (closeDb_takes_the_name_literally (fun _ _ => Snapshot [])
           (mkWorld "data" [("foo", testStore)] [] [] 0) "foo" testStore []).
  - discriminate.
  - reflexivity.
  - reflexivity.
  - reflexivity.
  - reflexivity.
Defined.

(** ** The action layer *)

Lemma getDb_registered files w dbName db :
  dbDir w <> "" ->
  lookup (stripJson dbName) (dbHolder w) = Some db ->
  Registry.getDb files w dbName = (w, Store (stripJson dbName) db).
Proof.
  intros Hdir Hl. apply String.eqb_neq in Hdir.
  unfold Registry.getDb. now rewrite Hdir, Hl.
Qed.

Lemma world_eta w :
  mkWorld (dbDir w) (dbHolder w) (worldProto w) (snapshots w) (draws w) = w.
Proof. now destruct w. Qed.

Lemma worldOf_stateOf w name db :
  lookup name (dbHolder w) = Some db ->
  Api.worldOf w name (Api.stateOf w db) = w.
Proof.
  intros Hl. unfold Api.worldOf, Api.stateOf.
  cbn [docMap written drawn objProto].
  rewrite (setProp_same _ _ _ Hl). apply world_eta.
Qed.

Lemma insert_options_pass options :
  negb (jstype_eqb (typeof options) TObject) && isNull options = false.
Proof. now destruct options. Qed.

Section ActionAnswers.

Variable host : Host.
Variable draw : nat -> nat.
Variable files : string -> string -> FileState.
Variable messageOf : exn -> string.

Ltac shape :=
  first
    [ left; split; reflexivity
    | right; left; split; [reflexivity|split; [discriminate|reflexivity]]
    | right; right; split; [reflexivity|discriminate] ].

Ltac enter H :=
  match type of H with
  | context [match reqDbName ?r with _ => _ end] =>
      destruct (reqDbName r); try (injection H as <- <-; shape)
  end;
  repeat match type of H with
  | context [if ?c then _ else _] =>
      destruct c; try (injection H as <- <-; shape)
  end;
  match type of H with
  | context [Registry.getDb ?f ?w0 ?s] =>
      destruct (Registry.getDb f w0 s) as [w1 [message|name db|name]];
      try discriminate; try (injection H as <- <-; shape)
  end.

Lemma countAction_wellFormed w req w' res :
  Api.countAction host files messageOf w req = (w', Ok res) ->
  wellFormed w w' res.
Proof.
  unfold Api.countAction, Api.answer, wellFormed. intros H. enter H.
  destruct (JsonDB.count _ _ _); try discriminate;
    injection H as <- <-; shape.
Qed.

Lemma findAction_wellFormed w req w' res :
  Api.findAction host files messageOf w req = (w', Ok res) ->
  wellFormed w w' res.
Proof.
  unfold Api.findAction, Api.answer, wellFormed. intros H. enter H.
  destruct (JsonDB.find _ _ _ _); try discriminate;
    injection H as <- <-; shape.
Qed.

Lemma findOneAction_wellFormed w req w' res :
  Api.findOneAction host files messageOf w req = (w', Ok res) ->
  wellFormed w w' res.
Proof.
  unfold Api.findOneAction, Api.answer, wellFormed. intros H. enter H.
  destruct (JsonDB.findOne _ _ _ _); try discriminate;
    injection H as <- <-; shape.
Qed.

Lemma insertAction_wellFormed fuel w req w' res :
  Api.insertAction host draw files messageOf fuel w req
  = Some (w', Ok res) ->
  wellFormed w w' res.
Proof.
  unfold Api.insertAction, Api.answer, wellFormed. intros H. enter H.
  destruct (JsonDB.insert _ _ _ _ _ _) as [[st [id| |]]|];
    try discriminate; injection H as <- <-; shape.
Qed.

Lemma removeAction_wellFormed w req w' res :
  Api.removeAction host files messageOf w req = (w', Ok res) ->
  wellFormed w w' res.
Proof.
  unfold Api.removeAction, Api.answer, wellFormed. intros H. enter H.
  destruct (JsonDB.remove _ _ _ _) as [st [n| |]]; try discriminate;
    injection H as <- <-; shape.
Qed.

Lemma updateAction_wellFormed w req w' res :
  Api.updateAction host files messageOf w req = (w', Ok res) ->
  wellFormed w w' res.
Proof.
  unfold Api.updateAction, Api.answer, wellFormed. intros H. enter H.
  destruct (JsonDB.update _ _ _ _ _) as [st [n| |]]; try discriminate;
    injection H as <- <-; shape.
Qed.

Lemma saveAction_wellFormed w req w' res :
  Api.saveAction host files w req = (w', Ok res) ->
  wellFormed w w' res.
Proof.
  unfold Api.saveAction, wellFormed. intros H. enter H.
Qed.

End ActionAnswers.

(** X25: every response of [callDbAction] has status 200 and no error,
    or status 400 or 500 and an error message; a request answered with
    400, a wrong action name included, has changed nothing: no database
    was loaded, written or modified.  A response is produced only under
    one of the seven action names or under a name for which the route map
    inherits nothing truthy: under a name such as [toString] the
    inherited member is called in place of an action, and what it returns
    is no response. *)
Theorem callDbAction_answers_200_400_or_500
  (host : Host) (draw : nat -> nat) (files : string -> string -> FileState)
  (messageOf : exn -> string) (fuel : nat) (w w' : World)
  (req : ApiReq) (res : ApiRes) :
  Api.callDbAction host draw files messageOf fuel w req
  = Some (w', Ok res) ->
  ((status res = 200 /\ err res = None) \/
   (status res = 400 /\ err res <> None /\ w' = w) \/
   (status res = 500 /\ err res <> None)) /\
  (In (reqActionName req) actionNames \/
   truthy (inherited (worldProto w) (reqActionName req)) = false).
Proof.
  unfold Api.callDbAction, actionNames. intros H.
  change ((status res = 200 /\ err res = None) \/
          (status res = 400 /\ err res <> None /\ w' = w) \/
          (status res = 500 /\ err res <> None))
    with (wellFormed w w' res).
  destruct (String.eqb_spec (reqActionName req) "count") as [->|_].
  { injection H as H. split; [|left; cbn; tauto].
    eapply countAction_wellFormed; eauto. }
  destruct (String.eqb_spec (reqActionName req) "find") as [->|_].
  { injection H as H. split; [|left; cbn; tauto].
    eapply findAction_wellFormed; eauto. }
  destruct (String.eqb_spec (reqActionName req) "findOne") as [->|_].
  { injection H as H. split; [|left; cbn; tauto].
    eapply findOneAction_wellFormed; eauto. }
  destruct (String.eqb_spec (reqActionName req) "insert") as [->|_].
  { split; [|left; cbn; tauto].
    eapply insertAction_wellFormed; eauto. }
  destruct (String.eqb_spec (reqActionName req) "remove") as [->|_].
  { injection H as H. split; [|left; cbn; tauto].
    eapply removeAction_wellFormed; eauto. }
  destruct (String.eqb_spec (reqActionName req) "update") as [->|_].
  { injection H as H. split; [|left; cbn; tauto].
    eapply updateAction_wellFormed; eauto. }
  destruct (String.eqb_spec (reqActionName req) "save") as [->|_].
  { injection H as H. split; [|left; cbn; tauto].
    eapply saveAction_wellFormed; eauto. }
  destruct (truthy (inherited (worldProto w) (reqActionName req))).
  - destruct (jstype_eqb _ TFunction); discriminate.
  - injection H as <- <-. split; [|now right].
    right; left. split; [reflexivity|split; [discriminate|reflexivity]].
Qed.

Lemma callDbAction_answers_200_400_or_500_witness :
  ((status (mkRes 400 (Some "Invalid options provided") (DataNumber 0)) = 200
    /\ err (mkRes 400 (Some "Invalid options provided") (DataNumber 0))
       = None) \/
   (status (mkRes 400 (Some "Invalid options provided") (DataNumber 0)) = 400
    /\ err (mkRes 400 (Some "Invalid options provided") (DataNumber 0))
       <> None
    /\ mkWorld "data" [] [] [] 0 = mkWorld "data" [] [] [] 0) \/
   (status (mkRes 400 (Some "Invalid options provided") (DataNumber 0)) = 500
    /\ err (mkRes 400 (Some "Invalid options provided") (DataNumber 0))
       <> None)) /\
  (In "update" actionNames \/ truthy (inherited [] "update") = false).
Proof.
  apply (callDbAction_answers_200_400_or_500 literalHost (fun n => n)
           (fun _ _ => Snapshot testStore) (fun _ => "error") 1
           (mkWorld "data" [] [] [] 0) (mkWorld "data" [] [] [] 0)
           (mkReq (VStr "foo") "update" (VObj []) (VNum 1%float) VUndef VUndef
                  (VObj []))).
  reflexivity.
Defined.

(** X27: through [callDbAction], inserting into an available database a
    plain object of data that reads a non-empty string under [_id], when
    the store has no document under that id and inherits nothing truthy
    under it, answers 200 with that id and stores the object under it in
    the registered store, at the end when the id is no array index; a
    [findOne] request for that id then answers 200 with the document,
    without reading any file and without changing anything. *)
Theorem facade_insert_then_findOne
  (host : Host) (draw : nat -> nat)
  (files files' : string -> string -> FileState)
  (messageOf : exn -> string) (fuel : nat) (w w1 : World)
  (dbName name id : string) (db : DocMap) (d : obj) (options : value) :
  Registry.getDb files w dbName = (w1, Store name db) ->
  getProp (worldProto w) d "_id" = VStr id ->
  id <> "" ->
  hasDoc (worldProto w) db id = false ->
  cloneable (VObj d) = true ->
  exists w2,
    Api.callDbAction host draw files messageOf fuel w
      (mkReq (VStr dbName) "insert" VUndef VUndef VUndef (VObj d) options)
    = Some (w2, Ok (mkRes 200 None (DataString id))) /\
    lookup name (dbHolder w2) = Some (setProp id (plain d) db) /\
    (arrayIndex id = None ->
     lookup name (dbHolder w2) = Some (db ++ [(id, plain d)])) /\
    Api.callDbAction host draw files' messageOf fuel w2
      (mkReq (VStr dbName) "findOne" (idQuery id) VUndef (VObj [])
             VUndef VUndef)
    = Some (w2, Ok (mkRes 200 None (DataValue (VObj d)))).
Proof.
  intros Hg Hget Hne Hfresh Hdata.
  destruct (getDb_result files w dbName w1 _ Hg)
    as (Hdir & _ & _ & Hproto & Hname & Hset & _).
  assert (Hnone : lookup id db = None).
  { unfold hasDoc in Hfresh. now destruct (lookup id db). }
  rewrite <- Hproto in Hget, Hfresh.
  destruct (insert_with_id_stored host draw fuel (Api.stateOf w1 db)
              d id options Hget Hne Hfresh Hdata)
    as (st' & Hrun & Hmap & _).
  cbn [Api.stateOf docMap] in Hmap.
  assert (Hfind : JsonDB.findOne host st' (idQuery id) VUndef = Ok (VObj d)).
  { apply (findOne_by_id host st' id (plain d)); auto.
    rewrite Hmap. apply lookup_setProp_same. }
  exists (Api.worldOf w1 name st').
  assert (Hl : lookup name (dbHolder (Api.worldOf w1 name st'))
               = Some (setProp id (plain d) db)).
  { unfold Api.worldOf. cbn [dbHolder]. rewrite Hmap.
    apply lookup_setProp_same. }
  split; [|split; [exact Hl|split]].
  - unfold Api.callDbAction.
    cbn [reqActionName String.eqb Ascii.eqb Bool.eqb andb].
    unfold Api.insertAction. cbn [reqDbName reqDoc reqOptions].
    rewrite insert_options_pass. cbn [notObjectLike typeof jstype_eqb negb
                                      isNull orb].
    rewrite Hg, Hrun. reflexivity.
  - intros Hidx. rewrite Hl. f_equal. now apply setProp_fresh.
  - unfold Api.callDbAction.
    cbn [reqActionName String.eqb Ascii.eqb Bool.eqb andb].
    unfold Api.findOneAction. cbn [reqDbName reqQuery reqProjection].
    unfold idQuery at 1.
    cbn [notObjectLike typeof jstype_eqb negb isNull orb].
    rewrite (getDb_registered files' _ dbName (setProp id (plain d) db)).
    + assert (Hsame : Api.stateOf (Api.worldOf w1 name st')
                        (setProp id (plain d) db) = st').
      { unfold Api.stateOf, Api.worldOf.
        cbn [worldProto snapshots draws]. rewrite <- Hmap.
        apply state_eta. }
      rewrite Hsame.
      assert (Hfind' : JsonDB.findOne host st' (idQuery id) (VObj [])
                       = Ok (VObj d)) by exact Hfind.
      unfold Api.answer. rewrite Hfind'. reflexivity.
    + unfold Api.worldOf. cbn [dbDir]. congruence.
    + rewrite <- Hname. exact Hl.
Qed.

Lemma facade_insert_then_findOne_witness :
  exists w2,
    Api.callDbAction literalHost (fun n => n)
      (fun _ _ => Snapshot testStore) (fun _ => "error") 1
      (mkWorld "data" [] [] [] 0)
      (mkReq (VStr "foo.json") "insert" VUndef VUndef VUndef
             (VObj [("_id", VStr "abc"); ("val", VNum 4)]) VUndef)
    = Some (w2, Ok (mkRes 200 None (DataString "abc"))) /\
    lookup "foo" (dbHolder w2)
    = Some (testStore
            ++ [("abc", plain [("_id", VStr "abc"); ("val", VNum 4)])]) /\
    Api.callDbAction literalHost (fun n => n)
      (fun _ _ => NoFile) (fun _ => "error") 1 w2
      (mkReq (VStr "foo.json") "findOne" (idQuery "abc") VUndef (VObj [])
             VUndef VUndef)
    = Some (w2, Ok (mkRes 200 None
                      (DataValue (VObj [("_id", VStr "abc");
                                        ("val", VNum 4)])))).
Proof.
  destruct (facade_insert_then_findOne literalHost (fun n => n)
              (fun _ _ => Snapshot testStore) (fun _ _ => NoFile)
              (fun _ => "error") 1
              (mkWorld "data" [] [] [] 0)
              (mkWorld "data" [("foo", testStore)] [] [] 0)
              "foo.json" "foo" "abc" testStore
              [("_id", VStr "abc"); ("val", VNum 4)] VUndef)
    as (w2 & Hins & _ & Happ & Hfind).
  - reflexivity.
  - reflexivity.
  - discriminate.
  - reflexivity.
  - reflexivity.
  - exists w2. split; [exact Hins|]. split; [now apply Happ|exact Hfind].
Defined.

(** X28: [insertAction] refuses a request only for its [dbName] or its
    [doc]: its test of [options] never holds, so [options] of any value,
    [null] included, reach [insert]; [removeAction] and [updateAction]
    refuse [options] that are not an object, absent ones included. *)
Theorem insertAction_never_refuses_options
  (host : Host) (draw : nat -> nat) (files : string -> string -> FileState)
  (messageOf : exn -> string) (fuel : nat) (w w' : World)
  (req : ApiReq) (res : ApiRes) :
  Api.insertAction host draw files messageOf fuel w req
  = Some (w', Ok res) ->
  status res = 400 ->
  (err res = Some "Invalid dbName provided" \/
   err res = Some "Invalid doc provided") /\
  (notObjectLike (reqOptions req) = true ->
   forall dbName, reqDbName req = VStr dbName ->
   notObjectLike (reqQuery req) = false ->
   Api.removeAction host files messageOf w req
   = (w, Ok (mkRes 400 (Some "Invalid options provided") (DataNumber 0))) /\
   Api.updateAction host files messageOf w req
   = (w, Ok (mkRes 400 (Some "Invalid options provided") (DataNumber 0)))).
Proof.
  intros H Hstatus. split.
  - unfold Api.insertAction in H. rewrite insert_options_pass in H.
    destruct (reqDbName req);
      try (injection H as <- <-; left; reflexivity).
    destruct (notObjectLike (reqDoc req));
      [injection H as <- <-; right; reflexivity|].
    destruct (Registry.getDb files w s) as [w1 [message|name db|name]].
    + injection H as <- <-. discriminate.
    + unfold Api.answer in H.
      destruct (JsonDB.insert _ _ _ _ _ _) as [[st [id| |]]|];
        try discriminate; injection H as <- <-; discriminate.
    + discriminate.
  - intros Hopt dbName Hname Hquery.
    unfold Api.removeAction, Api.updateAction.
    rewrite Hname, Hquery, Hopt.
    split; [reflexivity|]. now destruct (notObjectLike (reqUpdate req)).
Qed.

Lemma insertAction_never_refuses_options_witness :
  (err (mkRes 400 (Some "Invalid doc provided") DataNull)
   = Some "Invalid dbName provided" \/
   err (mkRes 400 (Some "Invalid doc provided") DataNull)
   = Some "Invalid doc provided") /\
  (notObjectLike VNull = true ->
   forall dbName, VStr "foo" = VStr dbName ->
   notObjectLike (VObj []) = false ->
   Api.removeAction literalHost (fun _ _ => Snapshot testStore)
     (fun _ => "error") (mkWorld "data" [] [] [] 0)
     (mkReq (VStr "foo") "insert" (VObj []) VUndef VUndef VNull VNull)
   = (mkWorld "data" [] [] [] 0,
      Ok (mkRes 400 (Some "Invalid options provided") (DataNumber 0))) /\
   Api.updateAction literalHost (fun _ _ => Snapshot testStore)
     (fun _ => "error") (mkWorld "data" [] [] [] 0)
     (mkReq (VStr "foo") "insert" (VObj []) VUndef VUndef VNull VNull)
   = (mkWorld "data" [] [] [] 0,
      Ok (mkRes 400 (Some "Invalid options provided") (DataNumber 0)))).
Proof.
  apply (insertAction_never_refuses_options literalHost (fun n => n)
           (fun _ _ => Snapshot testStore) (fun _ => "error") 1
           (mkWorld "data" [] [] [] 0) (mkWorld "data" [] [] [] 0)
           (mkReq (VStr "foo") "insert" (VObj []) VUndef VUndef VNull VNull)
           (mkRes 400 (Some "Invalid doc provided") DataNull)).
  - reflexivity.
  - reflexivity.
Defined.

(** X29: an insert that the engine refuses is answered as a success:
    for a document that reads a non-empty string under [_id] when the
    store has or inherits something truthy under that id, and for a [doc]
    that is an array, the action answers 200 with the empty string as id,
    and the store, the written texts and the random draws are as after
    loading the database. *)
Theorem refused_insert_is_answered_200
  (host : Host) (draw : nat -> nat) (files : string -> string -> FileState)
  (messageOf : exn -> string) (fuel : nat) (w w1 : World)
  (dbName name : string) (db : DocMap) (doc options : value) :
  Registry.getDb files w dbName = (w1, Store name db) ->
  (exists d id, doc = VObj d /\ getProp (worldProto w) d "_id" = VStr id /\
                id <> "" /\ hasDoc (worldProto w) db id = true) \/
  (exists items, doc = VArr items) ->
  Api.callDbAction host draw files messageOf fuel w
    (mkReq (VStr dbName) "insert" VUndef VUndef VUndef doc options)
  = Some (w1, Ok (mkRes 200 None (DataString ""))).
Proof.
  intros Hg Hdoc.
  destruct (getDb_result files w dbName w1 _ Hg)
    as (_ & _ & _ & Hproto & _ & _ & Hl & _).
  unfold Api.callDbAction.
  cbn [reqActionName String.eqb Ascii.eqb Bool.eqb andb].
  unfold Api.insertAction. cbn [reqDbName reqDoc reqOptions].
  rewrite insert_options_pass.
  assert (Hrun : JsonDB.insert host draw fuel (Api.stateOf w1 db) doc options
                 = Some (Api.stateOf w1 db, Ok "")).
  { destruct Hdoc as [(d & id & -> & Hget & Hne & Hhas)|(items & ->)].
    - unfold JsonDB.insert, dbInsert.
      cbn [notPlainObject typeof jstype_eqb negb isArray isNull orb].
      unfold Api.stateOf at 1 2 3 4. cbn [docMap written drawn objProto].
      rewrite Hproto, (hasExplicitId_true _ d id Hget Hne).
      unfold insertDocWithId. rewrite Hget, Hhas.
      cbn [String.eqb negb andb]. unfold Api.stateOf. now rewrite Hproto.
    - reflexivity. }
  assert (Hobj : notObjectLike doc = false)
    by (destruct Hdoc as [(d & id & -> & _)|(items & ->)]; reflexivity).
  rewrite Hobj, Hg, Hrun. unfold Api.answer. now rewrite worldOf_stateOf.
Qed.

Lemma refused_insert_is_answered_200_witness :
  Api.callDbAction literalHost (fun n => n)
    (fun _ _ => Snapshot testStore) (fun _ => "error") 1
    (mkWorld "data" [("foo", testStore)] [] [] 0)
    (mkReq (VStr "foo") "insert" VUndef VUndef VUndef (VArr []) VUndef)
  = Some (mkWorld "data" [("foo", testStore)] [] [] 0,
          Ok (mkRes 200 None (DataString ""))).
Proof.
  apply (refused_insert_is_answered_200 literalHost (fun n => n)
           (fun _ _ => Snapshot testStore) (fun _ => "error") 1
           (mkWorld "data" [("foo", testStore)] [] [] 0)
           (mkWorld "data" [("foo", testStore)] [] [] 0)
           "foo" "foo" testStore (VArr []) VUndef).
  - reflexivity.
  - right. exists []. reflexivity.
Defined.

(** ** The update engine never touches an own [_id] *)

Lemma assign_keeps doc k v doc' w :
  lookup "_id" (fields doc) = Some w ->
  k <> "_id" ->
  assign doc k v = Ok doc' ->
  lookup "_id" (fields doc') = Some w.
Proof.
  intros Hid Hk. unfold assign.
  assert (Hset : lookup "_id" (setProp k v (fields doc)) = Some w)
    by (rewrite lookup_setProp_other; auto).
  destruct (lookup k (fields doc)); [now intros [= <-]|].
  destruct (kind doc).
  - destruct (k =? "__proto__"); [|now intros [= <-]].
    unfold setPrototype. destruct v; try discriminate; now intros [= <-].
  - now intros [= <-].
  - destruct ((k =? "__proto__") || isBuiltinMember k); [discriminate|].
    now intros [= <-].
Qed.

Lemma deleteField_keeps doc k doc' w :
  lookup "_id" (fields doc) = Some w ->
  k <> "_id" ->
  deleteField doc k = Ok doc' ->
  lookup "_id" (fields doc') = Some w.
Proof.
  intros Hid Hk. unfold deleteField.
  assert (Hdel : lookup "_id" (deleteProp k (fields doc)) = Some w)
    by (rewrite lookup_deleteProp_other; auto).
  destruct (lookup k (fields doc)); [now intros [= <-]|].
  destruct (kind doc); try (now intros [= <-]).
  destruct ((k =? "__proto__") || isBuiltinMember k); [discriminate|].
  now intros [= <-].
Qed.

Section KeepsId.

Variable proto : obj.

Lemma incField_keepsId : keepsId (incField proto).
Proof.
  intros doc field x doc' changed id Hid H. unfold incField in H.
  destruct x; try (ok_inv H; exact Hid).
  destruct (String.eqb_spec field "_id") as [->|Hne].
  { rewrite (getField_own proto doc "_id" _ Hid) in H.
    ok_inv H. exact Hid. }
  destruct (getField proto doc field); try (ok_inv H; exact Hid);
    apply bind_ok in H as (d & Hd & H); ok_inv H;
    exact (assign_keeps _ _ _ _ _ Hid Hne Hd).
Qed.

Lemma pushField_keepsId : keepsId (pushField proto).
Proof.
  intros doc field x doc' changed id Hid H. unfold pushField in H.
  destruct (String.eqb_spec field "_id") as [->|Hne].
  { rewrite (getField_own proto doc "_id" _ Hid) in H.
    ok_inv H. exact Hid. }
  destruct (getField proto doc field); try (ok_inv H; exact Hid).
  - apply bind_ok in H as (c & _ & H). apply bind_ok in H as (d & Hd & H).
    ok_inv H. exact (assign_keeps _ _ _ _ _ Hid Hne Hd).
  - apply bind_ok in H as (c & _ & H).
    destruct (lookup field (fields doc)); [|discriminate].
    ok_inv H. cbn [fields]. rewrite lookup_setProp_other; auto.
Qed.

Lemma renameField_keepsId : keepsId (renameField proto).
Proof.
  intros doc field x doc' changed id Hid H. unfold renameField in H.
  destruct (String.eqb_spec field "_id") as [->|Hne];
    [ok_inv H; exact Hid|].
  destruct x; try (ok_inv H; exact Hid).
  destruct (isUndefined (getField proto doc s)) eqn:Eu; cbn [negb] in H;
    [|ok_inv H; exact Hid].
  destruct (isUndefined (getField proto doc field)); cbn [negb] in H;
    [ok_inv H; exact Hid|].
  apply bind_ok in H as (c & _ & H). apply bind_ok in H as (d1 & Hd1 & H).
  apply bind_ok in H as (d2 & Hd2 & H). ok_inv H.
  apply (deleteField_keeps d1 field _ _) with (2 := Hne) (3 := Hd2).
  apply (assign_keeps doc s c _ _ Hid); [|exact Hd1].
  intros ->. rewrite (getField_own proto doc "_id" _ Hid) in Eu.
  discriminate.
Qed.

Lemma setField_keepsId : keepsId setField.
Proof.
  intros doc field x doc' changed id Hid H. unfold setField in H.
  destruct (String.eqb_spec field "_id") as [->|Hne];
    [ok_inv H; exact Hid|].
  apply bind_ok in H as (c & _ & H). apply bind_ok in H as (d & Hd & H).
  ok_inv H. exact (assign_keeps _ _ _ _ _ Hid Hne Hd).
Qed.

Lemma unsetField_keepsId : keepsId (unsetField proto).
Proof.
  intros doc field x doc' changed id Hid H. unfold unsetField in H.
  destruct (String.eqb_spec field "_id") as [->|Hne];
    [ok_inv H; exact Hid|].
  destruct (negb (isUndefined (getField proto doc field)) && truthy x);
    [|ok_inv H; exact Hid].
  apply bind_ok in H as (d & Hd & H). ok_inv H.
  exact (deleteField_keeps _ _ _ _ Hid Hne Hd).
Qed.

Lemma operatorStep_keepsId operator step :
  operatorStep proto operator = Some step -> keepsId step.
Proof.
  unfold operatorStep.
  destruct (operator =? "$inc");
    [intros [= <-]; exact incField_keepsId|].
  destruct (operator =? "$push");
    [intros [= <-]; exact pushField_keepsId|].
  destruct (operator =? "$rename");
    [intros [= <-]; exact renameField_keepsId|].
  destruct (operator =? "$set");
    [intros [= <-]; exact setField_keepsId|].
  destruct (operator =? "$unset");
    [intros [= <-]; exact unsetField_keepsId|].
  discriminate.
Qed.

Lemma applyFields_keepsId step id :
  keepsId step ->
  forall es doc n,
    lookup "_id" (fields doc) = Some (VStr id) ->
    lookup "_id" (fields (fst (applyFields step doc n es)))
    = Some (VStr id).
Proof.
  intros Hstep. induction es as [|[field x] rest IH]; intros doc n Hid.
  - exact Hid.
  - cbn [applyFields].
    destruct (step doc field x) as [[doc' changed]| |] eqn:E;
      [|exact Hid|exact Hid].
    apply IH. exact (Hstep _ _ _ _ _ _ Hid E).
Qed.

Lemma applyOperators_keepsId id :
  forall ops doc n,
    lookup "_id" (fields doc) = Some (VStr id) ->
    lookup "_id" (fields (fst (applyOperators proto doc n ops)))
    = Some (VStr id).
Proof.
  induction ops as [|[operator operand] rest IH]; intros doc n Hid.
  - exact Hid.
  - cbn [applyOperators].
    destruct (operatorStep proto operator) as [step|] eqn:Es;
      [|now apply IH].
    destruct (entries operand) as [es| |]; [|exact Hid|exact Hid].
    pose proof (applyFields_keepsId step id
                  (operatorStep_keepsId _ _ Es) es doc n Hid) as Hk.
    destruct (applyFields step doc n es) as [doc' [n'| |]]; cbn [fst] in Hk.
    + now apply IH.
    + exact Hk.
    + exact Hk.
Qed.

(** Whatever the update, [$inc], [$push] and [$rename] aimed at [_id]
    included, a document that has a string [_id] of its own keeps it. *)
Lemma dbUpdate_keepsId doc update id :
  lookup "_id" (fields doc) = Some (VStr id) ->
  lookup "_id" (fields (fst (dbUpdate proto doc update))) = Some (VStr id).
Proof.
  intros Hid. unfold dbUpdate.
  destruct (notPlainObject update); [exact Hid|].
  destruct update; try exact Hid.
  destruct (Nat.eqb (List.length (keys props)) 0); [exact Hid|].
  now apply applyOperators_keepsId.
Qed.

End KeepsId.

(** ** The store invariant, one call at a time *)

Lemma idInvariant_setProp db id doc :
  idInvariant db -> id <> "" ->
  lookup "_id" (fields doc) = Some (VStr id) ->
  idInvariant (setProp id doc db).
Proof.
  intros Hinv Hne Hid. apply Forall_setProp; auto.
Qed.

Lemma idInvariant_deleteAll db ids :
  idInvariant db -> idInvariant (JsonDB.deleteAll db ids).
Proof.
  unfold JsonDB.deleteAll. revert db.
  induction ids as [|id rest IH]; intros db Hinv; [exact Hinv|].
  cbn [fold_left]. apply IH. now apply Forall_deleteProp.
Qed.

Lemma idInvariant_updateEach update : forall ids db proto n,
  idInvariant db ->
  idInvariant (fst (fst (JsonDB.updateEach db proto update ids n))).
Proof.
  induction ids as [|id rest IH]; intros db proto n Hinv; [exact Hinv|].
  cbn [JsonDB.updateEach].
  destruct (lookup id db) as [doc|] eqn:El.
  - destruct (idInvariant_lookup db id doc Hinv El) as [Hne Hid].
    pose proof (dbUpdate_keepsId proto doc update id Hid) as Hk.
    destruct (dbUpdate proto doc update) as [doc' [m| |]]; cbn [fst] in Hk.
    + apply IH. now apply idInvariant_setProp.
    + now apply idInvariant_setProp.
    + now apply idInvariant_setProp.
  - destruct (id =? "__proto__"); [|exact Hinv].
    destruct (dbUpdate proto (mkDoc Root proto) update) as [doc' [m| |]];
      [now apply IH|exact Hinv|exact Hinv].
Qed.

Lemma idInvariant_remove host st query options :
  idInvariant (docMap st) ->
  idInvariant (docMap (fst (JsonDB.remove host st query options))).
Proof.
  intros Hinv. unfold JsonDB.remove.
  destruct (dbQuery host (objProto st) (docMap st) query) as [ids| |];
    [|exact Hinv|exact Hinv].
  destruct (Nat.eqb (List.length ids) 0); [exact Hinv|].
  destruct (Nat.ltb 1 (List.length ids)
            && negb (truthy (optProp (objProto st) options "multi")));
    [exact Hinv|].
  destruct (negb (truthy (optProp (objProto st) options "skipSave")));
    cbn [fst docMap withDocMap JsonDB.save];
    now apply idInvariant_deleteAll.
Qed.

Lemma idInvariant_update host st query upd options :
  idInvariant (docMap st) ->
  idInvariant (docMap (fst (JsonDB.update host st query upd options))).
Proof.
  intros Hinv. unfold JsonDB.update.
  destruct (dbQuery host (objProto st) (docMap st) query) as [ids| |];
    [|exact Hinv|exact Hinv].
  destruct (Nat.eqb (List.length ids) 0); [exact Hinv|].
  destruct (Nat.ltb 1 (List.length ids)
            && negb (truthy (optProp (objProto st) options "multi")));
    [exact Hinv|].
  pose proof (idInvariant_updateEach upd ids (docMap st) (objProto st) 0
                Hinv) as Hk.
  destruct (JsonDB.updateEach (docMap st) (objProto st) upd ids 0)
    as [[db' proto'] [n| |]]; cbn [fst] in Hk; [|exact Hk|exact Hk].
  destruct (Nat.ltb 0 n && negb (truthy (optProp proto' options "skipSave")));
    exact Hk.
Qed.

Lemma getProp_own_id proto (d : obj) id :
  lookup "_id" proto = None ->
  getProp proto d "_id" = VStr id ->
  lookup "_id" d = Some (VStr id).
Proof.
  intros Hproto. unfold getProp.
  destruct (lookup "_id" d); [now intros ->|].
  unfold inherited. cbn. rewrite Hproto. discriminate.
Qed.

Lemma idInvariant_insert host draw fuel st doc options st' r :
  (forall n, draw n < String.length alphabet) ->
  lookup "_id" (objProto st) = None ->
  idInvariant (docMap st) ->
  JsonDB.insert host draw fuel st doc options = Some (st', r) ->
  idInvariant (docMap st').
Proof.
  intros Hrange Hproto Hinv. unfold JsonDB.insert.
  assert (Hdb : forall db' drawn' r0,
             dbInsert draw (objProto st) fuel (docMap st) (drawn st) doc
             = Some (db', drawn', r0) -> idInvariant db').
  { intros db' drawn' r0. unfold dbInsert.
    destruct (notPlainObject doc); [now intros [= <- _ _]|].
    destruct doc as [| | | | | |d| | |]; try (now intros [= <- _ _]).
    destruct (hasExplicitId (objProto st) d) eqn:Ex.
    - unfold insertDocWithId. unfold hasExplicitId in Ex.
      destruct (getProp (objProto st) d "_id") as [| | | |id| | | | |] eqn:Eg;
        try discriminate.
      destruct (hasDoc (objProto st) (docMap st) id);
        [now intros [= <- _ _]|].
      destruct (cloneDoc d) as [c| |] eqn:Ec; try (now intros [= <- _ _]).
      intros [= <- _ _].
      unfold cloneDoc in Ec. apply bind_ok in Ec as (c0 & _ & [= <-]).
      apply idInvariant_setProp; auto.
      + intros ->. discriminate.
      + cbn [plain fields]. now apply (getProp_own_id (objProto st)).
    - unfold insertDoc.
      destruct (makeId draw (objProto st) fuel (docMap st) (drawn st))
        as [[id dr]|] eqn:Em; [|discriminate].
      destruct (cloneDoc d) as [c| |] eqn:Ec; try (now intros [= <- _ _]).
      intros [= <- _ _].
      destruct (makeId_attempt draw (objProto st) fuel (docMap st) _ _ _ Em)
        as (j & Hid & _).
      destruct (uid_chars draw Hrange 16 (drawn st + 16 * j)) as [Hlen _].
      rewrite <- Hid in Hlen.
      apply idInvariant_setProp; auto.
      + intros ->. discriminate.
      + cbn [plain fields]. apply lookup_setProp_same. }
  destruct (dbInsert draw (objProto st) fuel (docMap st) (drawn st) doc)
    as [[[db' drawn'] r0]|] eqn:Ei; [|discriminate].
  specialize (Hdb _ _ _ eq_refl).
  destruct r0 as [id| |]; try (now intros [= <- _]).
  destruct (negb (id =? "")
            && negb (truthy (optProp (objProto st) options "skipSave")));
    now intros [= <- _].
Qed.

(** X26: the store invariant, one call at a time.  From a store in which
    every document is stored under its own non-empty [_id], [remove] and
    [update] always lead to such a store, whatever the query, the update
    and the outcome; and so does [insert], when the draws are indices of
    the alphabet and no [_id] has been added to [Object.prototype].  So
    the invariant can only be lost by an [insert] that follows an update
    of [Object.prototype]. *)
Theorem store_invariant_one_call (host : Host) (draw : nat -> nat)
  (fuel : nat) (st : State) :
  idInvariant (docMap st) ->
  (forall query options,
     idInvariant (docMap (fst (JsonDB.remove host st query options)))) /\
  (forall query upd options,
     idInvariant (docMap (fst (JsonDB.update host st query upd options)))) /\
  ((forall n, draw n < String.length alphabet) ->
   lookup "_id" (objProto st) = None ->
   forall doc options st' r,
     JsonDB.insert host draw fuel st doc options = Some (st', r) ->
     idInvariant (docMap st')).
Proof.
  intros Hinv. split; [|split].
  - intros query options. now apply idInvariant_remove.
  - intros query upd options. now apply idInvariant_update.
  - intros Hrange Hproto doc options st' r.
    now apply idInvariant_insert.
Qed.

Lemma store_invariant_one_call_witness :
  idInvariant
    (docMap (fst (JsonDB.update literalHost (mkState testStore [] [] 0)
                    (VObj [("val", VObj [("$lt", VNum 3)])])
                    (VObj [("$rename", VObj [("name", VStr "_id")]);
                           ("$inc", VObj [("_id", VNum 1)])])
                    (VObj [("multi", VBool true)])))).
Proof.
  apply (store_invariant_one_call literalHost (fun n => n) 1
           (mkState testStore [] [] 0)).
  repeat constructor; cbn; discriminate.
Defined.
